(** * PngImage: the PNG codec adapter of kexlib (src/kexlib/gfx/PngImage.cc)

    A shallow embedding of [PngImage::detect], [PngImage::load] and
    [PngImage::save], and the properties of the adapter stated in the
    specification.

    Conventions.
    - A byte ([char], [png_byte], [uint8_t]) is a [Z]; arrays are lists.
    - An [int] is a [Z] in the signed 32-bit range, wrap-around written out.
    - libpng is an external library.  Its wire format (signature, chunk
      framing, CRC, zlib) is not modelled: a PNG file handed to libpng is
      represented by the datastream libpng reconstructs from it, and the
      functions of [Module LibPng] follow libpng's documented behaviour for
      the calls the adapter makes.
    - C++ exceptions, libpng's [longjmp] and undefined behaviour are explicit
      outcomes of a small state monad whose state records the libpng handles
      that were acquired and released and what was written to the output. *)

From Stdlib Require Import ZArith List Bool Lia Arith.
From Stdlib Require String DecimalString.
Import ListNotations String.StringSyntax.

Local Open Scope string_scope.
Local Open Scope list_scope.
Local Open Scope Z_scope.

(** ** The C and C++ library functions the adapter calls *)

Module CLib.

(** [strncmp(a, b, n)]: compares at most [n] characters and stops at the first
    difference or at a NUL.  The arrays are lists; reading beyond the end of
    an array has no defined result ([None]). *)
Fixpoint strncmp (a b : list Z) (n : nat) {struct n} : option Z :=
  match n with
  | O => Some 0
  | S n' =>
      match a, b with
      | x :: a', y :: b' =>
          if x =? y
          then (if x =? 0 then Some 0 else strncmp a' b' n')
          else Some (x - y)
      | _, _ => None
      end
  end.

(** [std::istream::read(buf, n)]: extracts up to [n] characters into the
    front of [buf]; on a short stream the characters that were available are
    stored and the rest of [buf] is left as it was.  Returns the buffer and
    the remaining stream.  With the default exception mask nothing is
    thrown. *)
Definition istream_read (s : list Z) (buf : list Z) (n : nat)
  : list Z * list Z :=
  let got := firstn n s in
  (got ++ skipn (length got) buf, skipn n s).

(** A literal: the characters followed by the terminating NUL. *)
Definition string_literal (chars : list Z) : list Z := chars ++ [0].

End CLib.

(** ** Target parameters *)

(** [sizeof(const char * )] depends on the data model of the target. *)
Inductive data_model := ILP32 | LP64.

Definition sizeof_ptr (dm : data_model) : nat :=
  match dm with ILP32 => 4%nat | LP64 => 8%nat end.

Inductive endianness := LittleEndian | BigEndian.

(** ** PngImage::detect *)

(** The eight bytes 89 50 4E 47 0D 0A 1A 0A of ["\x89PNG\r\n\x1a\n"]. *)
Definition png_signature : list Z :=
  [0x89; 0x50; 0x4E; 0x47; 0x0D; 0x0A; 0x1A; 0x0A].

(** [static auto magic = "\x89PNG\r\n\x1a\n";] *)
Definition magic : list Z := CLib.string_literal png_signature.

(** [magic] is declared [auto], hence a [const char *]: [sizeof magic] is the
    size of a pointer, not the length of the literal.

<<
      char buf[sizeof(magic) + 1] = {};
      s.read(buf, sizeof magic);
      return std::strncmp(magic, buf, sizeof magic) == 0;
>>
    The result is [None] when [strncmp] would read outside an array. *)
Definition detect (dm : data_model) (s : list Z) : option bool :=
  let sizeof_magic := sizeof_ptr dm in
  let buf := repeat 0 (sizeof_magic + 1) in
  let '(buf, _) := CLib.istream_read s buf sizeof_magic in
  match CLib.strncmp magic buf sizeof_magic with
  | Some r => Some (r =? 0)
  | None => None
  end.

(** ** 32-bit integers *)

(** The value of an [unsigned int]: the low 32 bits. *)
Definition uint32 (x : Z) : Z := Z.land x 0xFFFFFFFF.

(** The value of an [int] holding the bit pattern [x] (two's complement). *)
Definition int32 (x : Z) : Z :=
  let u := uint32 x in
  if u <? 0x80000000 then u else u - 0x100000000.

(** The big-endian reading of four bytes as a signed 32-bit integer: what a
    [grAb] payload means. *)
Definition be_int32 (b0 b1 b2 b3 : Z) : Z :=
  int32 (b0 * 0x1000000 + b1 * 0x10000 + b2 * 0x100 + b3).

Module Cpu.

(** [reinterpret_cast<int*>(p)[k]]: the [int] the host reads from the four
    bytes at [p + 4k]. *)
Definition host_int (h : endianness) (b0 b1 b2 b3 : Z) : Z :=
  match h with
  | LittleEndian =>
      int32 (Z.lor (Z.lor (Z.lor b0 (Z.shiftl b1 8)) (Z.shiftl b2 16))
                   (Z.shiftl b3 24))
  | BigEndian =>
      int32 (Z.lor (Z.lor (Z.lor b3 (Z.shiftl b2 8)) (Z.shiftl b1 16))
                   (Z.shiftl b0 24))
  end.

Definition load_int (h : endianness) (mem : list Z) (k : nat) : option Z :=
  match skipn (4 * k) mem with
  | b0 :: b1 :: b2 :: b3 :: _ => Some (host_int h b0 b1 b2 b3)
  | _ => None
  end.

(** Reversal of the four bytes of an [int]. *)
Definition bswap32 (x : Z) : Z :=
  let u := uint32 x in
  int32 (Z.lor (Z.lor (Z.lor (Z.shiftl (Z.land u 0xFF) 24)
                             (Z.shiftl (Z.land (Z.shiftr u 8) 0xFF) 16))
                      (Z.shiftl (Z.land (Z.shiftr u 16) 0xFF) 8))
               (Z.land (Z.shiftr u 24) 0xFF)).

(** Modelled from the spec: [kex::cpu::swap_be] is declared outside
    PngImage.cc.  The specification has the chunk callback "byte-swap them to
    host order": a big-endian value is converted to the host's order, which
    reverses the bytes on a little-endian host and changes nothing on a
    big-endian one. *)
Definition swap_be (h : endianness) (x : Z) : Z :=
  match h with
  | LittleEndian => bswap32 x
  | BigEndian => x
  end.

End Cpu.

(** ** The engine's image types (kex/gfx/Image) *)

(** Modelled from the spec: the [pixel_format] enumeration is declared in
    kex/gfx/Image, which is not part of src/.  The specification names
    rgb, bgr, rgba, bgra and index8 "and so on"; [other] stands for the tags
    it does not name. *)
Module pixel_format.
Inductive t := rgb | bgr | rgba | bgra | index8 | other (tag : nat).

(** Modelled from the spec: the byte width the pixel-format traits give. *)
Definition bytes (f : t) : Z :=
  match f with
  | rgb | bgr => 3
  | rgba | bgra => 4
  | index8 => 1
  | other _ => 0
  end.
End pixel_format.

(** The colour structs of kex/gfx, with the members PngImage.cc assigns
    ([red], [green], [blue], and [alpha] for [Rgba]). *)
Record Rgb := mkRgb { rgb_red : Z; rgb_green : Z; rgb_blue : Z }.

Record Rgba := mkRgba
  { rgba_red : Z; rgba_green : Z; rgba_blue : Z; rgba_alpha : Z }.

(** Modelled from the spec: a [Palette] owns an array of colour entries tagged
    with the entry format (rgb or rgba) and an entry count. *)
Inductive Palette :=
| Palette_none
| Palette_rgb (entries : list Rgb)
| Palette_rgba (entries : list Rgba) (count : Z).

(** Modelled from the spec: an [Image] owns a pixel buffer of
    width x height x bytes-per-pixel bytes, a format tag, a palette and a pair
    of sprite offsets. *)
Record Image := mkImage
  { img_width : Z;
    img_height : Z;
    img_format : pixel_format.t;
    img_data : list Z;
    img_palette : Palette;
    img_offsets : Z * Z }.

(** Bytes per scanline. *)
Definition pitch (im : Image) : Z :=
  img_width im * pixel_format.bytes (img_format im).

(** [scanline_ptr(i)], as an offset into the image's own buffer. *)
Definition scanline_ptr (im : Image) (i : nat) : nat :=
  Z.to_nat (Z.of_nat i * pitch im).

(** The invariant of the specification: the buffer is exactly [height] rows of
    [width] pixels in the declared format. *)
Definition valid_image (im : Image) : Prop :=
  0 <= img_width im /\ 0 <= img_height im /\
  Z.of_nat (length (img_data im)) = img_height im * pitch im.

Definition non_empty (im : Image) : Prop :=
  1 <= img_width im /\ 1 <= img_height im.

(** ** Memory *)

Module Mem.

(** [len] bytes at offset [off] of a buffer; [None] outside the buffer. *)
Definition read (mem : list Z) (off len : nat) : option (list Z) :=
  if (off + len <=? length mem)%nat
  then Some (firstn len (skipn off mem))
  else None.

Definition write (mem : list Z) (off : nat) (bytes : list Z)
  : option (list Z) :=
  if (off + length bytes <=? length mem)%nat
  then Some (firstn off mem ++ bytes ++ skipn (off + length bytes) mem)
  else None.

End Mem.

(** ** libpng: data *)

Module LibPng.

Definition PNG_COLOR_MASK_PALETTE : Z := 1.
Definition PNG_COLOR_MASK_COLOR : Z := 2.
Definition PNG_COLOR_MASK_ALPHA : Z := 4.

Definition PNG_COLOR_TYPE_GRAY : Z := 0.
Definition PNG_COLOR_TYPE_PALETTE : Z :=
  Z.lor PNG_COLOR_MASK_COLOR PNG_COLOR_MASK_PALETTE.
Definition PNG_COLOR_TYPE_RGB : Z := PNG_COLOR_MASK_COLOR.
Definition PNG_COLOR_TYPE_RGB_ALPHA : Z :=
  Z.lor PNG_COLOR_MASK_COLOR PNG_COLOR_MASK_ALPHA.
Definition PNG_COLOR_TYPE_GRAY_ALPHA : Z := PNG_COLOR_MASK_ALPHA.

Definition PNG_INTERLACE_NONE : Z := 0.
Definition PNG_INTERLACE_ADAM7 : Z := 1.
Definition PNG_INTERLACE_LAST : Z := 2.

(** [png_color]. *)
Record png_color := mk_color { red : Z; green : Z; blue : Z }.

(** [png_unknown_chunk]: [name] is the five-byte array holding the four
    characters of the chunk type and a NUL; [size] is the payload length. *)
Record png_unknown_chunk := mk_chunk { name : list Z; data : list Z }.

Definition size (c : png_unknown_chunk) : Z := Z.of_nat (length (data c)).

(** The fields of IHDR that [png_get_IHDR] reports. *)
Record png_IHDR := mk_IHDR
  { width : Z;
    height : Z;
    bit_depth : Z;
    color_type : Z;
    interlace_method : Z }.

(** The transparency information libpng keeps from a tRNS chunk: the alpha
    table of a paletted image, or the transparent gray level. *)
Record png_tRNS := mk_tRNS { trans_alpha : list Z; trans_gray : Z }.

(** A PNG file as libpng reconstructs it: the header, the palette and
    transparency it retains ([PLTE] empty and [tRNS] [None] when the chunk is
    absent), the chunks libpng does not know that come before and after the
    image data, and the samples of the image, row after row, at the bit depth
    of the header. *)
Record png_datastream := mk_datastream
  { IHDR : png_IHDR;
    PLTE : list png_color;
    tRNS : option png_tRNS;
    unknown_before_IDAT : list png_unknown_chunk;
    samples : list Z;
    unknown_after_IDAT : list png_unknown_chunk }.

(** What has reached a [std::ostream] through the write callback. *)
Record png_ostream := mk_ostream
  { os_IHDR : option png_IHDR;
    os_unknown : list png_unknown_chunk;
    os_samples : list Z;
    os_IEND : bool }.

Definition empty_ostream : png_ostream :=
  {| os_IHDR := None; os_unknown := []; os_samples := []; os_IEND := false |}.

(** The datastream a reader finds in a file that was written completely. *)
Definition written_file (o : png_ostream) : option png_datastream :=
  match os_IHDR o, os_IEND o with
  | Some h, true =>
      Some {| IHDR := h; PLTE := []; tRNS := None;
              unknown_before_IDAT := os_unknown o;
              samples := os_samples o;
              unknown_after_IDAT := [] |}
  | _, _ => None
  end.

(** The libpng entry points through which the library can report an error
    ([png_error], a [longjmp] to the caller's [setjmp]). *)
Inductive png_call :=
| in_read_info | in_read_update_info | in_read_image | in_read_end
| in_set_IHDR | in_write_info | in_write_image | in_write_end.

Definition channels (ct : Z) : Z :=
  if ct =? PNG_COLOR_TYPE_RGB then 3
  else if ct =? PNG_COLOR_TYPE_RGB_ALPHA then 4
  else if ct =? PNG_COLOR_TYPE_GRAY_ALPHA then 2
  else 1.

Definition num_trans (s : png_datastream) : Z :=
  match tRNS s with
  | None => 0
  | Some t =>
      if color_type (IHDR s) =? PNG_COLOR_TYPE_PALETTE
      then Z.of_nat (length (trans_alpha t))
      else 1
  end.

(** [png_check_IHDR]: the IHDR fields libpng accepts: no empty dimension, a
    bit depth of 1, 2, 4, 8 or 16, one of the five colour types, a bit depth
    the colour type allows, a known interlace method.  (The upper limits
    libpng places on the dimensions are left to the fault oracle of the
    environment.) *)
Definition png_check_IHDR (h : png_IHDR) : bool :=
  let d := bit_depth h in
  let ct := color_type h in
  (0 <? width h) && (0 <? height h) &&
  ((d =? 1) || (d =? 2) || (d =? 4) || (d =? 8) || (d =? 16)) &&
  ((ct =? 0) || (ct =? 2) || (ct =? 3) || (ct =? 4) || (ct =? 6)) &&
  negb ((ct =? PNG_COLOR_TYPE_PALETTE) && (8 <? d)) &&
  negb (((ct =? PNG_COLOR_TYPE_RGB) || (ct =? PNG_COLOR_TYPE_GRAY_ALPHA) ||
         (ct =? PNG_COLOR_TYPE_RGB_ALPHA)) && (d <? 8)) &&
  (0 <=? interlace_method h) && (interlace_method h <? PNG_INTERLACE_LAST).

(** The read transformations the adapter can request. *)
Record png_transforms := mk_transforms
  { PNG_16_TO_8 : bool;
    PNG_PACK : bool;
    PNG_INTERLACE : bool;
    PNG_EXPAND : bool;
    PNG_EXPAND_tRNS : bool;
    PNG_GRAY_TO_RGB : bool }.

Definition no_transforms : png_transforms :=
  mk_transforms false false false false false false.

(** A [png_struct] with its [png_info] while reading: the file bound by
    [png_set_read_fn], the header fields as [png_get_IHDR] currently reports
    them, and the transformations requested so far. *)
Record png_reader := mk_reader
  { rd_stream : png_datastream;
    rd_info : png_IHDR;
    rd_transformations : png_transforms }.

End LibPng.

Import LibPng.

(** ** The environment of a call *)

(** What a call depends on besides its arguments: the host's byte order,
    whether libpng's allocations succeed, at which library call (if any)
    libpng reports an error for a reason this model does not describe (damaged
    or truncated input, exhausted memory, a dimension over libpng's limits),
    the indeterminate contents of the stack slot of [int offsets[2]], and
    the entries of the palette the [Image] constructor gives an index8 image
    (kex/gfx/Image is not part of src/). *)
Record env := mk_env
  { host : endianness;
    create_struct_ok : bool;
    create_info_ok : bool;
    png_fault : png_call -> bool;
    stack_offsets : Z * Z;
    default_palette : list Rgb }.

(** An environment in which libpng works. *)
Definition healthy (e : env) : Prop :=
  create_struct_ok e = true /\ create_info_ok e = true /\
  forall c, png_fault e c = false.

(** ** Effects *)

Inductive exn :=
| image_load_error (what : String.string)
| image_save_error (what : String.string).

Inductive handle := read_struct | write_struct | info_struct.

Inductive event := Acquire (h : handle) | Release (h : handle).

(** The state of a call: the libpng handles acquired and released so far,
    oldest first, and what was written to the output stream. *)
Record world := mk_world { events : list event; out : png_ostream }.

Definition initial_world : world :=
  {| events := []; out := empty_ostream |}.

(** How a computation ends: with a value, with a C++ exception, inside
    libpng's [png_error] (which jumps to the last [setjmp]), or in undefined
    behaviour (an access outside an array). *)
Inductive outcome (A : Type) :=
| Ret (a : A)
| Throw (x : exn)
| Longjmp
| Undefined.

Arguments Ret {A} a.
Arguments Throw {A} x.
Arguments Longjmp {A}.
Arguments Undefined {A}.

Definition M (A : Type) : Type := world -> outcome A * world.

Definition ret {A} (a : A) : M A := fun w => (Ret a, w).

Definition bind {A B} (m : M A) (k : A -> M B) : M B :=
  fun w =>
    match m w with
    | (Ret a, w') => k a w'
    | (Throw x, w') => (Throw x, w')
    | (Longjmp, w') => (Longjmp, w')
    | (Undefined, w') => (Undefined, w')
    end.

Definition throw {A} (x : exn) : M A := fun w => (Throw x, w).

Definition png_error {A} : M A := fun w => (Longjmp, w).

Definition undefined {A} : M A := fun w => (Undefined, w).

(** [if (setjmp(png_jmpbuf(p))) { handler }] followed by [body]: the handler
    runs when libpng jumps back. *)
Definition setjmp {A} (handler body : M A) : M A :=
  fun w =>
    match body w with
    | (Longjmp, w') => handler w'
    | r => r
    end.

Definition log (ev : event) : M unit :=
  fun w => (Ret tt, {| events := events w ++ [ev]; out := out w |}).

Definition modify_out (f : png_ostream -> png_ostream) : M unit :=
  fun w => (Ret tt, {| events := events w; out := f (out w) |}).

(** An access that is defined only inside its array. *)
Definition defined {A} (o : option A) : M A :=
  match o with Some a => ret a | None => undefined end.

Declare Scope monad_scope.
Delimit Scope monad_scope with monad.
Notation "x <- m ;; k" := (bind m (fun x => k))
  (at level 61, m at next level, right associativity) : monad_scope.
Notation "' p <- m ;; k" := (bind m (fun x => match x with p => k end))
  (at level 61, p pattern, m at next level, right associativity)
  : monad_scope.
Notation "m ;; k" := (bind m (fun _ => k))
  (at level 61, right associativity) : monad_scope.
Local Open Scope monad_scope.

(** ** libpng: the calls the adapter makes

    libpng is not part of the repository.  Each function below states what
    the libpng manual and pngrtran.c document for the call of the same name,
    on the datastream that stands for the file. *)

(** [png_create_read_struct], [png_create_write_struct] and
    [png_create_info_struct] return whether the pointer is non-null. *)
Definition png_create_read_struct (e : env) : M bool :=
  if create_struct_ok e then (log (Acquire read_struct) ;; ret true)
  else ret false.

Definition png_create_write_struct (e : env) : M bool :=
  if create_struct_ok e then (log (Acquire write_struct) ;; ret true)
  else ret false.

Definition png_create_info_struct (e : env) : M bool :=
  if create_info_ok e then (log (Acquire info_struct) ;; ret true)
  else ret false.

(** [png_destroy_read_struct(&png_ptr, info, nullptr)]; [with_info] tells
    whether [info] is [&infop] rather than [nullptr]. *)
Definition png_destroy_read_struct (with_info : bool) : M unit :=
  (if with_info then log (Release info_struct) else ret tt) ;;
  log (Release read_struct).

Definition png_destroy_write_struct (with_info : bool) : M unit :=
  (if with_info then log (Release info_struct) else ret tt) ;;
  log (Release write_struct).

(** The library reports an error inside call [c] when the environment says
    so. *)
Definition may_fail (e : env) (c : png_call) : M unit :=
  if png_fault e c then png_error else ret tt.

(** A user chunk callback registered with [png_set_read_user_chunk_fn]: it
    receives the chunk and the object behind the user chunk pointer, and
    returns its [int] result and the object as it leaves it ([None] when it
    steps outside an array). *)
Definition user_chunk_fn (U : Type) : Type :=
  png_unknown_chunk -> U -> option (Z * U).

(** A chunk is critical when bit 5 of the first byte of its type is clear. *)
Definition critical (c : png_unknown_chunk) : bool :=
  negb (Z.testbit (nth 0 (name c) 0) 5).

(** libpng hands each unknown chunk to the callback: a negative result is an
    error, a positive one means handled, and zero leaves the chunk to libpng,
    which discards an ancillary chunk and rejects a critical one. *)
Fixpoint png_handle_unknown {U} (fn : user_chunk_fn U)
    (chunks : list png_unknown_chunk) (u : U) : M U :=
  match chunks with
  | [] => ret u
  | c :: rest =>
      '(r, u') <- defined (fn c u) ;;
      if r <? 0 then png_error
      else if (r =? 0) && critical c then png_error
      else png_handle_unknown fn rest u'
  end.

(** [png_read_info]: reads the file up to the image data.  The header is
    checked, a paletted image needs its PLTE, and the unknown chunks met on
    the way go to the user callback. *)
Definition png_read_info {U} (e : env) (fn : user_chunk_fn U) (u : U)
    (s : png_datastream) : M (png_reader * U) :=
  may_fail e in_read_info ;;
  if negb (png_check_IHDR (IHDR s)) then png_error
  else if (color_type (IHDR s) =? PNG_COLOR_TYPE_PALETTE)
          && (length (PLTE s) =? 0)%nat then png_error
  else
    u' <- png_handle_unknown fn (unknown_before_IDAT s) u ;;
    ret ({| rd_stream := s; rd_info := IHDR s;
            rd_transformations := no_transforms |}, u').

Definition png_get_IHDR (rd : png_reader) : png_IHDR := rd_info rd.

Definition set_transforms (f : png_transforms -> png_transforms)
    (rd : png_reader) : png_reader :=
  {| rd_stream := rd_stream rd; rd_info := rd_info rd;
     rd_transformations := f (rd_transformations rd) |}.

(** [png_set_strip_16]: 16-bit samples are cut down to their high byte. *)
Definition png_set_strip_16 : png_reader -> png_reader :=
  set_transforms (fun t =>
    mk_transforms true (PNG_PACK t) (PNG_INTERLACE t) (PNG_EXPAND t)
                  (PNG_EXPAND_tRNS t) (PNG_GRAY_TO_RGB t)).

(** [png_set_packing]: samples of 1, 2 or 4 bits are delivered one per
    byte; requested only when the file's bit depth is below 8. *)
Definition png_set_packing (rd : png_reader) : png_reader :=
  if bit_depth (IHDR (rd_stream rd)) <? 8
  then set_transforms (fun t =>
         mk_transforms (PNG_16_TO_8 t) true (PNG_INTERLACE t) (PNG_EXPAND t)
                       (PNG_EXPAND_tRNS t) (PNG_GRAY_TO_RGB t)) rd
  else rd.

(** [png_set_interlace_handling]: libpng de-interlaces an interlaced file. *)
Definition png_set_interlace_handling (rd : png_reader) : png_reader :=
  if interlace_method (IHDR (rd_stream rd)) =? PNG_INTERLACE_NONE then rd
  else set_transforms (fun t =>
         mk_transforms (PNG_16_TO_8 t) (PNG_PACK t) true (PNG_EXPAND t)
                       (PNG_EXPAND_tRNS t) (PNG_GRAY_TO_RGB t)) rd.

(** [png_set_expand]: palette to RGB, gray below 8 bits to 8 bits, tRNS to an
    alpha channel.  It does not turn gray into RGB. *)
Definition png_set_expand : png_reader -> png_reader :=
  set_transforms (fun t =>
    mk_transforms (PNG_16_TO_8 t) (PNG_PACK t) (PNG_INTERLACE t) true true
                  (PNG_GRAY_TO_RGB t)).

(** [png_set_gray_to_rgb]: gray becomes RGB (and gray below 8 bits is first
    expanded to 8 bits). *)
Definition png_set_gray_to_rgb : png_reader -> png_reader :=
  set_transforms (fun t =>
    mk_transforms (PNG_16_TO_8 t) (PNG_PACK t) (PNG_INTERLACE t) true
                  (PNG_EXPAND_tRNS t) true).

(** [png_read_transform_info]: the header fields after the requested
    transformations, in libpng's order. *)
Definition png_read_transform_info (t : png_transforms) (ntrans : Z)
    (h : png_IHDR) : png_IHDR :=
  let '(ct, d) :=
    if PNG_EXPAND t then
      if color_type h =? PNG_COLOR_TYPE_PALETTE
      then ((if 0 <? ntrans then PNG_COLOR_TYPE_RGB_ALPHA
             else PNG_COLOR_TYPE_RGB), 8)
      else ((if negb (ntrans =? 0) && PNG_EXPAND_tRNS t
             then Z.lor (color_type h) PNG_COLOR_MASK_ALPHA
             else color_type h),
            (if bit_depth h <? 8 then 8 else bit_depth h))
    else (color_type h, bit_depth h) in
  let d := if (d =? 16) && PNG_16_TO_8 t then 8 else d in
  let ct := if PNG_GRAY_TO_RGB t then Z.lor ct PNG_COLOR_MASK_COLOR else ct in
  let d := if PNG_PACK t && (d <? 8) then 8 else d in
  {| width := width h; height := height h; bit_depth := d;
     color_type := ct; interlace_method := interlace_method h |}.

(** [png_read_update_info]. *)
Definition png_read_update_info (e : env) (rd : png_reader) : M png_reader :=
  may_fail e in_read_update_info ;;
  ret {| rd_stream := rd_stream rd;
         rd_info := png_read_transform_info (rd_transformations rd)
                      (num_trans (rd_stream rd)) (rd_info rd);
         rd_transformations := rd_transformations rd |}.

(** [png_get_valid(png_ptr, infop, PNG_INFO_tRNS)]. *)
Definition png_get_valid_tRNS (rd : png_reader) : bool :=
  match tRNS (rd_stream rd) with Some _ => true | None => false end.

(** [png_get_tRNS(png_ptr, infop, &alpha, &transNum, nullptr)]. *)
Definition png_get_tRNS (rd : png_reader) : list Z * Z :=
  match tRNS (rd_stream rd) with
  | Some t => (trans_alpha t, num_trans (rd_stream rd))
  | None => ([], 0)
  end.

(** [png_get_PLTE(png_ptr, infop, &colors, &palNum)]: the array holds
    [palNum] entries. *)
Definition png_get_PLTE (rd : png_reader) : list png_color * Z :=
  (PLTE (rd_stream rd), Z.of_nat (length (PLTE (rd_stream rd)))).

(** *** Rows *)

(** A row on its way through the read transformations. *)
Record png_row := mk_row
  { row_color_type : Z; row_bit_depth : Z; row_samples : list Z }.

(** [png_do_expand_palette]: every index becomes the colour of its palette
    entry, with the alpha of the transparency table when there is one. *)
Definition png_do_expand_palette (pal : list png_color) (alpha : list Z)
    (ntrans : Z) (r : png_row) : png_row :=
  mk_row (if 0 <? ntrans then PNG_COLOR_TYPE_RGB_ALPHA
          else PNG_COLOR_TYPE_RGB) 8
    (flat_map (fun i =>
       let c := nth (Z.to_nat i) pal (mk_color 0 0 0) in
       [red c; green c; blue c] ++
       (if 0 <? ntrans then [nth (Z.to_nat i) alpha 0xFF] else []))
     (row_samples r)).

(** [png_do_expand] on a row that is not paletted: gray samples below 8 bits
    are scaled to 8 bits, and with [trans] a gray row gets an alpha channel
    that is transparent exactly at the transparent gray level. *)
Definition png_do_expand (trans : option png_tRNS) (r : png_row) : png_row :=
  if row_color_type r =? PNG_COLOR_TYPE_GRAY then
    let d := row_bit_depth r in
    let scale := if d <? 8 then 255 / (2 ^ d - 1) else 1 in
    let d' := if d <? 8 then 8 else d in
    let px := map (fun v => v * scale) (row_samples r) in
    match trans with
    | Some t =>
        mk_row PNG_COLOR_TYPE_GRAY_ALPHA d'
          (flat_map (fun v =>
             [v; if v =? trans_gray t * scale then 0 else 2 ^ d' - 1]) px)
    | None => mk_row PNG_COLOR_TYPE_GRAY d' px
    end
  else r.

Fixpoint gray_alpha_to_rgba (l : list Z) : list Z :=
  match l with
  | g :: a :: rest => g :: g :: g :: a :: gray_alpha_to_rgba rest
  | _ => []
  end.

(** [png_do_gray_to_rgb]: the gray sample is repeated in the three colour
    channels. *)
Definition png_do_gray_to_rgb (r : png_row) : png_row :=
  if row_color_type r =? PNG_COLOR_TYPE_GRAY then
    mk_row PNG_COLOR_TYPE_RGB (row_bit_depth r)
           (flat_map (fun g => [g; g; g]) (row_samples r))
  else if row_color_type r =? PNG_COLOR_TYPE_GRAY_ALPHA then
    mk_row PNG_COLOR_TYPE_RGB_ALPHA (row_bit_depth r)
           (gray_alpha_to_rgba (row_samples r))
  else r.

(** [png_do_chop]: a 16-bit sample keeps its high byte. *)
Definition png_do_chop (r : png_row) : png_row :=
  if row_bit_depth r =? 16
  then mk_row (row_color_type r) 8
              (map (fun v => Z.shiftr v 8) (row_samples r))
  else r.

(** [png_do_unpack]: samples below 8 bits get a byte each, unchanged. *)
Definition png_do_unpack (r : png_row) : png_row :=
  if row_bit_depth r <? 8
  then mk_row (row_color_type r) 8 (row_samples r)
  else r.

(** [png_do_read_transformations]. *)
Definition png_do_read_transformations (rd : png_reader) (r : png_row)
  : png_row :=
  let t := rd_transformations rd in
  let s := rd_stream rd in
  let r :=
    if PNG_EXPAND t then
      if row_color_type r =? PNG_COLOR_TYPE_PALETTE
      then png_do_expand_palette (PLTE s)
             (match tRNS s with Some x => trans_alpha x | None => [] end)
             (num_trans s) r
      else if negb (num_trans s =? 0) && PNG_EXPAND_tRNS t
           then png_do_expand (tRNS s) r
           else png_do_expand None r
    else r in
  let r := if PNG_GRAY_TO_RGB t then png_do_gray_to_rgb r else r in
  let r := if PNG_16_TO_8 t then png_do_chop r else r in
  if PNG_PACK t then png_do_unpack r else r.

(** Row [i] of the file: [width * channels] samples; the file is too short
    when there is [None]. *)
Definition source_row (s : png_datastream) (i : nat) : option png_row :=
  let h := IHDR s in
  let n := Z.to_nat (width h * channels (color_type h)) in
  option_map (mk_row (color_type h) (bit_depth h))
             (Mem.read (samples s) (i * n) n).

(** Rows [i], [i+1], ... [i+n-1] are decoded and stored through the row
    pointers [image], which are offsets into the buffer [mem]. *)
Fixpoint read_rows (rd : png_reader) (image : list nat) (i n : nat)
    (mem : list Z) : M (list Z) :=
  match n with
  | O => ret mem
  | S n' =>
      match source_row (rd_stream rd) i with
      | None => png_error
      | Some r =>
          p <- defined (nth_error image i) ;;
          mem' <- defined (Mem.write mem p
                    (row_samples (png_do_read_transformations rd r))) ;;
          read_rows rd image (S i) n' mem'
      end
  end.

(** [png_read_image(png_ptr, image)]. *)
Definition png_read_image (e : env) (rd : png_reader) (image : list nat)
    (mem : list Z) : M (list Z) :=
  may_fail e in_read_image ;;
  read_rows rd image 0 (Z.to_nat (height (IHDR (rd_stream rd)))) mem.

(** [png_read_end(png_ptr, infop)]: reads the chunks that follow the image
    data; the unknown ones still go to the user callback. *)
Definition png_read_end {U} (e : env) (rd : png_reader)
    (fn : user_chunk_fn U) (u : U) : M U :=
  may_fail e in_read_end ;;
  png_handle_unknown fn (unknown_after_IDAT (rd_stream rd)) u.

(** *** Writing *)

(** [png_set_IHDR(writep, infop, width, height, depth, color_type,
    interlace, PNG_COMPRESSION_TYPE_BASE, PNG_FILTER_TYPE_DEFAULT)]. *)
Definition png_set_IHDR (e : env) (w h d ct il : Z) : M png_IHDR :=
  may_fail e in_set_IHDR ;;
  let hdr := {| width := w; height := h; bit_depth := d; color_type := ct;
                interlace_method := il |} in
  if png_check_IHDR hdr then ret hdr else png_error.

(** [png_write_info]: the signature and the header chunk go out.  (The adapter
    sets no other information, so no other chunk is written.) *)
Definition png_write_info (e : env) (hdr : png_IHDR) : M unit :=
  may_fail e in_write_info ;;
  modify_out (fun o =>
    {| os_IHDR := Some hdr; os_unknown := os_unknown o;
       os_samples := os_samples o; os_IEND := os_IEND o |}).

Definition rowbytes (hdr : png_IHDR) : nat :=
  Z.to_nat (width hdr * channels (color_type hdr) * bit_depth hdr / 8).

(** Rows [i], ..., [i+n-1] are read through the row pointers [image] (offsets
    into [mem]) and written out. *)
Fixpoint write_rows (hdr : png_IHDR) (image : list nat) (mem : list Z)
    (i n : nat) : M unit :=
  match n with
  | O => ret tt
  | S n' =>
      p <- defined (nth_error image i) ;;
      row <- defined (Mem.read mem p (rowbytes hdr)) ;;
      modify_out (fun o =>
        {| os_IHDR := os_IHDR o; os_unknown := os_unknown o;
           os_samples := os_samples o ++ row; os_IEND := os_IEND o |}) ;;
      write_rows hdr image mem (S i) n'
  end.

(** [png_write_image(writep, image)]. *)
Definition png_write_image (e : env) (hdr : png_IHDR) (image : list nat)
    (mem : list Z) : M unit :=
  may_fail e in_write_image ;;
  write_rows hdr image mem 0 (Z.to_nat (height hdr)).

(** [png_write_end(writep, infop)]. *)
Definition png_write_end (e : env) : M unit :=
  may_fail e in_write_end ;;
  modify_out (fun o =>
    {| os_IHDR := os_IHDR o; os_unknown := os_unknown o;
       os_samples := os_samples o; os_IEND := true |}).

(** ** PngImage::load *)

Definition string_of_Z (z : Z) : String.string :=
  DecimalString.NilZero.string_of_int (Z.to_int z).

(** The literal ["grAb"]. *)
Definition grAb : list Z := CLib.string_literal [0x67; 0x72; 0x41; 0x62].

(** The user chunk callback; the object behind the user chunk pointer is the
    caller's [int offsets[2]].
<<
      if (std::strncmp((char* )chunk->name, "grAb", 4) == 0 && chunk->size >= 8) {
          auto data = reinterpret_cast<int*>(chunk->data);
          offsets[0] = kex::cpu::swap_be(data[0]);
          offsets[1] = kex::cpu::swap_be(data[1]);
          return 1;
      }
      return 0;
>> *)
Definition chunkFn (h : endianness) : user_chunk_fn (Z * Z) :=
  fun chunk offsets =>
    match CLib.strncmp (name chunk) grAb 4 with
    | None => None
    | Some r =>
        if (r =? 0) && (8 <=? size chunk) then
          match Cpu.load_int h (data chunk) 0, Cpu.load_int h (data chunk) 1
          with
          | Some d0, Some d1 =>
              Some (1, (Cpu.swap_be h d0, Cpu.swap_be h d1))
          | _, _ => None
          end
        else Some (0, offsets)
    end.

(** The switch on the colour type and bit depth re-queried after
    [png_read_update_info]. *)
Definition format_of (colorType bitDepth : Z) : M pixel_format.t :=
  if colorType =? PNG_COLOR_TYPE_RGB then ret pixel_format.rgb
  else if colorType =? PNG_COLOR_TYPE_RGB_ALPHA then ret pixel_format.rgba
  else if colorType =? PNG_COLOR_TYPE_PALETTE then
    if bitDepth =? 8 then ret pixel_format.index8
    else throw (image_load_error
                  (String.append "Invalid PNG bit depth: "
                                 (string_of_Z bitDepth)))
  else throw (image_load_error
                (String.append "Unknown PNG image color type: "
                               (string_of_Z colorType))).

(** Modelled from the spec: the constructor [Image(width, height, format)]
    allocates the buffer for the final dimensions and format, gives an index8
    image its default palette, and leaves the offsets at (0, 0). *)
Definition Image_new (e : env) (w h : Z) (f : pixel_format.t) : Image :=
  {| img_width := w; img_height := h; img_format := f;
     img_data := repeat 0 (Z.to_nat (w * h * pixel_format.bytes f));
     img_palette := match f with
                    | pixel_format.index8 => Palette_rgb (default_palette e)
                    | _ => Palette_none
                    end;
     img_offsets := (0, 0) |}.

Definition set_palette (im : Image) (p : Palette) : Image :=
  {| img_width := img_width im; img_height := img_height im;
     img_format := img_format im; img_data := img_data im;
     img_palette := p; img_offsets := img_offsets im |}.

Definition set_offsets (im : Image) (o : Z * Z) : Image :=
  {| img_width := img_width im; img_height := img_height im;
     img_format := img_format im; img_data := img_data im;
     img_palette := img_palette im; img_offsets := o |}.

Definition set_data (im : Image) (d : list Z) : Image :=
  {| img_width := img_width im; img_height := img_height im;
     img_format := img_format im; img_data := d;
     img_palette := img_palette im; img_offsets := img_offsets im |}.

Fixpoint mapM {A B} (f : A -> option B) (l : list A) : option (list B) :=
  match l with
  | [] => Some []
  | a :: l' =>
      match f a, mapM f l' with
      | Some b, Some bs => Some (b :: bs)
      | _, _ => None
      end
  end.

(** The body of the loop of the tRNS branch, at index [i]:
<<
      c.red = colors[i].red; c.green = colors[i].green;
      c.blue = colors[i].blue;
      c.alpha = i < transNum ? alpha[i] : 0xff;
>> *)
Definition paldata_entry (colors : list png_color) (alpha : list Z)
    (transNum : Z) (i : nat) : option Rgba :=
  match nth_error colors i with
  | None => None
  | Some c =>
      if Z.of_nat i <? transNum then
        match nth_error alpha i with
        | Some a => Some (mkRgba (red c) (green c) (blue c) a)
        | None => None
        end
      else Some (mkRgba (red c) (green c) (blue c) 0xFF)
  end.

(** [for (int i = 0; i < palNum; i++)] over a fresh [Rgba[palNum]]. *)
Definition build_paldata (colors : list png_color) (palNum : Z)
    (alpha : list Z) (transNum : Z) : option (list Rgba) :=
  mapM (paldata_entry colors alpha transNum) (seq 0 (Z.to_nat palNum)).

(** The loop of the branch without tRNS: one [*pal++] per entry of the
    image's palette, [k] being how far [pal] has advanced.  Returns the
    entries and the final position of [pal]; [None] when [pal] is read at or
    beyond [numPal].
<<
      for (auto &&c : retval.palette().map<Rgb>()) {
          auto p = *pal++;
          c.red = p.red; c.green = p.green; c.blue = p.blue;
      }
>> *)
Fixpoint copy_PLTE (entries : list Rgb) (pal : list png_color) (k : nat)
  : option (list Rgb * nat) :=
  match entries with
  | [] => Some ([], k)
  | _ :: rest =>
      match nth_error pal k with
      | None => None
      | Some p =>
          match copy_PLTE rest pal (S k) with
          | Some (cs, k') => Some (mkRgb (red p) (green p) (blue p) :: cs, k')
          | None => None
          end
      end
  end.

Definition palette_entries (p : Palette) : list Rgb :=
  match p with
  | Palette_rgb l => l
  | _ => []
  end.

(** The paletted part of [load]. *)
Definition load_palette (rd : png_reader) (retval : Image) : M Image :=
  if png_get_valid_tRNS rd then
    let '(alpha, transNum) := png_get_tRNS rd in
    let '(colors, palNum) := png_get_PLTE rd in
    paldata <- defined (build_paldata colors palNum alpha transNum) ;;
    ret (set_palette retval (Palette_rgba paldata palNum))
  else
    let '(pal, numPal) := png_get_PLTE rd in
    '(cs, _) <- defined (copy_PLTE (palette_entries (img_palette retval))
                                   pal 0) ;;
    ret (set_palette retval (Palette_rgb cs)).

(** The transformations [load] requests between [png_read_info] and
    [png_read_update_info]; [colorType] is the colour type of the file. *)
Definition request_transforms (colorType : Z) (rd : png_reader)
  : png_reader :=
  let rd := png_set_strip_16 rd in
  let rd := png_set_packing rd in
  let rd := png_set_interlace_handling rd in
  let rd := if colorType =? PNG_COLOR_TYPE_GRAY
            then png_set_expand rd else rd in
  if colorType =? PNG_COLOR_TYPE_GRAY_ALPHA
  then png_set_gray_to_rgb rd else rd.

(** [load] from the registration of the callbacks on: the part that runs
    under the [setjmp].  [png_set_read_fn] binds the input stream and
    [png_set_read_user_chunk_fn] binds [chunkFn] and the address of
    [offsets]; here the libpng calls that read the file receive the file,
    the callback and the current contents of [offsets] as arguments. *)
Definition load_body (e : env) (s : png_datastream) : M Image :=
  (* int offsets[2]; has no initializer *)
  let offsets := stack_offsets e in
  '(rd, offsets) <- png_read_info e (chunkFn (host e)) offsets s ;;
  let colorType := color_type (png_get_IHDR rd) in
  let rd := request_transforms colorType rd in
  rd <- png_read_update_info e rd ;;
  let hdr := png_get_IHDR rd in
  format <- format_of (color_type hdr) (bit_depth hdr) ;;
  let retval := Image_new e (width hdr) (height hdr) format in
  let scanlines :=
    map (scanline_ptr retval) (seq 0 (Z.to_nat (height hdr))) in
  retval <- (if color_type hdr =? PNG_COLOR_TYPE_PALETTE
             then load_palette rd retval else ret retval) ;;
  (* retval.offsets(offsets) copies the two values now *)
  let retval := set_offsets retval offsets in
  pixels <- png_read_image e rd scanlines (img_data retval) ;;
  let retval := set_data retval pixels in
  png_read_end e rd (chunkFn (host e)) offsets ;;
  ret retval.

Definition load (e : env) (s : png_datastream) : M Image :=
  png_ptr <- png_create_read_struct e ;;
  if negb png_ptr
  then throw (image_load_error "Failed to create PNG read struct")
  else
  infop <- png_create_info_struct e ;;
  if negb infop
  then png_destroy_read_struct false ;;
       throw (image_load_error "Failed to create PNG info struct")
  else
  setjmp
    (png_destroy_read_struct true ;;
     throw (image_load_error "An error occurred in libpng"))
    (load_body e s).

(** ** PngImage::save *)

(** The switch on [image.format()]. *)
Definition png_color_type_of (f : pixel_format.t) : M Z :=
  match f with
  | pixel_format.rgb | pixel_format.bgr => ret PNG_COLOR_TYPE_RGB
  | pixel_format.rgba | pixel_format.bgra => ret PNG_COLOR_TYPE_RGB_ALPHA
  | _ => throw (image_save_error
                  "Saving image with incompatible pixel format")
  end.

(** [save] from the registration of the write callbacks on: the part that
    runs under the [setjmp].  [png_set_write_fn] binds the output stream,
    which is the [out] component of the state.  ([Image copy] is never used:
    [im] is the address of [image].) *)
Definition save_body (e : env) (image : Image) : M unit :=
  let im := image in
  format <- png_color_type_of (img_format image) ;;
  hdr <- png_set_IHDR e (img_width im) (img_height im) 8 format
                      PNG_INTERLACE_NONE ;;
  png_write_info e hdr ;;
  let scanlines :=
    map (scanline_ptr im) (seq 0 (Z.to_nat (img_height im))) in
  png_write_image e hdr scanlines (img_data im) ;;
  png_write_end e ;;
  png_destroy_write_struct true.

Definition save (e : env) (image : Image) : M unit :=
  writep <- png_create_write_struct e ;;
  if negb writep
  then throw (image_save_error "Failed getting png_structp")
  else
  infop <- png_create_info_struct e ;;
  if negb infop
  then png_destroy_write_struct false ;;
       throw (image_save_error "Failed getting png_infop")
  else
  setjmp
    (png_destroy_write_struct true ;;
     throw (image_save_error "Error occurred in libpng"))
    (save_body e image).

(** ** Well-formed input *)

Definition is_byte (b : Z) : Prop := 0 <= b < 256.

(** An unknown chunk libpng can pass over: its type has four characters (and
    the NUL libpng appends), and it is ancillary. *)
Definition ancillary (c : png_unknown_chunk) : Prop :=
  length (name c) = 5%nat /\ critical c = false.

(** A file libpng reads to its end without reporting an error: a header
    libpng accepts, a PLTE for a paletted image, only ancillary unknown
    chunks, and the image data of all the rows. *)
Definition readable (s : png_datastream) : Prop :=
  png_check_IHDR (IHDR s) = true /\
  (color_type (IHDR s) = PNG_COLOR_TYPE_PALETTE -> PLTE s <> []) /\
  Forall ancillary (unknown_before_IDAT s) /\
  Forall ancillary (unknown_after_IDAT s) /\
  width (IHDR s) * height (IHDR s) * channels (color_type (IHDR s))
    <= Z.of_nat (length (samples s)).

(** The five-byte name of a [grAb] chunk. *)
Definition grAb_chunk (payload : list Z) : png_unknown_chunk :=
  {| name := grAb; data := payload |}.

(** ** Reference functions for the statements *)

(** What the callback leaves in [offsets] after the chunks of a list, in
    file order. *)
Fixpoint offsets_after (h : endianness) (chunks : list png_unknown_chunk)
    (o : Z * Z) : Z * Z :=
  match chunks with
  | [] => o
  | c :: rest =>
      match chunkFn h c o with
      | Some (_, o') => offsets_after h rest o'
      | None => o
      end
  end.

(** The samples in a row of the file, and its number of rows. *)
Definition samples_per_row (s : png_datastream) : nat :=
  Z.to_nat (width (IHDR s) * channels (color_type (IHDR s))).

Definition row_count (s : png_datastream) : nat :=
  Z.to_nat (height (IHDR s)).

(** Row [k] of the file as [png_read_image] delivers it. *)
Definition decoded_row (rd : png_reader) (k : nat) : list Z :=
  match source_row (rd_stream rd) k with
  | Some r => row_samples (png_do_read_transformations rd r)
  | None => []
  end.

(** The state after the two handles of a reader were acquired. *)
Definition reader_acquired (w : world) : world :=
  {| events := (events w ++ [Acquire read_struct]) ++ [Acquire info_struct];
     out := out w |}.

Definition writer_acquired (w : world) : world :=
  {| events := (events w ++ [Acquire write_struct]) ++ [Acquire info_struct];
     out := out w |}.

Definition handle_eqb (a b : handle) : bool :=
  match a, b with
  | read_struct, read_struct
  | write_struct, write_struct
  | info_struct, info_struct => true
  | _, _ => false
  end.

(** How many times a handle of kind [h] was acquired, and released. *)
Fixpoint acquisitions (h : handle) (l : list event) : nat :=
  match l with
  | [] => O
  | Acquire h' :: l' =>
      ((if handle_eqb h h' then 1 else 0) + acquisitions h l')%nat
  | Release _ :: l' => acquisitions h l'
  end.

Fixpoint releases (h : handle) (l : list event) : nat :=
  match l with
  | [] => O
  | Release h' :: l' =>
      ((if handle_eqb h h' then 1 else 0) + releases h l')%nat
  | Acquire _ :: l' => releases h l'
  end.

(** Every handle acquired during a call was released once: for each kind of
    handle the call's events hold as many releases as acquisitions. *)
Definition all_released (l : list event) : Prop :=
  forall h, releases h l = acquisitions h l.

(** A computation that writes no unknown chunk to the output. *)
Definition keeps_unknown {A} (m : M A) : Prop :=
  forall w, os_unknown (out (snd (m w))) = os_unknown (out w).

(** A computation that neither acquires, releases nor writes. *)
Definition pure {A} (m : M A) : Prop := forall w, snd (m w) = w.

(** The transformations [load] has requested when it calls
    [png_read_update_info] on the file [s], the header fields that call then
    reports, and the reader in that state. *)
Definition requested (s : png_datastream) : png_transforms :=
  rd_transformations
    (request_transforms (color_type (IHDR s))
       {| rd_stream := s; rd_info := IHDR s;
          rd_transformations := no_transforms |}).

Definition updated_IHDR (s : png_datastream) : png_IHDR :=
  png_read_transform_info (requested s) (num_trans s) (IHDR s).

Definition reader_of (s : png_datastream) : png_reader :=
  {| rd_stream := s; rd_info := updated_IHDR s;
     rd_transformations := requested s |}.

(** The colour entries of a palette with their alpha: [load]'s RGBA palette
    for a colour table and a transparency table. *)
Definition with_alpha (alpha : list Z) (i : nat) (c : png_color) : Rgba :=
  mkRgba (red c) (green c) (blue c)
         (match nth_error alpha i with Some a => a | None => 0xFF end).

Definition rgb_of (c : png_color) : Rgb :=
  mkRgb (red c) (green c) (blue c).

(** The blocks run when libpng jumps back to the [setjmp] of [load] and of
    [save]. *)
Definition load_trap : M Image :=
  png_destroy_read_struct true ;;
  throw (image_load_error "An error occurred in libpng").

Definition save_trap : M unit :=
  png_destroy_write_struct true ;;
  throw (image_save_error "Error occurred in libpng").

(** The pixel formats [save] accepts. *)
Definition compatible (f : pixel_format.t) : Prop :=
  f = pixel_format.rgb \/ f = pixel_format.bgr \/
  f = pixel_format.rgba \/ f = pixel_format.bgra.

Definition append_samples (l : list Z) (w : world) : world :=
  {| events := events w;
     out := {| os_IHDR := os_IHDR (out w); os_unknown := os_unknown (out w);
               os_samples := os_samples (out w) ++ l;
               os_IEND := os_IEND (out w) |} |}.

(** The state after a successful [save] of [im] with colour type [ct]. *)
Definition saved (im : Image) (ct : Z) (w : world) : world :=
  {| events := (events (writer_acquired w) ++ [Release info_struct])
               ++ [Release write_struct];
     out := {| os_IHDR := Some {| width := img_width im;
                                  height := img_height im;
                                  bit_depth := 8; color_type := ct;
                                  interlace_method := PNG_INTERLACE_NONE |};
               os_unknown := os_unknown (out w);
               os_samples := os_samples (out w) ++ img_data im;
               os_IEND := true |} |}.

(** A file without a [grAb] chunk. *)
Definition no_grAb (s : png_datastream) : Prop :=
  Forall (fun c => firstn 4 (name c) <> firstn 4 grAb)
         (unknown_before_IDAT s ++ unknown_after_IDAT s).

(** ** Sample inputs *)

Module Sample.

(** A little-endian host on which libpng works; the stack slot of [offsets]
    holds 7 and -9; an index8 image starts with a palette of two entries. *)
Definition env0 : env :=
  {| host := LittleEndian;
     create_struct_ok := true;
     create_info_ok := true;
     png_fault := fun _ => false;
     stack_offsets := (7, -9);
     default_palette := [mkRgb 0 0 0; mkRgb 0 0 0] |}.

Definition header (w h d ct : Z) : png_IHDR :=
  {| width := w; height := h; bit_depth := d; color_type := ct;
     interlace_method := PNG_INTERLACE_NONE |}.

(** 2 x 1, 8-bit RGB, no ancillary chunk. *)
Definition rgb_2x1 : png_datastream :=
  {| IHDR := header 2 1 8 PNG_COLOR_TYPE_RGB; PLTE := []; tRNS := None;
     unknown_before_IDAT := []; samples := [10; 20; 30; 40; 50; 60];
     unknown_after_IDAT := [] |}.

(** The same with a [grAb] chunk holding 5 and -3 ahead of the image data. *)
Definition rgb_2x1_grAb : png_datastream :=
  {| IHDR := header 2 1 8 PNG_COLOR_TYPE_RGB; PLTE := []; tRNS := None;
     unknown_before_IDAT :=
       [grAb_chunk [0; 0; 0; 5; 0xFF; 0xFF; 0xFF; 0xFD]];
     samples := [10; 20; 30; 40; 50; 60];
     unknown_after_IDAT := [] |}.

(** The same with the [grAb] chunk behind the image data. *)
Definition rgb_2x1_late_grAb : png_datastream :=
  {| IHDR := header 2 1 8 PNG_COLOR_TYPE_RGB; PLTE := []; tRNS := None;
     unknown_before_IDAT := [];
     samples := [10; 20; 30; 40; 50; 60];
     unknown_after_IDAT :=
       [grAb_chunk [0; 0; 0; 5; 0xFF; 0xFF; 0xFF; 0xFD]] |}.

(** 2 x 1, 8-bit gray. *)
Definition gray_2x1 : png_datastream :=
  {| IHDR := header 2 1 8 PNG_COLOR_TYPE_GRAY; PLTE := []; tRNS := None;
     unknown_before_IDAT := []; samples := [100; 200];
     unknown_after_IDAT := [] |}.

(** 1 x 1, 8-bit gray with alpha. *)
Definition gray_alpha_1x1 : png_datastream :=
  {| IHDR := header 1 1 8 PNG_COLOR_TYPE_GRAY_ALPHA; PLTE := [];
     tRNS := None; unknown_before_IDAT := []; samples := [100; 255];
     unknown_after_IDAT := [] |}.

(** 2 x 1, paletted with 4 bits per index, two colours, the first one
    transparent. *)
Definition paletted_4bit : png_datastream :=
  {| IHDR := header 2 1 4 PNG_COLOR_TYPE_PALETTE;
     PLTE := [mk_color 1 2 3; mk_color 4 5 6];
     tRNS := Some {| trans_alpha := [0]; trans_gray := 0 |};
     unknown_before_IDAT := []; samples := [1; 0];
     unknown_after_IDAT := [] |}.

(** 2 x 1, paletted with 8 bits per index, two colours, the first one with
    alpha 9. *)
Definition paletted_tRNS : png_datastream :=
  {| IHDR := header 2 1 8 PNG_COLOR_TYPE_PALETTE;
     PLTE := [mk_color 1 2 3; mk_color 4 5 6];
     tRNS := Some {| trans_alpha := [9]; trans_gray := 0 |};
     unknown_before_IDAT := []; samples := [1; 0];
     unknown_after_IDAT := [] |}.

(** 2 x 1, paletted with 8 bits per index and a single colour: fewer than
    the default palette of [env0]. *)
Definition paletted_one_colour : png_datastream :=
  {| IHDR := header 2 1 8 PNG_COLOR_TYPE_PALETTE;
     PLTE := [mk_color 1 2 3]; tRNS := None;
     unknown_before_IDAT := []; samples := [0; 0];
     unknown_after_IDAT := [] |}.

(** The 2 x 1 RGB file cut off in the middle of its row. *)
Definition rgb_truncated : png_datastream :=
  {| IHDR := header 2 1 8 PNG_COLOR_TYPE_RGB; PLTE := []; tRNS := None;
     unknown_before_IDAT := []; samples := [10; 20; 30];
     unknown_after_IDAT := [] |}.

(** An environment in which libpng fails while it writes the rows. *)
Definition env_write_fails : env :=
  {| host := LittleEndian;
     create_struct_ok := true;
     create_info_ok := true;
     png_fault := fun c => match c with in_write_image => true | _ => false end;
     stack_offsets := (0, 0);
     default_palette := [] |}.

Definition image (f : pixel_format.t) (w h : Z) (d : list Z) : Image :=
  {| img_width := w; img_height := h; img_format := f; img_data := d;
     img_palette := Palette_none; img_offsets := (3, 4) |}.

Definition rgb_image : Image :=
  image pixel_format.rgb 2 1 [10; 20; 30; 40; 50; 60].

Definition bgra_image : Image :=
  image pixel_format.bgra 1 2 [1; 2; 3; 4; 5; 6; 7; 8].

Definition index8_image : Image :=
  image pixel_format.index8 2 1 [0; 1].

End Sample.

(** The image [load] builds for a paletted file when the palette step yields
    the palette [p]: index8, one index per byte. *)
Definition paletted_image (e : env) (s : png_datastream) (p : Palette)
  : Image :=
  mkImage (width (IHDR s)) (height (IHDR s)) pixel_format.index8
    (firstn (Z.to_nat (width (IHDR s) * height (IHDR s))) (samples s)) p
    (offsets_after (host e) (unknown_before_IDAT s) (stack_offsets e)).

(** How a PNG file starts: the signature and the length of the IHDR chunk. *)
Definition png_file_start : list Z := png_signature ++ [0; 0; 0; 13].

(** ** Further reference functions and sample inputs *)

(** The file [s] with other unknown chunks behind the image data. *)
Definition with_chunks_after_IDAT (s : png_datastream)
    (l : list png_unknown_chunk) : png_datastream :=
  {| IHDR := IHDR s; PLTE := PLTE s; tRNS := tRNS s;
     unknown_before_IDAT := unknown_before_IDAT s;
     samples := samples s; unknown_after_IDAT := l |}.

(** A chunk whose type has its four characters. *)
Definition named (c : png_unknown_chunk) : Prop :=
  (4 <= length (name c))%nat.

(** The type of the chunk is ["grAb"]. *)
Definition is_grAb (c : png_unknown_chunk) : Prop :=
  firstn 4 (name c) = firstn 4 grAb.

(** A computation that leaves an observation [obs] of the state as it is,
    and one that changes it by [upd] exactly when it returns. *)
Definition keeps {X A} (obs : world -> X) (m : M A) : Prop :=
  forall w, obs (snd (m w)) = obs w.

Definition on_return {X A} (obs : world -> X) (upd : X -> X) (m : M A)
  : Prop :=
  forall w, obs (snd (m w))
            = match fst (m w) with Ret _ => upd (obs w) | _ => obs w end.


(** A computation that throws no C++ exception. *)
Definition never_throws {A} (m : M A) : Prop :=
  forall w x w', m w <> (Throw x, w').

(** A computation that stays inside its arrays. *)
Definition never_undefined {A} (m : M A) : Prop :=
  forall w, fst (m w) <> Undefined.

(** A computation whose outcome does not depend on the state. *)
Definition stateless {A} (m : M A) : Prop :=
  forall w1 w2, fst (m w1) = fst (m w2).

(** The state after both handles of a reader were acquired and then
    released by the error trap. *)
Definition reader_released (w : world) : world :=
  {| events := (events (reader_acquired w) ++ [Release info_struct])
               ++ [Release read_struct];
     out := out w |}.

(** The state after both handles of a writer were acquired and then
    released. *)
Definition writer_released (w : world) : world :=
  {| events := (events (writer_acquired w) ++ [Release info_struct])
               ++ [Release write_struct];
     out := out w |}.

Module Sample2.

(** A header with an empty dimension. *)
Definition empty_width : png_datastream :=
  {| IHDR := Sample.header 0 1 8 PNG_COLOR_TYPE_RGB; PLTE := [];
     tRNS := None; unknown_before_IDAT := []; samples := [];
     unknown_after_IDAT := [] |}.

(** 1 x 1, 16-bit RGB. *)
Definition rgb16_1x1 : png_datastream :=
  {| IHDR := Sample.header 1 1 16 PNG_COLOR_TYPE_RGB; PLTE := [];
     tRNS := None; unknown_before_IDAT := [];
     samples := [0x1234; 0xABCD; 0x00FF]; unknown_after_IDAT := [] |}.

(** The chunk of a text comment. *)
Definition tEXt_chunk : png_unknown_chunk :=
  {| name := CLib.string_literal [0x74; 0x45; 0x58; 0x74];
     data := [0x61; 0; 0x62] |}.

(** A [grAb] chunk whose payload has only four bytes. *)
Definition short_grAb : png_unknown_chunk := grAb_chunk [0; 0; 0; 5].

Definition grAb_5_minus_3 : png_unknown_chunk :=
  grAb_chunk [0; 0; 0; 5; 0xFF; 0xFF; 0xFF; 0xFD].

(** 2 x 1 RGB with a first [grAb] chunk, the [grAb] chunk holding 5 and -3,
    and a text chunk, ahead of the image data. *)
Definition rgb_2x1_chunks : png_datastream :=
  {| IHDR := Sample.header 2 1 8 PNG_COLOR_TYPE_RGB; PLTE := [];
     tRNS := None;
     unknown_before_IDAT :=
       [grAb_chunk [0; 0; 0; 1; 0; 0; 0; 2]; grAb_5_minus_3; tEXt_chunk];
     samples := [10; 20; 30; 40; 50; 60];
     unknown_after_IDAT := [] |}.

Definition bgr_image : Image :=
  Sample.image pixel_format.bgr 2 1 [10; 20; 30; 40; 50; 60].

End Sample2.

(** * Properties *)

(** ** strncmp and detect *)

Section Strncmp.

(** Against a string with no NUL among its first [n] characters, [strncmp]
    reads only inside the arrays and answers 0 exactly for an equal prefix. *)
Lemma strncmp_prefix (pre : list Z) :
  forall (rest b : list Z),
    Forall (fun x => x <> 0) pre ->
    (length pre <= length b)%nat ->
    exists r, CLib.strncmp (pre ++ rest) b (length pre) = Some r /\
              (r = 0 <-> firstn (length pre) b = pre).
Proof.
  induction pre as [|x pre IH]; intros rest b Hnz Hlen.
  - exists 0. simpl. split; [reflexivity | tauto].
  - destruct b as [|y b]; [simpl in Hlen; lia|].
    inversion Hnz as [|? ? Hx Hpre]; subst.
    simpl. destruct (Z.eqb_spec x y) as [->|Hxy].
    + destruct (Z.eqb_spec y 0) as [Hy|_]; [contradiction|].
      destruct (IH rest b Hpre) as [r [Hr Hiff]]; [simpl in Hlen; lia|].
      exists r. split; [exact Hr|].
      rewrite Hiff. split; [intros Hb; simpl; now rewrite Hb | intros H; simpl in H; injection H as H; exact H].
    + exists (x - y). split; [reflexivity|].
      split; [lia | intros H; simpl in H; injection H as H1 H2; congruence].
Qed.

End Strncmp.

Lemma png_signature_nonzero : Forall (fun x => x <> 0) png_signature.
Proof. repeat constructor; discriminate. Qed.

(** The buffer [detect] compares: the bytes read, then the zeros the
    initializer left. *)
Lemma detect_unfold (dm : data_model) (s : list Z) :
  sizeof_ptr dm = 8%nat ->
  detect dm s =
  match CLib.strncmp magic (firstn 8 s ++ skipn (length (firstn 8 s)) (repeat 0 9)) 8 with
  | Some r => Some (r =? 0)
  | None => None
  end.
Proof. intros H. unfold detect, CLib.istream_read. rewrite H. reflexivity. Qed.

Lemma detect_spec (dm : data_model) (s : list Z) :
  sizeof_ptr dm = 8%nat ->
  exists b, detect dm s = Some b /\ (b = true <-> firstn 8 s = png_signature).
Proof.
  intros Hdm. rewrite (detect_unfold dm s Hdm).
  set (buf := firstn 8 s ++ skipn (length (firstn 8 s)) (repeat 0 9)).
  assert (Hlen : (8 <= length buf)%nat).
  { unfold buf. rewrite length_app, length_skipn, repeat_length.
    pose proof (firstn_le_length 8 s). rewrite length_firstn. lia. }
  destruct (strncmp_prefix png_signature [0] buf png_signature_nonzero Hlen)
    as [r [Hr Hiff]].
  change (length png_signature) with 8%nat in *.
  change (png_signature ++ [0]) with magic in Hr.
  rewrite Hr. exists (r =? 0). split; [reflexivity|].
  rewrite Z.eqb_eq, Hiff.
  destruct (Nat.le_gt_cases 8 (length s)) as [Hs|Hs].
  - unfold buf. rewrite firstn_app, firstn_firstn.
    replace (Nat.min 8 8) with 8%nat by reflexivity.
    rewrite length_firstn, Nat.min_l by exact Hs.
    rewrite Nat.sub_diag. simpl. rewrite app_nil_r. tauto.
  - (* a short stream leaves a zero among the first eight bytes *)
    split; intros H.
    + exfalso.
      assert (Hz : nth (length s) (firstn 8 buf) 1 = 0).
      { rewrite nth_firstn.
        destruct (Nat.ltb_spec (length s) 8) as [_|Hge]; [|lia].
        unfold buf. rewrite (firstn_all2 (n := 8) s) by lia.
        rewrite app_nth2, Nat.sub_diag, nth_skipn by lia.
        apply nth_repeat_lt. lia. }
      rewrite H in Hz.
      pose proof png_signature_nonzero as Hnz.
      rewrite Forall_forall in Hnz.
      apply (Hnz (nth (length s) png_signature 1)); [|exact Hz].
      apply nth_In. simpl. lia.
    + exfalso. apply (f_equal (@length Z)) in H.
      rewrite length_firstn in H.
      change (length png_signature) with 8%nat in H. lia.
Qed.
(** ** Byte order *)

Section ByteOrder.

(** Bits that do not overlap are added by [Z.lor]. *)
Lemma lor_high_low (n hi lo : Z) :
  0 <= n -> 0 <= lo < 2 ^ n -> hi mod 2 ^ n = 0 ->
  Z.lor hi lo = hi + lo.
Proof.
  intros Hn Hlo Hhi.
  assert (Hdisj : Z.land hi lo = 0).
  { apply Z.bits_inj'. intros m Hm.
    rewrite Z.land_spec, Z.bits_0.
    destruct (Z.lt_ge_cases m n) as [Hlt|Hge].
    - rewrite <- (Z.mod_pow2_bits_low hi n m Hlt), Hhi, Z.bits_0. reflexivity.
    - rewrite <- (Z.mod_small lo (2 ^ n)) by exact Hlo.
      rewrite Z.mod_pow2_bits_high by lia. apply andb_false_r. }
  rewrite <- Z.lxor_lor by exact Hdisj.
  symmetry. apply Z.add_nocarry_lxor. exact Hdisj.
Qed.

Lemma uint32_mod (x : Z) : uint32 x = x mod 2 ^ 32.
Proof. unfold uint32. change 0xFFFFFFFF with (Z.ones 32). apply Z.land_ones. lia. Qed.

Lemma land_255_mod (x : Z) : Z.land x 0xFF = x mod 2 ^ 8.
Proof. change 0xFF with (Z.ones 8). apply Z.land_ones. lia. Qed.

Lemma uint32_int32 (x : Z) : uint32 (int32 x) = uint32 x.
Proof.
  unfold int32. rewrite !uint32_mod.
  destruct (x mod 2 ^ 32 <? 0x80000000).
  - apply Z.mod_mod. lia.
  - change 0x100000000 with (1 * 2 ^ 32).
    rewrite <- (Z.mod_add _ 1) by lia.
    replace (x mod 2 ^ 32 - 1 * 2 ^ 32 + 1 * 2 ^ 32) with (x mod 2 ^ 32) by lia.
    apply Z.mod_mod. lia.
Qed.

Variables b0 b1 b2 b3 : Z.
Hypothesis B0 : is_byte b0.
Hypothesis B1 : is_byte b1.
Hypothesis B2 : is_byte b2.
Hypothesis B3 : is_byte b3.

(** The word a little-endian host reads from the bytes b0 b1 b2 b3. *)
Lemma little_endian_word :
  Z.lor (Z.lor (Z.lor b0 (Z.shiftl b1 8)) (Z.shiftl b2 16)) (Z.shiftl b3 24)
  = b0 + b1 * 2 ^ 8 + b2 * 2 ^ 16 + b3 * 2 ^ 24.
Proof.
  unfold is_byte in *.
  rewrite !Z.shiftl_mul_pow2 by lia.
  rewrite (Z.lor_comm b0), (lor_high_low 8 (b1 * 2 ^ 8) b0)
    by (try apply Z.mod_mul; lia).
  rewrite (Z.lor_comm _ (b2 * 2 ^ 16)), (lor_high_low 16 (b2 * 2 ^ 16))
    by (try apply Z.mod_mul; lia).
  rewrite (Z.lor_comm _ (b3 * 2 ^ 24)), (lor_high_low 24 (b3 * 2 ^ 24))
    by (try apply Z.mod_mul; lia).
  lia.
Qed.

Lemma bswap32_little_endian :
  Cpu.bswap32 (Cpu.host_int LittleEndian b0 b1 b2 b3) = be_int32 b0 b1 b2 b3.
Proof.
  unfold Cpu.bswap32, Cpu.host_int, be_int32.
  rewrite uint32_int32, little_endian_word, uint32_mod.
  unfold is_byte in *.
  set (u := b0 + b1 * 2 ^ 8 + b2 * 2 ^ 16 + b3 * 2 ^ 24).
  assert (Hu : u mod 2 ^ 32 = u) by (apply Z.mod_small; unfold u; lia).
  rewrite Hu, !land_255_mod, !Z.shiftr_div_pow2 by lia.
  assert (E0 : u mod 2 ^ 8 = b0) by (unfold u; Z.div_mod_to_equations; lia).
  assert (E1 : (u / 2 ^ 8) mod 2 ^ 8 = b1)
    by (unfold u; Z.div_mod_to_equations; lia).
  assert (E2 : (u / 2 ^ 16) mod 2 ^ 8 = b2)
    by (unfold u; Z.div_mod_to_equations; lia).
  assert (E3 : (u / 2 ^ 24) mod 2 ^ 8 = b3)
    by (unfold u; Z.div_mod_to_equations; lia).
  rewrite E0, E1, E2, E3, !Z.shiftl_mul_pow2 by lia.
  rewrite (lor_high_low 24 (b0 * 2 ^ 24) (b1 * 2 ^ 16))
    by (try apply Z.mod_mul; lia).
  rewrite (lor_high_low 16 _ (b2 * 2 ^ 8))
    by (try lia; Z.div_mod_to_equations; lia).
  rewrite (lor_high_low 8 _ b3)
    by (try lia; Z.div_mod_to_equations; lia).
  f_equal.
Qed.

Lemma host_int_big_endian :
  Cpu.host_int BigEndian b0 b1 b2 b3 = be_int32 b0 b1 b2 b3.
Proof.
  unfold Cpu.host_int, be_int32. f_equal.
  unfold is_byte in *.
  rewrite !Z.shiftl_mul_pow2 by lia.
  rewrite (Z.lor_comm b3), (lor_high_low 8 (b2 * 2 ^ 8) b3)
    by (try apply Z.mod_mul; lia).
  rewrite (Z.lor_comm _ (b1 * 2 ^ 16)), (lor_high_low 16 (b1 * 2 ^ 16))
    by (try apply Z.mod_mul; lia).
  rewrite (Z.lor_comm _ (b0 * 2 ^ 24)), (lor_high_low 24 (b0 * 2 ^ 24))
    by (try apply Z.mod_mul; lia).
  lia.
Qed.

(** Whatever the byte order of the host, [swap_be] of the [int] read from
    four bytes is their big-endian value. *)
Lemma swap_be_host_int (h : endianness) :
  Cpu.swap_be h (Cpu.host_int h b0 b1 b2 b3) = be_int32 b0 b1 b2 b3.
Proof.
  destruct h; simpl Cpu.swap_be.
  - apply bswap32_little_endian.
  - apply host_int_big_endian.
Qed.

End ByteOrder.
(** ** The monad *)

Lemma bind_ret_l {A B} (a : A) (k : A -> M B) : bind (ret a) k = k a.
Proof. reflexivity. Qed.

Lemma bind_throw {A B} (x : exn) (k : A -> M B) : bind (throw x) k = throw x.
Proof. reflexivity. Qed.

Lemma bind_Ret {A B} (m : M A) (k : A -> M B) w a w1 :
  m w = (Ret a, w1) -> bind m k w = k a w1.
Proof. intros H. unfold bind. rewrite H. reflexivity. Qed.

Lemma bind_Ret_inv {A B} (m : M A) (k : A -> M B) w b w' :
  bind m k w = (Ret b, w') ->
  exists a w1, m w = (Ret a, w1) /\ k a w1 = (Ret b, w').
Proof.
  unfold bind. destruct (m w) as [[a| | |] w1]; intros H;
    try discriminate. eauto.
Qed.

Lemma defined_Ret_inv {A} (o : option A) w a w' :
  defined o w = (Ret a, w') -> o = Some a /\ w' = w.
Proof.
  destruct o; unfold defined, ret, undefined; intros H; inversion H; auto.
Qed.

Lemma may_fail_Ret_inv e c w u w' :
  may_fail e c w = (Ret u, w') -> png_fault e c = false /\ w' = w.
Proof.
  unfold may_fail. destruct (png_fault e c); unfold png_error, ret;
    intros H; inversion H; auto.
Qed.

(** *** Computations that leave the state alone *)

Lemma pure_ret {A} (a : A) : pure (ret a).
Proof. intros w. reflexivity. Qed.

Lemma pure_throw {A} x : pure (@throw A x).
Proof. intros w. reflexivity. Qed.

Lemma pure_png_error {A} : pure (@png_error A).
Proof. intros w. reflexivity. Qed.

Lemma pure_undefined {A} : pure (@undefined A).
Proof. intros w. reflexivity. Qed.

Lemma pure_defined {A} (o : option A) : pure (defined o).
Proof. destruct o; [apply pure_ret | apply pure_undefined]. Qed.

Lemma pure_may_fail e c : pure (may_fail e c).
Proof.
  unfold may_fail. destruct (png_fault e c);
    [apply pure_png_error | apply pure_ret].
Qed.

Lemma pure_bind {A B} (m : M A) (k : A -> M B) :
  pure m -> (forall a, pure (k a)) -> pure (bind m k).
Proof.
  intros Hm Hk w. unfold bind. specialize (Hm w).
  destruct (m w) as [[a| | |] w1]; simpl in Hm; subst; try reflexivity.
  apply Hk.
Qed.

Lemma pure_if {A} (b : bool) (m1 m2 : M A) :
  pure m1 -> pure m2 -> pure (if b then m1 else m2).
Proof. destruct b; auto. Qed.

Create HintDb pure_db.
#[local] Hint Resolve pure_ret pure_throw pure_png_error pure_undefined
  pure_defined pure_may_fail : pure_db.

Lemma pure_png_handle_unknown {U} (fn : user_chunk_fn U) chunks :
  forall u, pure (png_handle_unknown fn chunks u).
Proof.
  induction chunks as [|c rest IH]; intros u; simpl.
  - apply pure_ret.
  - apply pure_bind; [apply pure_defined|]. intros [r u'].
    repeat apply pure_if; auto with pure_db.
Qed.

Lemma pure_png_read_info {U} e (fn : user_chunk_fn U) u s :
  pure (png_read_info e fn u s).
Proof.
  unfold png_read_info.
  apply pure_bind; [apply pure_may_fail|]. intros _.
  repeat apply pure_if; auto with pure_db.
  apply pure_bind; [apply pure_png_handle_unknown|]. intros; apply pure_ret.
Qed.

Lemma pure_read_rows rd image n :
  forall i mem, pure (read_rows rd image i n mem).
Proof.
  induction n as [|n IH]; intros i mem; simpl.
  - apply pure_ret.
  - destruct (source_row (rd_stream rd) i) as [r|]; [|apply pure_png_error].
    apply pure_bind; [apply pure_defined|]. intros ptr.
    apply pure_bind; [apply pure_defined|]. intros mem'. apply IH.
Qed.

Lemma pure_format_of ct d : pure (format_of ct d).
Proof. unfold format_of. repeat apply pure_if; auto with pure_db. Qed.

Lemma pure_load_palette rd im : pure (load_palette rd im).
Proof.
  unfold load_palette.
  destruct (png_get_valid_tRNS rd), (png_get_tRNS rd), (png_get_PLTE rd).
  - apply pure_bind; [apply pure_defined|]. intros; apply pure_ret.
  - apply pure_bind; [apply pure_defined|]. intros [cs k]; apply pure_ret.
Qed.

(** The guarded part of [load] acquires and releases nothing, however it
    ends. *)
Lemma pure_load_body e s : pure (load_body e s).
Proof.
  unfold load_body.
  apply pure_bind; [apply pure_png_read_info|]. intros [rd offsets].
  apply pure_bind.
  { unfold png_read_update_info. apply pure_bind; auto with pure_db. }
  intros rd'.
  apply pure_bind; [apply pure_format_of|]. intros format.
  apply pure_bind.
  { apply pure_if; [apply pure_load_palette | apply pure_ret]. }
  intros retval.
  apply pure_bind.
  { unfold png_read_image. apply pure_bind; [apply pure_may_fail|].
    intros _. apply pure_read_rows. }
  intros pixels.
  apply pure_bind; [|intros; apply pure_ret].
  unfold png_read_end. apply pure_bind; [apply pure_may_fail|].
  intros _. apply pure_png_handle_unknown.
Qed.
(** ** The chunk callback *)

Lemma strncmp_sym (n : nat) :
  forall a b, CLib.strncmp a b n = option_map Z.opp (CLib.strncmp b a n).
Proof.
  induction n as [|n IH]; intros a b; [reflexivity|].
  destruct a as [|x a], b as [|y b]; try reflexivity.
  simpl. rewrite (Z.eqb_sym y x).
  destruct (Z.eqb_spec x y) as [->|Hxy].
  - destruct (y =? 0); [reflexivity | apply IH].
  - simpl. f_equal. lia.
Qed.

(** The comparison of a chunk type with ["grAb"] is defined for every
    five-byte name and tells whether the four characters agree. *)
Lemma strncmp_grAb (nm : list Z) :
  (4 <= length nm)%nat ->
  exists r, CLib.strncmp nm grAb 4 = Some r /\
            (r = 0 <-> firstn 4 nm = firstn 4 grAb).
Proof.
  intros Hlen. rewrite strncmp_sym.
  destruct (strncmp_prefix (firstn 4 grAb) [0] nm) as [r [Hr Hiff]].
  - repeat constructor; discriminate.
  - exact Hlen.
  - change (firstn 4 grAb ++ [0]) with grAb in Hr.
    change (length (firstn 4 grAb)) with 4%nat in *.
    rewrite Hr. exists (- r). split; [reflexivity|].
    rewrite <- Hiff. lia.
Qed.

(** On a chunk with a four-character type the callback is defined: it either
    declines and leaves the offsets, or handles the chunk. *)
Lemma chunkFn_defined h c o :
  (4 <= length (name c))%nat ->
  chunkFn h c o = Some (0, o) \/ exists o', chunkFn h c o = Some (1, o').
Proof.
  intros Hlen. unfold chunkFn.
  destruct (strncmp_grAb (name c) Hlen) as [r [-> _]].
  destruct ((r =? 0) && (8 <=? size c)) eqn:E; [|left; reflexivity].
  apply andb_prop in E. destruct E as [_ E]. apply Z.leb_le in E.
  unfold size in E. right.
  destruct (data c) as [|b0 [|b1 [|b2 [|b3 [|b4 [|b5 [|b6 [|b7 rest]]]]]]]];
    simpl in E; try lia.
  eexists. reflexivity.
Qed.

(** A chunk of another type is declined and the offsets stay as they are. *)
Lemma chunkFn_other h c o :
  (4 <= length (name c))%nat ->
  firstn 4 (name c) <> firstn 4 grAb ->
  chunkFn h c o = Some (0, o).
Proof.
  intros Hlen Hne. unfold chunkFn.
  destruct (strncmp_grAb (name c) Hlen) as [r [-> Hiff]].
  destruct (Z.eqb_spec r 0) as [Hr|_]; [|reflexivity].
  exfalso. apply Hne, Hiff, Hr.
Qed.

(** A [grAb] chunk of eight bytes or more: the offsets become the two
    big-endian integers at the front of the payload, whatever the byte order
    of the host. *)
Lemma chunkFn_grAb h o b0 b1 b2 b3 b4 b5 b6 b7 rest :
  Forall is_byte [b0; b1; b2; b3; b4; b5; b6; b7] ->
  chunkFn h (grAb_chunk (b0 :: b1 :: b2 :: b3 :: b4 :: b5 :: b6 :: b7 :: rest)) o
  = Some (1, (be_int32 b0 b1 b2 b3, be_int32 b4 b5 b6 b7)).
Proof.
  intros HB.
  repeat match goal with
         | H : Forall _ (_ :: _) |- _ => inversion H; clear H; subst
         end.
  unfold chunkFn, grAb_chunk. cbn [name data].
  change (CLib.strncmp grAb grAb 4) with (Some 0).
  match goal with
  | |- context [8 <=? ?n] =>
      replace (8 <=? n) with true
        by (symmetry; apply Z.leb_le; unfold size; cbn [data length]; lia)
  end.
  cbn [Z.eqb andb].
  cbn [Cpu.load_int skipn Nat.mul Nat.add].
  rewrite !swap_be_host_int by assumption. reflexivity.
Qed.

Lemma png_handle_unknown_Ret_inv h chunks :
  forall o w o' w',
    png_handle_unknown (chunkFn h) chunks o w = (Ret o', w') ->
    o' = offsets_after h chunks o.
Proof.
  induction chunks as [|c rest IH]; intros o w o' w' H; simpl in H.
  - inversion H. reflexivity.
  - apply bind_Ret_inv in H. destruct H as ([r u] & w1 & Hd & H).
    apply defined_Ret_inv in Hd. destruct Hd as [Hd ->].
    simpl. rewrite Hd.
    destruct (r <? 0); [discriminate|].
    destruct ((r =? 0) && critical c); [discriminate|].
    eapply IH, H.
Qed.

(** libpng passes over ancillary chunks without an error. *)
Lemma png_handle_unknown_ancillary h chunks :
  Forall ancillary chunks ->
  forall o, png_handle_unknown (chunkFn h) chunks o
            = ret (offsets_after h chunks o).
Proof.
  induction 1 as [|c rest [Hname Hanc] Hrest IH]; intros o; [reflexivity|].
  simpl.
  destruct (chunkFn_defined h c o) as [E|[o' E]]; [lia| |]; rewrite E.
  - cbn [defined]. rewrite bind_ret_l. cbv beta iota. rewrite Hanc.
    simpl. apply IH.
  - cbn [defined]. rewrite bind_ret_l. cbv beta iota. simpl. apply IH.
Qed.
(** ** The frame of load: creation of the handles and the error trap *)

Lemma load_frame e s w :
  create_struct_ok e = true -> create_info_ok e = true ->
  load e s w = setjmp load_trap (load_body e s) (reader_acquired w).
Proof.
  intros Hs Hi. unfold load, png_create_read_struct, png_create_info_struct.
  rewrite Hs, Hi. reflexivity.
Qed.

(** When [load] returns an image, the guarded part returned it, in the state
    where both handles are held. *)
Lemma load_Ret_inv e s w img w' :
  load e s w = (Ret img, w') ->
  create_struct_ok e = true /\ create_info_ok e = true /\
  load_body e s (reader_acquired w) = (Ret img, w') /\
  w' = reader_acquired w.
Proof.
  intros H.
  destruct (create_struct_ok e) eqn:Hs.
  2:{ unfold load, png_create_read_struct in H. rewrite Hs in H.
      discriminate. }
  destruct (create_info_ok e) eqn:Hi.
  2:{ unfold load, png_create_read_struct, png_create_info_struct in H.
      rewrite Hs, Hi in H. discriminate. }
  rewrite load_frame in H by assumption.
  unfold setjmp in H.
  pose proof (pure_load_body e s (reader_acquired w)) as Hp.
  destruct (load_body e s (reader_acquired w)) as [[a| | |] w1] eqn:Hb;
    simpl in Hp; subst w1; try discriminate.
  inversion H; subst. auto.
Qed.

Lemma load_body_offsets e s w img w' :
  load_body e s w = (Ret img, w') ->
  img_offsets img
  = offsets_after (host e) (unknown_before_IDAT s) (stack_offsets e).
Proof.
  intros H. unfold load_body in H.
  apply bind_Ret_inv in H. destruct H as ([rd offsets] & w1 & Hinfo & H).
  apply bind_Ret_inv in H. destruct H as (rd' & w2 & _ & H).
  apply bind_Ret_inv in H. destruct H as (format & w3 & _ & H).
  apply bind_Ret_inv in H. destruct H as (retval & w4 & _ & H).
  apply bind_Ret_inv in H. destruct H as (pixels & w5 & _ & H).
  apply bind_Ret_inv in H. destruct H as (o2 & w6 & _ & H).
  inversion H; subst. cbn [img_offsets set_data set_offsets].
  unfold png_read_info in Hinfo.
  apply bind_Ret_inv in Hinfo. destruct Hinfo as (u & w7 & _ & Hinfo).
  destruct (negb (png_check_IHDR (IHDR s))); [discriminate|].
  destruct ((color_type (IHDR s) =? PNG_COLOR_TYPE_PALETTE)
            && (length (PLTE s) =? 0)%nat); [discriminate|].
  apply bind_Ret_inv in Hinfo. destruct Hinfo as (o1 & w8 & Hu & Hinfo).
  inversion Hinfo; subst.
  eapply png_handle_unknown_Ret_inv, Hu.
Qed.

Lemma load_offsets e s w img w' :
  load e s w = (Ret img, w') ->
  img_offsets img
  = offsets_after (host e) (unknown_before_IDAT s) (stack_offsets e).
Proof.
  intros H. apply load_Ret_inv in H. destruct H as (_ & _ & H & _).
  eapply load_body_offsets, H.
Qed.

Lemma acquisitions_app h l1 l2 :
  acquisitions h (l1 ++ l2) = (acquisitions h l1 + acquisitions h l2)%nat.
Proof.
  induction l1 as [|[h'|h'] l1 IH]; simpl; rewrite ?IH; lia.
Qed.

Lemma releases_app h l1 l2 :
  releases h (l1 ++ l2) = (releases h l1 + releases h l2)%nat.
Proof.
  induction l1 as [|[h'|h'] l1 IH]; simpl; rewrite ?IH; lia.
Qed.
(** ** What libpng reports after the transformations *)

Lemma png_check_IHDR_inv h :
  png_check_IHDR h = true ->
  0 < width h /\ 0 < height h /\
  (bit_depth h = 1 \/ bit_depth h = 2 \/ bit_depth h = 4 \/
   bit_depth h = 8 \/ bit_depth h = 16) /\
  (color_type h = 0 \/ color_type h = 2 \/ color_type h = 3 \/
   color_type h = 4 \/ color_type h = 6) /\
  (color_type h = 3 -> bit_depth h <= 8) /\
  (color_type h = 2 \/ color_type h = 4 \/ color_type h = 6 ->
   8 <= bit_depth h).
Proof.
  unfold png_check_IHDR. intros H.
  repeat (apply andb_prop in H; destruct H as [H ?]).
  repeat match goal with
         | H : negb _ = true |- _ => apply negb_true_iff in H
         | H : (_ <? _) = true |- _ => apply Z.ltb_lt in H
         end.
  repeat split; try assumption.
  - repeat match goal with
           | H : (_ || _) = true |- _ => apply orb_prop in H; destruct H as [H|H]
           | H : (_ =? _) = true |- _ => apply Z.eqb_eq in H
           end; try lia.
  - match goal with
    | H : (color_type h =? 0) || _ || _ || _ || _ = true |- _ =>
        repeat (apply orb_prop in H; destruct H as [H|H]);
        apply Z.eqb_eq in H; lia
    end.
  - intros Hct.
    match goal with
    | H : (color_type h =? PNG_COLOR_TYPE_PALETTE) && _ = false |- _ =>
        apply andb_false_iff in H; destruct H as [H|H];
        [apply Z.eqb_neq in H; change PNG_COLOR_TYPE_PALETTE with 3 in H; lia
        | apply Z.ltb_ge in H; exact H]
    end.
  - intros Hct.
    match goal with
    | H : (_ || _ || _) && (bit_depth h <? 8) = false |- _ =>
        apply andb_false_iff in H; destruct H as [H|H];
        [ repeat (apply orb_false_elim in H; destruct H as [H ?]);
          repeat match goal with
                 | H : (_ =? _) = false |- _ => apply Z.eqb_neq in H
                 end;
          change PNG_COLOR_TYPE_RGB with 2 in *;
          change PNG_COLOR_TYPE_GRAY_ALPHA with 4 in *;
          change PNG_COLOR_TYPE_RGB_ALPHA with 6 in *; lia
        | apply Z.ltb_ge in H; exact H]
    end.
Qed.

(** The transformations [load] requests for a file. *)
Lemma requested_spec s :
  requested s =
  let h := IHDR s in
  mk_transforms true (bit_depth h <? 8)
    (negb (interlace_method h =? PNG_INTERLACE_NONE))
    ((color_type h =? PNG_COLOR_TYPE_GRAY)
     || (color_type h =? PNG_COLOR_TYPE_GRAY_ALPHA))
    (color_type h =? PNG_COLOR_TYPE_GRAY)
    (color_type h =? PNG_COLOR_TYPE_GRAY_ALPHA).
Proof.
  unfold requested, request_transforms, png_set_packing,
    png_set_interlace_handling, png_set_strip_16.
  cbn [rd_stream set_transforms rd_transformations].
  destruct (bit_depth (IHDR s) <? 8);
    cbn [rd_stream set_transforms rd_transformations];
    destruct (interlace_method (IHDR s) =? PNG_INTERLACE_NONE);
    destruct (color_type (IHDR s) =? PNG_COLOR_TYPE_GRAY);
    destruct (color_type (IHDR s) =? PNG_COLOR_TYPE_GRAY_ALPHA);
    reflexivity.
Qed.

(** After the normalization every accepted file is reported with 8 bits per
    sample; gray with alpha is reported as RGB with alpha, gray without alpha
    stays gray (with an alpha channel when the file has a tRNS chunk), and
    the other colour types are unchanged. *)
Lemma updated_IHDR_spec s :
  png_check_IHDR (IHDR s) = true ->
  width (updated_IHDR s) = width (IHDR s) /\
  height (updated_IHDR s) = height (IHDR s) /\
  bit_depth (updated_IHDR s) = 8 /\
  color_type (updated_IHDR s) =
    (if color_type (IHDR s) =? PNG_COLOR_TYPE_GRAY
     then (if num_trans s =? 0 then PNG_COLOR_TYPE_GRAY
           else PNG_COLOR_TYPE_GRAY_ALPHA)
     else if color_type (IHDR s) =? PNG_COLOR_TYPE_GRAY_ALPHA
          then PNG_COLOR_TYPE_RGB_ALPHA
          else color_type (IHDR s)).
Proof.
  intros Hc. apply png_check_IHDR_inv in Hc.
  destruct Hc as (_ & _ & Hd & Hct & Hpal & Hcol).
  unfold updated_IHDR. rewrite requested_spec. cbv zeta.
  unfold png_read_transform_info.
  cbn [PNG_EXPAND PNG_EXPAND_tRNS PNG_16_TO_8 PNG_GRAY_TO_RGB PNG_PACK].
  destruct Hct as [Hct|[Hct|[Hct|[Hct|Hct]]]]; rewrite Hct;
    cbn -[Z.ltb Z.eqb num_trans];
    destruct Hd as [Hd|[Hd|[Hd|[Hd|Hd]]]]; rewrite Hd in *;
    try (exfalso; lia);
    cbn -[num_trans]; try (destruct (num_trans s =? 0));
    cbn; repeat split; reflexivity.
Qed.
(** ** Reading the rows *)

Lemma firstn_app_exact {A} (l1 l2 : list A) n :
  length l1 = n -> firstn n (l1 ++ l2) = l1.
Proof.
  intros <-. rewrite <- (Nat.add_0_r (length l1)), firstn_app_2.
  simpl. apply app_nil_r.
Qed.

Lemma skipn_app_exact {A} (l1 l2 : list A) n m :
  length l1 = n -> skipn (n + m) (l1 ++ l2) = skipn m l2.
Proof.
  intros <-. rewrite skipn_app, skipn_all2 by lia.
  replace (length l1 + m - length l1)%nat with m by lia. reflexivity.
Qed.

Section ReadRows.

Variable rd : png_reader.
Variables P H : nat.

(** Every row of the file is present and leaves the transformations with [P]
    bytes. *)
Hypothesis rows :
  forall k, (k < H)%nat ->
    exists r, source_row (rd_stream rd) k = Some r /\
              length (row_samples (png_do_read_transformations rd r)) = P.

(** Through row pointers [k * P] into a buffer of [H * P] bytes, rows
    [i .. i+n-1] replace exactly their own bytes. *)
Lemma read_rows_spec n :
  forall i mem,
    (i + n <= H)%nat -> length mem = (H * P)%nat ->
    read_rows rd (map (fun k => (k * P)%nat) (seq 0 H)) i n mem
    = ret (firstn (i * P) mem
           ++ concat (map (decoded_row rd) (seq i n))
           ++ skipn ((i + n) * P) mem).
Proof.
  induction n as [|n IH]; intros i mem Hin Hmem.
  - simpl. rewrite Nat.add_0_r, firstn_skipn. reflexivity.
  - simpl read_rows.
    destruct (rows i) as [r [Hr Hlen]]; [lia|]. rewrite Hr.
    rewrite nth_error_map, nth_error_seq.
    destruct (Nat.ltb_spec i H) as [_|Hge]; [|lia].
    cbn [option_map defined Nat.add]. rewrite bind_ret_l.
    set (row := row_samples (png_do_read_transformations rd r)) in *.
    assert (HiP : (i * P + P <= H * P)%nat) by nia.
    unfold Mem.write.
    destruct (Nat.leb_spec (i * P + length row) (length mem)) as [_|Hgt];
      [|lia].
    cbn [defined]. rewrite bind_ret_l.
    assert (HA : length (firstn (i * P) mem) = (i * P)%nat)
      by (rewrite length_firstn; lia).
    rewrite IH.
    + f_equal. rewrite Hlen.
      replace (S i * P)%nat with (i * P + P)%nat by lia.
      replace ((S i + n) * P)%nat with ((i * P + P) + n * P)%nat by lia.
      rewrite (app_assoc (firstn (i * P) mem) row).
      rewrite firstn_app_exact by (rewrite length_app; lia).
      rewrite skipn_app_exact by (rewrite length_app; lia).
      rewrite skipn_skipn.
      replace (n * P + (i * P + P))%nat with ((i + S n) * P)%nat by lia.
      cbn [seq map concat]. unfold decoded_row at 2. rewrite Hr.
      fold row. rewrite <- !app_assoc. reflexivity.
    + lia.
    + rewrite !length_app, HA, length_skipn. lia.
Qed.

(** The whole image: the rows one after the other. *)
Lemma read_rows_all mem :
  length mem = (H * P)%nat ->
  read_rows rd (map (fun k => (k * P)%nat) (seq 0 H)) 0 H mem
  = ret (concat (map (decoded_row rd) (seq 0 H))).
Proof.
  intros Hmem. rewrite read_rows_spec by (try lia; assumption).
  f_equal. simpl. rewrite skipn_all2 by lia. apply app_nil_r.
Qed.

End ReadRows.

(** Consecutive slices of [n] bytes are the front of the buffer. *)
Lemma concat_slices (l : list Z) (n : nat) :
  forall H, (H * n <= length l)%nat ->
    concat (map (fun k => firstn n (skipn (k * n) l)) (seq 0 H))
    = firstn (H * n) l.
Proof.
  induction H as [|H IH]; intros Hlen; [reflexivity|].
  rewrite seq_S, map_app, concat_app, IH by lia.
  cbn [map concat Nat.add]. rewrite app_nil_r.
  replace (S H * n)%nat with (H * n + n)%nat by lia.
  assert (HA : length (firstn (H * n) l) = (H * n)%nat)
    by (rewrite length_firstn; lia).
  symmetry. rewrite <- (firstn_skipn (H * n) l) at 1.
  rewrite firstn_app, HA, firstn_all2 by lia.
  replace (H * n + n - H * n)%nat with n by lia. reflexivity.
Qed.
(** ** load on a readable file, when libpng reports no error *)

Lemma scanline_ptrs im H :
  0 <= pitch im ->
  map (scanline_ptr im) (seq 0 H)
  = map (fun k => (k * Z.to_nat (pitch im))%nat) (seq 0 H).
Proof.
  intros Hp. apply map_ext. intros k. unfold scanline_ptr.
  rewrite Z2Nat.inj_mul, Nat2Z.id by lia. reflexivity.
Qed.

Lemma request_transforms_stream ct rd :
  rd_stream (request_transforms ct rd) = rd_stream rd.
Proof.
  unfold request_transforms, png_set_packing, png_set_interlace_handling,
    png_set_strip_16, png_set_expand, png_set_gray_to_rgb.
  cbn [rd_stream set_transforms].
  destruct (bit_depth (IHDR (rd_stream rd)) <? 8);
    cbn [rd_stream set_transforms];
    destruct (interlace_method (IHDR (rd_stream rd)) =? PNG_INTERLACE_NONE);
    destruct (ct =? PNG_COLOR_TYPE_GRAY);
    destruct (ct =? PNG_COLOR_TYPE_GRAY_ALPHA); reflexivity.
Qed.

Lemma request_transforms_info ct rd :
  rd_info (request_transforms ct rd) = rd_info rd.
Proof.
  unfold request_transforms, png_set_packing, png_set_interlace_handling,
    png_set_strip_16, png_set_expand, png_set_gray_to_rgb.
  cbn [rd_stream set_transforms].
  destruct (bit_depth (IHDR (rd_stream rd)) <? 8);
    cbn [rd_stream set_transforms];
    destruct (interlace_method (IHDR (rd_stream rd)) =? PNG_INTERLACE_NONE);
    destruct (ct =? PNG_COLOR_TYPE_GRAY);
    destruct (ct =? PNG_COLOR_TYPE_GRAY_ALPHA); reflexivity.
Qed.

Section Readable.

Variable e : env.
Variable s : png_datastream.
Hypothesis no_fault : forall c, png_fault e c = false.
Hypothesis Hreadable : readable s.

Lemma png_read_info_readable o :
  png_read_info e (chunkFn (host e)) o s
  = ret ({| rd_stream := s; rd_info := IHDR s;
            rd_transformations := no_transforms |},
         offsets_after (host e) (unknown_before_IDAT s) o).
Proof.
  destruct Hreadable as (Hc & Hpal & Hbefore & _ & _).
  unfold png_read_info, may_fail. rewrite no_fault, bind_ret_l, Hc.
  cbn [negb].
  replace ((color_type (IHDR s) =? PNG_COLOR_TYPE_PALETTE)
           && (length (PLTE s) =? 0)%nat) with false.
  - rewrite png_handle_unknown_ancillary by exact Hbefore. reflexivity.
  - symmetry. apply andb_false_iff.
    destruct (Z.eqb_spec (color_type (IHDR s)) PNG_COLOR_TYPE_PALETTE)
      as [Hct|Hct]; [right | left; reflexivity].
    apply Nat.eqb_neq. specialize (Hpal Hct).
    destruct (PLTE s); [contradiction | discriminate].
Qed.

(** The guarded part of [load], with the libpng calls that succeed
    resolved. *)
Lemma load_body_readable :
  load_body e s =
  (let offsets :=
     offsets_after (host e) (unknown_before_IDAT s) (stack_offsets e) in
   let rd := reader_of s in
   let hdr := updated_IHDR s in
   format <- format_of (color_type hdr) (bit_depth hdr) ;;
   let retval := Image_new e (width hdr) (height hdr) format in
   let scanlines :=
     map (scanline_ptr retval) (seq 0 (Z.to_nat (height hdr))) in
   retval <- (if color_type hdr =? PNG_COLOR_TYPE_PALETTE
              then load_palette rd retval else ret retval) ;;
   let retval := set_offsets retval offsets in
   pixels <- read_rows rd scanlines 0 (Z.to_nat (height (IHDR s)))
                       (img_data retval) ;;
   ret (set_data retval pixels)).
Proof.
  destruct Hreadable as (_ & _ & _ & Hafter & _).
  unfold load_body. rewrite png_read_info_readable, bind_ret_l.
  cbv beta iota zeta.
  unfold png_read_update_info, png_read_image, png_read_end, may_fail.
  rewrite !no_fault. repeat (rewrite bind_ret_l; cbv beta).
  cbn [rd_stream rd_info rd_transformations png_get_IHDR].
  rewrite !request_transforms_stream, !request_transforms_info.
  cbn [rd_stream rd_info].
  rewrite (png_handle_unknown_ancillary _ _ Hafter).
  reflexivity.
Qed.

(** *** Colour types whose samples reach the image as they are *)

Hypothesis direct :
  color_type (IHDR s) = PNG_COLOR_TYPE_RGB \/
  color_type (IHDR s) = PNG_COLOR_TYPE_RGB_ALPHA \/
  color_type (IHDR s) = PNG_COLOR_TYPE_PALETTE.
Hypothesis not_16 : bit_depth (IHDR s) <> 16.

Lemma direct_row l :
  row_samples (png_do_read_transformations (reader_of s)
                 (mk_row (color_type (IHDR s)) (bit_depth (IHDR s)) l)) = l.
Proof.
  unfold png_do_read_transformations, reader_of.
  cbn [rd_transformations rd_stream]. rewrite requested_spec. cbv zeta.
  cbn [PNG_EXPAND PNG_GRAY_TO_RGB PNG_16_TO_8 PNG_PACK].
  replace ((color_type (IHDR s) =? PNG_COLOR_TYPE_GRAY)
           || (color_type (IHDR s) =? PNG_COLOR_TYPE_GRAY_ALPHA)) with false
    by (destruct direct as [->|[->| ->]]; reflexivity).
  replace (color_type (IHDR s) =? PNG_COLOR_TYPE_GRAY_ALPHA) with false
    by (destruct direct as [->|[->| ->]]; reflexivity).
  unfold png_do_chop. cbn [row_bit_depth].
  destruct (Z.eqb_spec (bit_depth (IHDR s)) 16) as [E|_]; [contradiction|].
  destruct (bit_depth (IHDR s) <? 8) eqn:E8; [|reflexivity].
  unfold png_do_unpack. cbn [row_bit_depth]. rewrite E8. reflexivity.
Qed.

Lemma enough_samples : (row_count s * samples_per_row s <= length (samples s))%nat.
Proof.
  destruct Hreadable as (Hc & _ & _ & _ & Hlen).
  apply png_check_IHDR_inv in Hc. destruct Hc as (Hw & Hh & _).
  assert (Hch : 0 <= channels (color_type (IHDR s)))
    by (destruct direct as [->|[->| ->]]; cbn; lia).
  unfold row_count, samples_per_row. rewrite <- Z2Nat.inj_mul by nia.
  apply Nat2Z.inj_le. rewrite Z2Nat.id by nia. lia.
Qed.

Lemma direct_source_row k :
  (k < row_count s)%nat ->
  source_row s k
  = Some (mk_row (color_type (IHDR s)) (bit_depth (IHDR s))
                 (firstn (samples_per_row s) (skipn (k * samples_per_row s) (samples s)))).
Proof.
  intros Hk. pose proof enough_samples as Hlen.
  unfold source_row, Mem.read. fold (samples_per_row s).
  destruct (Nat.leb_spec (k * samples_per_row s + samples_per_row s)
              (length (samples s))) as [_|Hgt];
    [reflexivity | nia].
Qed.

Lemma direct_decoded_row k :
  (k < row_count s)%nat ->
  decoded_row (reader_of s) k = firstn (samples_per_row s) (skipn (k * samples_per_row s) (samples s)).
Proof.
  intros Hk. unfold decoded_row. cbn [rd_stream reader_of].
  rewrite direct_source_row by exact Hk. apply direct_row.
Qed.

(** The rows [png_read_image] stores through the row pointers of an image
    whose scanlines have the size of the file's rows: the samples of the
    file, in order. *)
Lemma read_rows_direct im mem :
  pitch im = width (IHDR s) * channels (color_type (IHDR s)) ->
  length mem = (row_count s * samples_per_row s)%nat ->
  read_rows (reader_of s) (map (scanline_ptr im) (seq 0 (row_count s)))
    0 (row_count s) mem
  = ret (firstn (row_count s * samples_per_row s) (samples s)).
Proof.
  intros Hpitch Hlen.
  assert (Hp : 0 <= pitch im).
  { rewrite Hpitch. destruct Hreadable as (Hc & _).
    apply png_check_IHDR_inv in Hc. destruct Hc as (Hw & _).
    destruct direct as [->|[->| ->]]; cbn; lia. }
  rewrite scanline_ptrs by exact Hp. rewrite Hpitch.
  fold (samples_per_row s).
  rewrite (read_rows_all (reader_of s) (samples_per_row s) (row_count s)).
  - f_equal. rewrite <- concat_slices by apply enough_samples.
    f_equal. apply map_ext_in. intros k Hk. apply in_seq in Hk.
    apply direct_decoded_row. lia.
  - intros k Hk. eexists. split.
    + cbn [rd_stream reader_of]. apply direct_source_row, Hk.
    + rewrite direct_row. rewrite length_firstn, length_skipn.
      pose proof enough_samples. nia.
  - exact Hlen.
Qed.

End Readable.

(** ** The palette of a paletted image *)

Lemma mapM_map {A B} (f : A -> option B) (g : A -> B) (l : list A) :
  (forall a, In a l -> f a = Some (g a)) -> mapM f l = Some (map g l).
Proof.
  induction l as [|a l IH]; intros H; [reflexivity|].
  simpl. rewrite (H a (or_introl eq_refl)), IH; [reflexivity|].
  intros b Hb. apply H. right. exact Hb.
Qed.

(** With a transparency table the loop is defined at every index, and entry
    [i] is colour [i] with alpha [i] of the table, or 0xFF beyond it. *)
Lemma build_paldata_spec (colors : list png_color) (alpha : list Z) :
  build_paldata colors (Z.of_nat (length colors)) alpha
                (Z.of_nat (length alpha))
  = Some (map (fun i => with_alpha alpha i (nth i colors (mk_color 0 0 0)))
              (seq 0 (length colors))).
Proof.
  unfold build_paldata. rewrite Nat2Z.id. apply mapM_map.
  intros i Hi. apply in_seq in Hi. unfold paldata_entry, with_alpha.
  rewrite (nth_error_nth' colors (mk_color 0 0 0)) by lia.
  destruct (Z.ltb_spec (Z.of_nat i) (Z.of_nat (length alpha))) as [Hlt|Hge].
  - destruct (nth_error alpha i) eqn:E; [reflexivity|].
    apply nth_error_None in E. lia.
  - destruct (nth_error alpha i) eqn:E; [|reflexivity].
    assert (nth_error alpha i <> None) as Hn by congruence.
    apply nth_error_Some in Hn. lia.
Qed.

(** The copy without transparency reads [pal] at [k], [k+1], ... once per
    entry of the image's palette: it is defined exactly when all those
    positions are inside the PLTE array, and [pal] ends [length entries]
    further. *)
Lemma copy_PLTE_spec (pal : list png_color) (entries : list Rgb) :
  forall k,
    (k <= length pal)%nat ->
    copy_PLTE entries pal k =
    if (k + length entries <=? length pal)%nat
    then Some (map rgb_of (firstn (length entries) (skipn k pal)),
               (k + length entries)%nat)
    else None.
Proof.
  induction entries as [|c rest IH]; intros k Hk.
  - simpl. rewrite Nat.add_0_r.
    destruct (Nat.leb_spec k (length pal)) as [_|Hgt]; [reflexivity | lia].
  - cbn [copy_PLTE length].
    destruct (nth_error pal k) as [p|] eqn:E.
    + assert (Hlt : (k < length pal)%nat)
        by (apply nth_error_Some; congruence).
      rewrite IH by lia.
      replace (k + S (length rest))%nat with (S k + length rest)%nat by lia.
      destruct (S k + length rest <=? length pal)%nat; [|reflexivity].
      f_equal. f_equal.
      assert (Hs : skipn k pal = p :: skipn (S k) pal).
      { clear -E. revert k E. induction pal as [|q pal IHp];
          intros [|k] E; simpl in *; try discriminate.
        - congruence.
        - apply IHp, E. }
      rewrite Hs. reflexivity.
    + apply nth_error_None in E.
      destruct (Nat.leb_spec (k + S (length rest)) (length pal)); [lia|].
      reflexivity.
Qed.

Lemma load_palette_tRNS s t im :
  tRNS s = Some t ->
  color_type (IHDR s) = PNG_COLOR_TYPE_PALETTE ->
  load_palette (reader_of s) im
  = ret (set_palette im
           (Palette_rgba
              (map (fun i => with_alpha (trans_alpha t) i
                               (nth i (PLTE s) (mk_color 0 0 0)))
                   (seq 0 (length (PLTE s))))
              (Z.of_nat (length (PLTE s))))).
Proof.
  intros Ht Hct. unfold load_palette, png_get_valid_tRNS, png_get_tRNS,
    png_get_PLTE, num_trans.
  cbn [rd_stream reader_of]. rewrite Ht, Hct. cbn [Z.eqb Pos.eqb PNG_COLOR_TYPE_PALETTE].
  change (PNG_COLOR_TYPE_PALETTE =? PNG_COLOR_TYPE_PALETTE) with true.
  cbv iota. rewrite build_paldata_spec. reflexivity.
Qed.

Lemma load_palette_no_tRNS s im :
  tRNS s = None ->
  load_palette (reader_of s) im
  = match copy_PLTE (palette_entries (img_palette im)) (PLTE s) 0 with
    | Some (cs, _) => ret (set_palette im (Palette_rgb cs))
    | None => undefined
    end.
Proof.
  intros Ht. unfold load_palette, png_get_valid_tRNS, png_get_PLTE.
  cbn [rd_stream reader_of]. rewrite Ht.
  destruct (copy_PLTE _ _ 0) as [[cs k]|]; reflexivity.
Qed.
(** ** The image load builds *)

Section Direct.

Variable e : env.
Variable s : png_datastream.
Hypothesis no_fault : forall c, png_fault e c = false.
Hypothesis Hreadable : readable s.
Hypothesis direct :
  color_type (IHDR s) = PNG_COLOR_TYPE_RGB \/
  color_type (IHDR s) = PNG_COLOR_TYPE_RGB_ALPHA \/
  color_type (IHDR s) = PNG_COLOR_TYPE_PALETTE.
Hypothesis not_16 : bit_depth (IHDR s) <> 16.

(** For RGB, RGB with alpha and paletted files of at most 8 bits, once the
    format is chosen and the palette step has run, the image receives the
    samples of the file unchanged, and the offsets the callback left before
    the image data. *)
Lemma load_body_direct fmt p :
  format_of (color_type (updated_IHDR s)) (bit_depth (updated_IHDR s))
    = ret fmt ->
  pixel_format.bytes fmt = channels (color_type (IHDR s)) ->
  (if color_type (updated_IHDR s) =? PNG_COLOR_TYPE_PALETTE
   then load_palette (reader_of s)
          (Image_new e (width (IHDR s)) (height (IHDR s)) fmt)
   else ret (Image_new e (width (IHDR s)) (height (IHDR s)) fmt))
    = ret (set_palette (Image_new e (width (IHDR s)) (height (IHDR s)) fmt) p)
  ->
  load_body e s =
  ret (mkImage (width (IHDR s)) (height (IHDR s)) fmt
         (firstn (Z.to_nat (width (IHDR s) * height (IHDR s)
                            * channels (color_type (IHDR s))))
                 (samples s))
         p
         (offsets_after (host e) (unknown_before_IDAT s) (stack_offsets e))).
Proof.
  intros Hfmt Hbytes Hpal.
  pose proof Hreadable as (Hc & _).
  destruct (updated_IHDR_spec s Hc) as (Hw & Hh & _ & _).
  apply png_check_IHDR_inv in Hc. destruct Hc as (Hw0 & Hh0 & _).
  assert (Hch : 0 <= channels (color_type (IHDR s)))
    by (destruct direct as [->|[->| ->]]; cbn; lia).
  rewrite (load_body_readable e s no_fault Hreadable). cbv zeta.
  rewrite Hfmt, bind_ret_l, Hw, Hh, Hpal, bind_ret_l.
  change (Z.to_nat (height (IHDR s))) with (row_count s).
  rewrite (read_rows_direct s Hreadable direct not_16).
  - rewrite bind_ret_l. cbn [set_data set_offsets set_palette
      Image_new img_width img_height img_format img_palette img_offsets].
    unfold set_data, set_offsets, set_palette, Image_new.
    cbn [img_width img_height img_format img_palette img_offsets].
    unfold row_count, samples_per_row.
    rewrite <- Z2Nat.inj_mul by nia.
    replace (height (IHDR s) * (width (IHDR s) * channels (color_type (IHDR s))))
      with (width (IHDR s) * height (IHDR s) * channels (color_type (IHDR s)))
      by ring.
    reflexivity.
  - unfold pitch. cbn. rewrite Hbytes. reflexivity.
  - cbn [img_data set_offsets set_palette Image_new].
    unfold row_count, samples_per_row.
    rewrite repeat_length, Hbytes, <- Z2Nat.inj_mul by nia. f_equal. ring.
Qed.

End Direct.

(** [load] in an environment where the handles can be created. *)
Lemma load_of_body e s w :
  create_struct_ok e = true -> create_info_ok e = true ->
  forall r, load_body e s = r ->
  load e s w = setjmp load_trap r (reader_acquired w).
Proof. intros Hs Hi r <-. apply load_frame; assumption. Qed.

(** ** save *)

Lemma save_frame e im w :
  create_struct_ok e = true -> create_info_ok e = true ->
  save e im w = setjmp save_trap (save_body e im) (writer_acquired w).
Proof.
  intros Hs Hi. unfold save, png_create_write_struct, png_create_info_struct.
  rewrite Hs, Hi. reflexivity.
Qed.

Lemma firstn_add {A} (a b : nat) (l : list A) :
  firstn (a + b) l = firstn a l ++ firstn b (skipn a l).
Proof.
  revert l. induction a as [|a IH]; intros l; [reflexivity|].
  destruct l as [|x l]; simpl.
  - now rewrite firstn_nil.
  - now rewrite IH.
Qed.

Section WriteRows.

Variable hdr : png_IHDR.
Variable mem : list Z.
Variables P H : nat.
Hypothesis Hrow : rowbytes hdr = P.
Hypothesis Hmem : length mem = (H * P)%nat.

(** Through row pointers [k * P] into the buffer, rows [i .. i+n-1] go out as
    the bytes [i * P .. (i+n) * P - 1] of the buffer, in order. *)
Lemma write_rows_spec n :
  forall i w,
    (i + n <= H)%nat ->
    write_rows hdr (map (fun k => (k * P)%nat) (seq 0 H)) mem i n w
    = (Ret tt, append_samples (firstn (n * P) (skipn (i * P) mem)) w).
Proof.
  induction n as [|n IH]; intros i w Hin.
  - simpl. unfold ret, append_samples. destruct w as [ev [h u sm en]]; simpl.
    now rewrite app_nil_r.
  - simpl write_rows. rewrite nth_error_map, nth_error_seq.
    destruct (Nat.ltb_spec i H) as [_|Hge]; [|lia].
    cbn [option_map defined Nat.add]. rewrite bind_ret_l.
    unfold Mem.read. rewrite Hrow.
    destruct (Nat.leb_spec (i * P + P) (length mem)) as [_|Hgt]; [|nia].
    cbn [defined]. rewrite bind_ret_l.
    unfold bind at 1. unfold modify_out at 1.
    rewrite IH by lia.
    unfold append_samples. cbn [events out os_IHDR os_unknown os_samples os_IEND].
    f_equal. f_equal. f_equal.
    rewrite <- app_assoc. f_equal.
    replace (S n * P)%nat with (P + n * P)%nat by lia.
    rewrite firstn_add, skipn_skipn. reflexivity.
Qed.

End WriteRows.

Lemma compatible_color_type f :
  compatible f ->
  exists ct, png_color_type_of f = ret ct /\
             pixel_format.bytes f = channels ct /\
             (ct = PNG_COLOR_TYPE_RGB \/ ct = PNG_COLOR_TYPE_RGB_ALPHA) /\
             ct = (if pixel_format.bytes f =? 3 then PNG_COLOR_TYPE_RGB
                   else PNG_COLOR_TYPE_RGB_ALPHA).
Proof.
  intros [->|[->|[->| ->]]]; eexists; (split; [reflexivity|]);
    cbn; auto.
Qed.

Lemma save_compatible e im w ct :
  healthy e -> valid_image im -> non_empty im ->
  png_color_type_of (img_format im) = ret ct ->
  pixel_format.bytes (img_format im) = channels ct ->
  ct = PNG_COLOR_TYPE_RGB \/ ct = PNG_COLOR_TYPE_RGB_ALPHA ->
  save e im w = (Ret tt, saved im ct w).
Proof.
  intros (Hs & Hi & Hf) (Hw0 & Hh0 & Hlen) (Hw & Hh) Hct Hbytes Hrgb.
  rewrite save_frame by assumption.
  unfold setjmp, save_body. rewrite Hct, bind_ret_l.
  unfold png_set_IHDR, png_write_info, png_write_image, png_write_end,
    may_fail. rewrite !Hf. rewrite bind_ret_l.
  assert (Hcheck : png_check_IHDR
            {| width := img_width im; height := img_height im;
               bit_depth := 8; color_type := ct;
               interlace_method := PNG_INTERLACE_NONE |} = true).
  { unfold png_check_IHDR. cbn [width height bit_depth color_type
      interlace_method].
    replace (0 <? img_width im) with true by (symmetry; apply Z.ltb_lt; lia).
    replace (0 <? img_height im) with true by (symmetry; apply Z.ltb_lt; lia).
    destruct Hrgb as [-> | ->]; reflexivity. }
  rewrite Hcheck, bind_ret_l.
  assert (Hp : 0 <= pitch im) by (unfold pitch; rewrite Hbytes;
    destruct Hrgb as [-> | ->]; cbn; lia).
  rewrite scanline_ptrs by exact Hp.
  cbn [height].
  unfold bind at 1. unfold bind at 1. unfold ret at 1. unfold modify_out at 1.
  unfold bind at 1. unfold bind at 1. unfold ret at 1.
  rewrite (write_rows_spec _ (img_data im) (Z.to_nat (pitch im))
             (Z.to_nat (img_height im))).
  - rewrite Nat.mul_0_l, skipn_O, firstn_all2.
    + reflexivity.
    + rewrite <- Z2Nat.inj_mul by lia. apply Nat2Z.inj_le.
      rewrite Z2Nat.id by nia. lia.
  - unfold rowbytes, pitch. cbn [width color_type bit_depth].
    rewrite Hbytes. f_equal. rewrite Z.div_mul by lia. reflexivity.
  - apply Nat2Z.inj. rewrite Nat2Z.inj_mul, !Z2Nat.id by lia. exact Hlen.
  - lia.
Qed.

(** ** Gray with alpha *)

Lemma gray_alpha_to_rgba_length (m : nat) :
  forall l, length l = (2 * m)%nat ->
            length (gray_alpha_to_rgba l) = (4 * m)%nat.
Proof.
  induction m as [|m IH]; intros l Hl.
  - destruct l; [reflexivity | discriminate].
  - destruct l as [|g [|a l]]; simpl in Hl; try lia.
    simpl. rewrite (IH l) by lia. lia.
Qed.

Lemma gray_alpha_to_rgba_app (m : nat) :
  forall l1 l2, length l1 = (2 * m)%nat ->
    gray_alpha_to_rgba (l1 ++ l2)
    = gray_alpha_to_rgba l1 ++ gray_alpha_to_rgba l2.
Proof.
  induction m as [|m IH]; intros l1 l2 Hl.
  - destruct l1; [reflexivity | discriminate].
  - destruct l1 as [|g [|a l1]]; simpl in Hl; try lia.
    simpl. rewrite (IH l1) by lia. reflexivity.
Qed.

(** Pixel [j] of the output repeats the gray sample of pixel [j] of the input
    in the three colour channels and keeps its alpha. *)
Lemma gray_alpha_to_rgba_pixel (j : nat) :
  forall l, (2 * j + 1 < length l)%nat ->
    nth (4 * j) (gray_alpha_to_rgba l) 0 = nth (2 * j) l 0 /\
    nth (4 * j + 1) (gray_alpha_to_rgba l) 0 = nth (2 * j) l 0 /\
    nth (4 * j + 2) (gray_alpha_to_rgba l) 0 = nth (2 * j) l 0 /\
    nth (4 * j + 3) (gray_alpha_to_rgba l) 0 = nth (2 * j + 1) l 0.
Proof.
  induction j as [|j IH]; intros l Hl;
    destruct l as [|g [|a l]]; simpl in Hl; try lia.
  - repeat split; reflexivity.
  - replace (4 * S j)%nat with (S (S (S (S (4 * j))))) by lia.
    replace (2 * S j)%nat with (S (S (2 * j))) by lia.
    cbn [gray_alpha_to_rgba nth Nat.add].
    apply IH. lia.
Qed.

Lemma concat_gray_alpha_slices (l : list Z) (m : nat) :
  forall H, (H * (2 * m) <= length l)%nat ->
    concat (map (fun k => gray_alpha_to_rgba
                            (firstn (2 * m) (skipn (k * (2 * m)) l)))
                (seq 0 H))
    = gray_alpha_to_rgba (firstn (H * (2 * m)) l).
Proof.
  induction H as [|H IH]; intros Hlen; [reflexivity|].
  rewrite seq_S, map_app, concat_app, IH by lia.
  cbn [map concat Nat.add]. rewrite app_nil_r.
  replace (S H * (2 * m))%nat with (H * (2 * m) + 2 * m)%nat by lia.
  rewrite firstn_add.
  rewrite (gray_alpha_to_rgba_app (H * m)); [reflexivity|].
  rewrite length_firstn. lia.
Qed.

Section GrayAlpha.

Variable e : env.
Variable s : png_datastream.
Hypothesis Hhealthy : healthy e.
Hypothesis Hreadable : readable s.
Hypothesis Hct : color_type (IHDR s) = PNG_COLOR_TYPE_GRAY_ALPHA.
Hypothesis Hdepth : bit_depth (IHDR s) = 8.

Lemma gray_alpha_row l :
  row_samples (png_do_read_transformations (reader_of s)
                 (mk_row PNG_COLOR_TYPE_GRAY_ALPHA 8 l))
  = gray_alpha_to_rgba l.
Proof.
  unfold png_do_read_transformations, reader_of.
  cbn [rd_transformations rd_stream]. rewrite requested_spec. cbv zeta.
  cbn [PNG_EXPAND PNG_EXPAND_tRNS PNG_GRAY_TO_RGB PNG_16_TO_8 PNG_PACK].
  rewrite Hct, Hdepth. cbn -[num_trans]. rewrite andb_false_r. reflexivity.
Qed.

Lemma gray_alpha_dimensions :
  0 < width (IHDR s) /\ 0 < height (IHDR s) /\
  (row_count s * (2 * Z.to_nat (width (IHDR s))) <= length (samples s))%nat.
Proof.
  destruct Hreadable as (Hc & _ & _ & _ & Hlen).
  apply png_check_IHDR_inv in Hc. destruct Hc as (Hw & Hh & _).
  split; [exact Hw | split; [exact Hh|]].
  rewrite Hct in Hlen. change (channels PNG_COLOR_TYPE_GRAY_ALPHA) with 2 in Hlen.
  unfold row_count. apply Nat2Z.inj_le.
  rewrite Nat2Z.inj_mul, Nat2Z.inj_mul, !Z2Nat.id by lia. lia.
Qed.

Lemma gray_alpha_source_row k :
  (k < row_count s)%nat ->
  source_row s k
  = Some (mk_row PNG_COLOR_TYPE_GRAY_ALPHA 8
            (firstn (2 * Z.to_nat (width (IHDR s)))
                    (skipn (k * (2 * Z.to_nat (width (IHDR s))))
                           (samples s)))).
Proof.
  intros Hk. destruct gray_alpha_dimensions as (Hw & Hh & Hlen).
  unfold source_row, Mem.read. rewrite Hct, Hdepth.
  change (channels PNG_COLOR_TYPE_GRAY_ALPHA) with 2.
  replace (Z.to_nat (width (IHDR s) * 2))
    with (2 * Z.to_nat (width (IHDR s)))%nat
    by (rewrite Z2Nat.inj_mul by lia; change (Z.to_nat 2) with 2%nat; lia).
  destruct (Nat.leb_spec
              (k * (2 * Z.to_nat (width (IHDR s)))
               + 2 * Z.to_nat (width (IHDR s)))
              (length (samples s))) as [_|Hgt]; [reflexivity | nia].
Qed.

(** An 8-bit gray file with alpha is returned as an rgba image in which every
    pixel has the gray sample in its three colour channels, and the alpha of
    the file. *)
Lemma load_gray_alpha w :
  load e s w
  = (Ret (mkImage (width (IHDR s)) (height (IHDR s)) pixel_format.rgba
            (gray_alpha_to_rgba
               (firstn (row_count s * (2 * Z.to_nat (width (IHDR s))))
                       (samples s)))
            Palette_none
            (offsets_after (host e) (unknown_before_IDAT s)
                           (stack_offsets e))),
     reader_acquired w).
Proof.
  destruct Hhealthy as (Hs & Hi & Hf).
  destruct gray_alpha_dimensions as (Hw & Hh & Hlen).
  rewrite load_frame by assumption. unfold setjmp.
  rewrite (load_body_readable e s Hf Hreadable). cbv zeta.
  destruct (updated_IHDR_spec s (proj1 Hreadable)) as (Hw' & Hh' & Hd' & Hct').
  rewrite Hct in Hct'. cbn in Hct'.
  rewrite Hct', Hd', Hw', Hh'.
  change (format_of 6 8) with (@ret pixel_format.t pixel_format.rgba).
  rewrite bind_ret_l.
  change (6 =? PNG_COLOR_TYPE_PALETTE) with false. cbv iota.
  rewrite bind_ret_l.
  rewrite scanline_ptrs by (unfold pitch; cbn; lia).
  change (Z.to_nat (height (IHDR s))) with (row_count s).
  rewrite (read_rows_all (reader_of s)
             (Z.to_nat (pitch (Image_new e (width (IHDR s)) (height (IHDR s))
                                  pixel_format.rgba)))
             (row_count s)).
  - rewrite bind_ret_l.
    rewrite <- concat_gray_alpha_slices by exact Hlen.
    assert (Hrows :
      map (decoded_row (reader_of s)) (seq 0 (row_count s))
      = map (fun k => gray_alpha_to_rgba
                        (firstn (2 * Z.to_nat (width (IHDR s)))
                           (skipn (k * (2 * Z.to_nat (width (IHDR s))))
                                  (samples s))))
            (seq 0 (row_count s))).
    { apply map_ext_in. intros k Hk. apply in_seq in Hk.
      unfold decoded_row. cbn [rd_stream reader_of].
      rewrite gray_alpha_source_row by lia. apply gray_alpha_row. }
    rewrite Hrows. reflexivity.
  - intros k Hk. eexists. split.
    + cbn [rd_stream reader_of]. apply gray_alpha_source_row, Hk.
    + rewrite gray_alpha_row.
      rewrite (gray_alpha_to_rgba_length (Z.to_nat (width (IHDR s)))).
      * unfold pitch. cbn [img_width img_format Image_new pixel_format.bytes].
        rewrite Z2Nat.inj_mul by lia. change (Z.to_nat 4) with 4%nat. lia.
      * rewrite length_firstn, length_skipn. nia.
  - cbn [img_data set_offsets Image_new]. rewrite repeat_length.
    unfold pitch, row_count.
    cbn [img_width img_format pixel_format.bytes Image_new].
    rewrite <- Z2Nat.inj_mul by lia. f_equal. ring.
Qed.

End GrayAlpha.

Example load_gray_alpha_sample :
  fst (load Sample.env0 Sample.gray_alpha_1x1 initial_world)
  = Ret (mkImage 1 1 pixel_format.rgba [100; 100; 100; 255]
                 Palette_none (7, -9)).
Proof. reflexivity. Qed.

(** ** No unknown chunk is ever written *)

Lemma keeps_ret {A} (a : A) : keeps_unknown (ret a).
Proof. intros w. reflexivity. Qed.

Lemma keeps_throw {A} x : keeps_unknown (@throw A x).
Proof. intros w. reflexivity. Qed.

Lemma keeps_png_error {A} : keeps_unknown (@png_error A).
Proof. intros w. reflexivity. Qed.

Lemma keeps_undefined {A} : keeps_unknown (@undefined A).
Proof. intros w. reflexivity. Qed.

Lemma keeps_defined {A} (o : option A) : keeps_unknown (defined o).
Proof. destruct o; [apply keeps_ret | apply keeps_undefined]. Qed.

Lemma keeps_may_fail e c : keeps_unknown (may_fail e c).
Proof.
  unfold may_fail. destruct (png_fault e c);
    [apply keeps_png_error | apply keeps_ret].
Qed.

Lemma keeps_log ev : keeps_unknown (log ev).
Proof. intros w. reflexivity. Qed.

Lemma keeps_modify_out f :
  (forall o, os_unknown (f o) = os_unknown o) -> keeps_unknown (modify_out f).
Proof. intros Hf w. apply Hf. Qed.

Lemma keeps_bind {A B} (m : M A) (k : A -> M B) :
  keeps_unknown m -> (forall a, keeps_unknown (k a)) ->
  keeps_unknown (bind m k).
Proof.
  intros Hm Hk w. unfold bind. specialize (Hm w).
  destruct (m w) as [[a| | |] w1]; simpl in Hm; try exact Hm.
  rewrite Hk. exact Hm.
Qed.

Lemma keeps_setjmp {A} (h body : M A) :
  keeps_unknown h -> keeps_unknown body -> keeps_unknown (setjmp h body).
Proof.
  intros Hh Hb w. unfold setjmp. specialize (Hb w).
  destruct (body w) as [[a| | |] w1]; simpl in Hb; try exact Hb.
  rewrite Hh. exact Hb.
Qed.

Lemma keeps_destroy_write b : keeps_unknown (png_destroy_write_struct b).
Proof.
  unfold png_destroy_write_struct. apply keeps_bind.
  - destruct b; [apply keeps_log | apply keeps_ret].
  - intros _. apply keeps_log.
Qed.

Lemma keeps_write_rows hdr image mem n :
  forall i, keeps_unknown (write_rows hdr image mem i n).
Proof.
  induction n as [|n IH]; intros i; simpl.
  - apply keeps_ret.
  - apply keeps_bind; [apply keeps_defined|]. intros p.
    apply keeps_bind; [apply keeps_defined|]. intros row.
    apply keeps_bind; [apply keeps_modify_out; reflexivity|].
    intros _. apply IH.
Qed.

(** However [save] ends, and whatever the image, none of the libpng calls it
    makes writes an unknown chunk: the output never receives a [grAb]
    chunk. *)
Lemma save_writes_no_unknown_chunk e im : keeps_unknown (save e im).
Proof.
  unfold save.
  apply keeps_bind.
  { unfold png_create_write_struct. destruct (create_struct_ok e);
      [apply keeps_bind; [apply keeps_log | intros; apply keeps_ret]
      | apply keeps_ret]. }
  intros [|]; cbn [negb]; [|apply keeps_throw].
  apply keeps_bind.
  { unfold png_create_info_struct. destruct (create_info_ok e);
      [apply keeps_bind; [apply keeps_log | intros; apply keeps_ret]
      | apply keeps_ret]. }
  intros [|]; cbn [negb].
  2:{ apply keeps_bind; [apply keeps_destroy_write|].
      intros; apply keeps_throw. }
  apply keeps_setjmp.
  { apply keeps_bind; [apply keeps_destroy_write|].
    intros; apply keeps_throw. }
  unfold save_body.
  apply keeps_bind.
  { unfold png_color_type_of. destruct (img_format im);
      first [apply keeps_ret | apply keeps_throw]. }
  intros ct. apply keeps_bind.
  { unfold png_set_IHDR. apply keeps_bind; [apply keeps_may_fail|].
    intros _. destruct (png_check_IHDR _);
      [apply keeps_ret | apply keeps_png_error]. }
  intros hdr. apply keeps_bind.
  { unfold png_write_info. apply keeps_bind; [apply keeps_may_fail|].
    intros _. apply keeps_modify_out. reflexivity. }
  intros _. apply keeps_bind.
  { unfold png_write_image. apply keeps_bind; [apply keeps_may_fail|].
    intros _. apply keeps_write_rows. }
  intros _. apply keeps_bind.
  { unfold png_write_end. apply keeps_bind; [apply keeps_may_fail|].
    intros _. apply keeps_modify_out. reflexivity. }
  intros _. apply keeps_destroy_write.
Qed.

(** ** The error trap at work *)

(** A file cut off inside its image data: libpng reports the error, [load]
    releases both handles and throws, and no image is returned. *)
Example load_truncated :
  load Sample.env0 Sample.rgb_truncated initial_world
  = (Throw (image_load_error "An error occurred in libpng"),
     {| events := [Acquire read_struct; Acquire info_struct;
                   Release info_struct; Release read_struct];
        out := empty_ostream |}).
Proof. reflexivity. Qed.

(** libpng fails while the rows are written: [save] releases both handles and
    throws; the header is already in the stream. *)
Example save_write_failure :
  save Sample.env_write_fails Sample.rgb_image initial_world
  = (Throw (image_save_error "Error occurred in libpng"),
     {| events := [Acquire write_struct; Acquire info_struct;
                   Release info_struct; Release write_struct];
        out := {| os_IHDR := Some (Sample.header 2 1 8 PNG_COLOR_TYPE_RGB);
                  os_unknown := []; os_samples := []; os_IEND := false |} |}).
Proof. reflexivity. Qed.

(** The image [save] refuses keeps both handles. *)
Example save_index8_leaks :
  save Sample.env0 Sample.index8_image initial_world
  = (Throw (image_save_error "Saving image with incompatible pixel format"),
     {| events := [Acquire write_struct; Acquire info_struct];
        out := empty_ostream |}).
Proof. reflexivity. Qed.

(** ** The claims of the specification *)

(** *** Sprite offsets *)

(** A chunk whose type is not ["grAb"] leaves the offsets alone, whatever
    else the callback does with it. *)
Lemma chunkFn_not_grAb h c o r o' :
  firstn 4 (name c) <> firstn 4 grAb ->
  chunkFn h c o = Some (r, o') -> o' = o.
Proof.
  intros Hne. unfold chunkFn.
  destruct (CLib.strncmp (name c) grAb 4) as [x|] eqn:E; [|discriminate].
  destruct (Z.eqb_spec x 0) as [->|Hx].
  - exfalso. apply Hne. clear Hne.
    destruct (name c) as [|a0 [|a1 [|a2 [|a3 rest]]]]; cbn in E;
      repeat match type of E with
             | context [?a =? ?b] =>
                 destruct (Z.eqb_spec a b); try discriminate; subst; cbn in E
             end;
      try discriminate; try (injection E as E; lia); reflexivity.
  - cbn [andb]. intros H. inversion H. reflexivity.
Qed.

Lemma offsets_after_not_grAb h chunks :
  Forall (fun c => firstn 4 (name c) <> firstn 4 grAb) chunks ->
  forall o, offsets_after h chunks o = o.
Proof.
  induction 1 as [|c rest Hc Hrest IH]; intros o; [reflexivity|].
  simpl. destruct (chunkFn h c o) as [[r o']|] eqn:E; [|reflexivity].
  rewrite (chunkFn_not_grAb h c o r o' Hc E). apply IH.
Qed.

(** C1 (the code departs from the claim): [int offsets[2]] has no
    initializer, so for a file without a [grAb] chunk the image [load]
    returns carries whatever the stack slot held, not (0, 0). *)
Theorem load_offsets_uninitialized (e : env) (s : png_datastream)
    (w w' : world) (img : Image) :
  no_grAb s ->
  load e s w = (Ret img, w') ->
  img_offsets img = stack_offsets e.
Proof.
  intros Hno Hload. rewrite (load_offsets e s w img w' Hload).
  apply offsets_after_not_grAb.
  unfold no_grAb in Hno. apply Forall_app in Hno. apply Hno.
Qed.

Lemma healthy_env0 : healthy Sample.env0.
Proof.
  split; [reflexivity | split; [reflexivity | intros c; reflexivity]].
Defined.

Lemma load_offsets_uninitialized_witness :
  no_grAb Sample.rgb_2x1 /\
  load Sample.env0 Sample.rgb_2x1 initial_world
  = (Ret (mkImage 2 1 pixel_format.rgb [10; 20; 30; 40; 50; 60]
                  Palette_none (7, -9)),
     reader_acquired initial_world) /\
  img_offsets (mkImage 2 1 pixel_format.rgb [10; 20; 30; 40; 50; 60]
                       Palette_none (7, -9)) = (7, -9).
Proof.
  assert (Hno : no_grAb Sample.rgb_2x1) by constructor.
  assert (Hl : load Sample.env0 Sample.rgb_2x1 initial_world
               = (Ret (mkImage 2 1 pixel_format.rgb [10; 20; 30; 40; 50; 60]
                               Palette_none (7, -9)),
                  reader_acquired initial_world)) by reflexivity.
  split; [exact Hno | split; [exact Hl|]].
  exact (load_offsets_uninitialized _ _ _ _ _ Hno Hl).
Defined.

(** With a [grAb] chunk of eight bytes ahead of the image data the offsets
    are the two big-endian integers of its payload, on either kind of
    host. *)
Lemma load_offsets_grAb e s w w' img b0 b1 b2 b3 b4 b5 b6 b7 rest :
  Forall is_byte [b0; b1; b2; b3; b4; b5; b6; b7] ->
  unknown_before_IDAT s
  = [grAb_chunk (b0 :: b1 :: b2 :: b3 :: b4 :: b5 :: b6 :: b7 :: rest)] ->
  load e s w = (Ret img, w') ->
  img_offsets img = (be_int32 b0 b1 b2 b3, be_int32 b4 b5 b6 b7).
Proof.
  intros HB Hch Hload. rewrite (load_offsets e s w img w' Hload), Hch.
  cbn [offsets_after]. rewrite chunkFn_grAb by exact HB. reflexivity.
Qed.

Example load_grAb_5_minus_3 :
  fst (load Sample.env0 Sample.rgb_2x1_grAb initial_world)
  = Ret (mkImage 2 1 pixel_format.rgb [10; 20; 30; 40; 50; 60]
                 Palette_none (5, -3)).
Proof. reflexivity. Qed.

(** A [grAb] chunk behind the image data reaches the callback only in
    [png_read_end], after the offsets were copied into the image. *)
Example load_late_grAb_ignored :
  fst (load Sample.env0 Sample.rgb_2x1_late_grAb initial_world)
  = Ret (mkImage 2 1 pixel_format.rgb [10; 20; 30; 40; 50; 60]
                 Palette_none (7, -9)).
Proof. reflexivity. Qed.

(** *** Release of the libpng handles *)

Lemma not_all_released_after_acquire l h :
  all_released l -> ~ all_released ((l ++ [Acquire h]) ++ [Acquire info_struct]).
Proof.
  intros Hl Hall. specialize (Hl info_struct). specialize (Hall info_struct).
  rewrite !acquisitions_app, !releases_app in Hall. simpl in Hall.
  destruct h; simpl in Hall; lia.
Qed.

(** C8 (the code departs from the claim): [load] has no
    [png_destroy_read_struct] on the path that returns the image, so whenever
    it returns, the read struct and the info struct it acquired are both
    still held. *)
Theorem load_returns_without_release (e : env) (s : png_datastream)
    (w w' : world) (img : Image) :
  load e s w = (Ret img, w') ->
  events w' = (events w ++ [Acquire read_struct]) ++ [Acquire info_struct] /\
  (all_released (events w) -> ~ all_released (events w')).
Proof.
  intros H. apply load_Ret_inv in H. destruct H as (_ & _ & _ & ->).
  split; [reflexivity|]. cbn [reader_acquired events].
  apply not_all_released_after_acquire.
Qed.

Lemma load_returns_without_release_witness :
  load Sample.env0 Sample.rgb_2x1 initial_world
  = (Ret (mkImage 2 1 pixel_format.rgb [10; 20; 30; 40; 50; 60]
                  Palette_none (7, -9)),
     reader_acquired initial_world) /\
  events (reader_acquired initial_world)
  = [Acquire read_struct; Acquire info_struct] /\
  ~ all_released (events (reader_acquired initial_world)).
Proof.
  assert (Hl : load Sample.env0 Sample.rgb_2x1 initial_world
               = (Ret (mkImage 2 1 pixel_format.rgb [10; 20; 30; 40; 50; 60]
                               Palette_none (7, -9)),
                  reader_acquired initial_world)) by reflexivity.
  destruct (load_returns_without_release _ _ _ _ _ Hl) as [Hev Hnot].
  split; [exact Hl | split; [exact Hev|]].
  apply Hnot. intros h. reflexivity.
Defined.

(** The two errors [load] throws itself leave through the same gap: the
    guarded part changes nothing in the state, so a [throw] from the switch
    on the colour type leaves both handles held. *)
Lemma load_throw_without_release e s w x :
  create_struct_ok e = true -> create_info_ok e = true ->
  fst (load_body e s (reader_acquired w)) = Throw x ->
  load e s w = (Throw x, reader_acquired w).
Proof.
  intros Hs Hi Hb. rewrite load_frame by assumption. unfold setjmp.
  pose proof (pure_load_body e s (reader_acquired w)) as Hp.
  destruct (load_body e s (reader_acquired w)) as [r w1].
  simpl in Hp, Hb. subst. reflexivity.
Qed.

(** The path through the [setjmp] does release both handles, once each. *)
Lemma load_trap_releases e s w :
  create_struct_ok e = true -> create_info_ok e = true ->
  fst (load_body e s (reader_acquired w)) = Longjmp ->
  load e s w
  = (Throw (image_load_error "An error occurred in libpng"),
     {| events := (events (reader_acquired w) ++ [Release info_struct])
                  ++ [Release read_struct];
        out := out w |}).
Proof.
  intros Hs Hi Hb. rewrite load_frame by assumption. unfold setjmp.
  pose proof (pure_load_body e s (reader_acquired w)) as Hp.
  destruct (load_body e s (reader_acquired w)) as [r w1].
  simpl in Hp, Hb. subst. reflexivity.
Qed.


Lemma saved_all_released im ct w :
  all_released (events w) -> all_released (events (saved im ct w)).
Proof.
  intros Hl h. specialize (Hl h). cbn [saved events writer_acquired].
  rewrite !acquisitions_app, !releases_app. simpl.
  destruct h; simpl; lia.
Qed.

(** *** Grayscale *)

Lemma format_of_unknown ct d :
  ct <> PNG_COLOR_TYPE_RGB -> ct <> PNG_COLOR_TYPE_RGB_ALPHA ->
  ct <> PNG_COLOR_TYPE_PALETTE ->
  format_of ct d
  = throw (image_load_error
             (String.append "Unknown PNG image color type: " (string_of_Z ct))).
Proof.
  intros H1 H2 H3. unfold format_of.
  destruct (Z.eqb_spec ct PNG_COLOR_TYPE_RGB); [contradiction|].
  destruct (Z.eqb_spec ct PNG_COLOR_TYPE_RGB_ALPHA); [contradiction|].
  destruct (Z.eqb_spec ct PNG_COLOR_TYPE_PALETTE); [contradiction|].
  reflexivity.
Qed.

(** C2 (the code departs from the claim): for a grayscale file without alpha
    [load] requests [png_set_expand], which leaves the colour type gray (or
    gray with alpha when the file has a tRNS chunk); the switch on the
    re-queried colour type has no case for either, so [load] throws "Unknown
    PNG image color type" instead of returning an rgb image. *)
Theorem load_gray_raises (e : env) (s : png_datastream) (w : world) :
  healthy e -> readable s ->
  color_type (IHDR s) = PNG_COLOR_TYPE_GRAY ->
  load e s w
  = (Throw (image_load_error
              (match tRNS s with
               | None => "Unknown PNG image color type: 0"
               | Some _ => "Unknown PNG image color type: 4"
               end)),
     reader_acquired w).
Proof.
  intros (Hs & Hi & Hf) Hr Hct.
  apply load_throw_without_release; try assumption.
  rewrite (load_body_readable e s Hf Hr). cbv zeta.
  pose proof Hr as (Hc & _).
  destruct (updated_IHDR_spec s Hc) as (_ & _ & Hd & Hct').
  rewrite Hct in Hct'. cbn [Z.eqb PNG_COLOR_TYPE_GRAY] in Hct'.
  rewrite Hct', Hd. unfold num_trans. rewrite Hct.
  destruct (tRNS s); reflexivity.
Qed.

Lemma readable_gray_2x1 : readable Sample.gray_2x1.
Proof.
  unfold readable. cbn.
  repeat split; try constructor; try discriminate; lia.
Defined.

Lemma load_gray_raises_witness :
  healthy Sample.env0 /\ readable Sample.gray_2x1 /\
  color_type (IHDR Sample.gray_2x1) = PNG_COLOR_TYPE_GRAY /\
  load Sample.env0 Sample.gray_2x1 initial_world
  = (Throw (image_load_error "Unknown PNG image color type: 0"),
     reader_acquired initial_world).
Proof.
  split; [exact healthy_env0 | split; [exact readable_gray_2x1 |
    split; [reflexivity|]]].
  exact (load_gray_raises Sample.env0 Sample.gray_2x1 initial_world
           healthy_env0 readable_gray_2x1 eq_refl).
Defined.

(** *** Paletted images *)

Section Paletted.

Variable e : env.
Variable s : png_datastream.
Hypothesis Hhealthy : healthy e.
Hypothesis Hreadable : readable s.
Hypothesis Hpal : color_type (IHDR s) = PNG_COLOR_TYPE_PALETTE.

Lemma paletted_direct :
  color_type (IHDR s) = PNG_COLOR_TYPE_RGB \/
  color_type (IHDR s) = PNG_COLOR_TYPE_RGB_ALPHA \/
  color_type (IHDR s) = PNG_COLOR_TYPE_PALETTE.
Proof. auto. Qed.

Lemma paletted_not_16 : bit_depth (IHDR s) <> 16.
Proof.
  destruct Hreadable as (Hc & _). apply png_check_IHDR_inv in Hc.
  destruct Hc as (_ & _ & _ & _ & Hd & _).
  change PNG_COLOR_TYPE_PALETTE with 3 in Hpal. specialize (Hd Hpal). lia.
Qed.

(** Whatever the bit depth of the file, the re-queried one is 8 and the
    switch chooses index8. *)
Lemma paletted_format :
  color_type (updated_IHDR s) = PNG_COLOR_TYPE_PALETTE /\
  bit_depth (updated_IHDR s) = 8 /\
  format_of (color_type (updated_IHDR s)) (bit_depth (updated_IHDR s))
  = ret pixel_format.index8.
Proof.
  destruct Hreadable as (Hc & _).
  destruct (updated_IHDR_spec s Hc) as (_ & _ & Hd & Hct).
  rewrite Hpal in Hct. cbn in Hct. rewrite Hct, Hd.
  repeat split; reflexivity.
Qed.

Lemma load_paletted p w :
  load_palette (reader_of s)
    (Image_new e (width (IHDR s)) (height (IHDR s)) pixel_format.index8)
  = ret (set_palette
           (Image_new e (width (IHDR s)) (height (IHDR s))
                      pixel_format.index8) p) ->
  load e s w = (Ret (paletted_image e s p), reader_acquired w).
Proof.
  intros Hstep. destruct Hhealthy as (Hs & Hi & Hf).
  destruct paletted_format as (Hct & _ & Hfmt).
  rewrite load_frame by assumption. unfold setjmp.
  rewrite (load_body_direct e s Hf Hreadable paletted_direct paletted_not_16
             pixel_format.index8 p).
  - unfold paletted_image. rewrite Hpal.
    change (channels PNG_COLOR_TYPE_PALETTE) with 1. rewrite Z.mul_1_r.
    reflexivity.
  - exact Hfmt.
  - rewrite Hpal. reflexivity.
  - rewrite Hct. exact Hstep.
Qed.

Lemma load_paletted_undefined w :
  load_palette (reader_of s)
    (Image_new e (width (IHDR s)) (height (IHDR s)) pixel_format.index8)
  = undefined ->
  load e s w = (Undefined, reader_acquired w).
Proof.
  intros Hstep. destruct Hhealthy as (Hs & Hi & Hf).
  destruct paletted_format as (Hct & _ & Hfmt).
  rewrite load_frame by assumption. unfold setjmp.
  rewrite (load_body_readable e s Hf Hreadable). cbv zeta.
  destruct Hreadable as (Hc & _).
  destruct (updated_IHDR_spec s Hc) as (Hw & Hh & _ & _).
  rewrite Hfmt, bind_ret_l, Hct, Hw, Hh.
  change (PNG_COLOR_TYPE_PALETTE =? PNG_COLOR_TYPE_PALETTE) with true.
  cbv iota. rewrite Hstep. reflexivity.
Qed.

End Paletted.

Lemma readable_paletted_4bit : readable Sample.paletted_4bit.
Proof.
  unfold readable. cbn.
  repeat split; try constructor; try discriminate; lia.
Defined.

(** C3, counterexample: a paletted file with 4 bits per index does not make
    [load] raise; it returns an index8 image. *)
Lemma load_paletted_4bit_returns :
  color_type (IHDR Sample.paletted_4bit) = PNG_COLOR_TYPE_PALETTE /\
  bit_depth (IHDR Sample.paletted_4bit) = 4 /\
  load Sample.env0 Sample.paletted_4bit initial_world
  = (Ret (mkImage 2 1 pixel_format.index8 [1; 0]
            (Palette_rgba [mkRgba 1 2 3 0; mkRgba 4 5 6 255] 2) (7, -9)),
     reader_acquired initial_world) /\
  forall msg, fst (load Sample.env0 Sample.paletted_4bit initial_world)
              <> Throw (image_load_error msg).
Proof.
  repeat split; try reflexivity. intros msg H. discriminate H.
Qed.

(** A paletted file libpng reads without an error ends [load] in one of two
    ways: with the index8 image, or in the palette copy of the branch without
    tRNS, outside the colour table. *)
Lemma load_paletted_outcome e s w :
  healthy e -> readable s ->
  color_type (IHDR s) = PNG_COLOR_TYPE_PALETTE ->
  (exists p, load e s w = (Ret (paletted_image e s p), reader_acquired w)) \/
  load e s w = (Undefined, reader_acquired w).
Proof.
  intros He Hr Hct. destruct (tRNS s) as [t|] eqn:Ht.
  - left. eexists. apply (load_paletted e s He Hr Hct).
    apply (load_palette_tRNS s t _ Ht Hct).
  - destruct (copy_PLTE (default_palette e) (PLTE s) 0) as [[cs k]|]
      eqn:Hcopy.
    + left. eexists. apply (load_paletted e s He Hr Hct).
      rewrite (load_palette_no_tRNS s _ Ht).
      cbn [Image_new img_palette palette_entries]. rewrite Hcopy.
      reflexivity.
    + right. apply (load_paletted_undefined e s He Hr Hct).
      rewrite (load_palette_no_tRNS s _ Ht).
      cbn [Image_new img_palette palette_entries]. rewrite Hcopy.
      reflexivity.
Qed.

(** C3, as amended: for every paletted file libpng reads without an error,
    whatever its bit depth (1, 2, 4 or 8), [load] raises no error: the depth
    its switch tests is the one re-queried after the normalization, which is
    8 for every such file.  Whenever [load] returns, the image is index8 with
    the dimensions of the header and one palette index per byte; and [load]
    does return when the file has a tRNS chunk or its PLTE has at least as
    many entries as the palette the index8 image starts with. *)
Theorem load_paletted_any_depth (e : env) (s : png_datastream) (w : world) :
  healthy e -> readable s ->
  color_type (IHDR s) = PNG_COLOR_TYPE_PALETTE ->
  bit_depth (updated_IHDR s) = 8 /\
  (forall x w', load e s w <> (Throw x, w')) /\
  (forall img w', load e s w = (Ret img, w') ->
     exists p, img = paletted_image e s p) /\
  (tRNS s <> None \/ (length (default_palette e) <= length (PLTE s))%nat ->
   exists p, load e s w = (Ret (paletted_image e s p), reader_acquired w)).
Proof.
  intros He Hr Hct.
  pose proof (load_paletted_outcome e s w He Hr Hct) as Hout.
  split; [apply (paletted_format s Hr Hct)|]. split; [|split].
  - intros x w' H. destruct Hout as [[p Hp] | Hu]; rewrite H in *;
      discriminate.
  - intros img w' H. destruct Hout as [[p Hp] | Hu]; rewrite H in *.
    + exists p. injection Hp as -> _. reflexivity.
    + discriminate Hu.
  - intros Hp. destruct (tRNS s) as [t|] eqn:Ht.
    + eexists. apply (load_paletted e s He Hr Hct).
      apply (load_palette_tRNS s t _ Ht Hct).
    + destruct Hp as [Hp|Hp]; [contradiction|].
      eexists. apply (load_paletted e s He Hr Hct).
      rewrite (load_palette_no_tRNS s _ Ht).
      cbn [Image_new img_palette palette_entries].
      rewrite copy_PLTE_spec by lia. cbn [Nat.add].
      destruct (Nat.leb_spec (length (default_palette e)) (length (PLTE s)));
        [reflexivity | lia].
Qed.

Lemma load_paletted_any_depth_witness :
  healthy Sample.env0 /\ readable Sample.paletted_4bit /\
  color_type (IHDR Sample.paletted_4bit) = PNG_COLOR_TYPE_PALETTE /\
  bit_depth (IHDR Sample.paletted_4bit) = 4 /\
  bit_depth (updated_IHDR Sample.paletted_4bit) = 8 /\
  (forall x w', load Sample.env0 Sample.paletted_4bit initial_world
                <> (Throw x, w')) /\
  tRNS Sample.paletted_4bit <> None /\
  exists p, load Sample.env0 Sample.paletted_4bit initial_world
            = (Ret (paletted_image Sample.env0 Sample.paletted_4bit p),
               reader_acquired initial_world).
Proof.
  assert (Ht : tRNS Sample.paletted_4bit <> None) by discriminate.
  pose proof (load_paletted_any_depth Sample.env0 Sample.paletted_4bit
                initial_world healthy_env0 readable_paletted_4bit eq_refl)
    as (H8 & Hno & _ & Hret).
  split; [exact healthy_env0 | split; [exact readable_paletted_4bit |
    split; [reflexivity | split; [reflexivity |
    split; [exact H8 | split; [exact Hno | split; [exact Ht|]]]]]]].
  exact (Hret (or_introl Ht)).
Defined.

(** C4: for an 8-bit paletted file with a tRNS chunk [load] installs an RGBA
    palette with as many entries as the PLTE chunk; entry [i] has the red,
    green and blue of colour [i], and the alpha of entry [i] of the
    transparency table, or 0xFF where the table has no entry [i]. *)
Theorem load_tRNS_palette (e : env) (s : png_datastream) (w : world)
    (t : png_tRNS) :
  healthy e -> readable s ->
  color_type (IHDR s) = PNG_COLOR_TYPE_PALETTE ->
  bit_depth (IHDR s) = 8 ->
  tRNS s = Some t ->
  exists img entries,
    load e s w = (Ret img, reader_acquired w) /\
    img_format img = pixel_format.index8 /\
    img_palette img = Palette_rgba entries (Z.of_nat (length (PLTE s))) /\
    length entries = length (PLTE s) /\
    forall i c, nth_error (PLTE s) i = Some c ->
      nth_error entries i
      = Some (mkRgba (red c) (green c) (blue c)
                (match nth_error (trans_alpha t) i with
                 | Some a => a
                 | None => 0xFF
                 end)).
Proof.
  intros He Hr Hct _ Ht.
  eexists. eexists. split; [|split; [|split; [|split]]].
  - apply (load_paletted e s He Hr Hct).
    apply (load_palette_tRNS s t _ Ht Hct).
  - reflexivity.
  - reflexivity.
  - rewrite length_map, length_seq. reflexivity.
  - intros i c Hi.
    assert (Hlt : (i < length (PLTE s))%nat)
      by (apply nth_error_Some; congruence).
    rewrite nth_error_map, nth_error_seq.
    destruct (Nat.ltb_spec i (length (PLTE s))) as [_|Hge]; [|lia].
    cbn [option_map Nat.add]. unfold with_alpha.
    rewrite (nth_error_nth _ _ _ Hi). reflexivity.
Qed.

Lemma readable_paletted_tRNS : readable Sample.paletted_tRNS.
Proof.
  unfold readable. cbn.
  repeat split; try constructor; try discriminate; lia.
Defined.

Lemma load_tRNS_palette_witness :
  healthy Sample.env0 /\ readable Sample.paletted_tRNS /\
  exists img entries,
    load Sample.env0 Sample.paletted_tRNS initial_world
    = (Ret img, reader_acquired initial_world) /\
    img_format img = pixel_format.index8 /\
    img_palette img = Palette_rgba entries 2 /\
    length entries = 2%nat /\
    forall i c, nth_error (PLTE Sample.paletted_tRNS) i = Some c ->
      nth_error entries i
      = Some (mkRgba (red c) (green c) (blue c)
                (match nth_error [9] i with
                 | Some a => a
                 | None => 0xFF
                 end)).
Proof.
  split; [exact healthy_env0 | split; [exact readable_paletted_tRNS|]].
  exact (load_tRNS_palette Sample.env0 Sample.paletted_tRNS initial_world
           {| trans_alpha := [9]; trans_gray := 0 |}
           healthy_env0 readable_paletted_tRNS eq_refl eq_refl eq_refl).
Defined.

Example sample_tRNS_palette :
  fst (load Sample.env0 Sample.paletted_tRNS initial_world)
  = Ret (mkImage 2 1 pixel_format.index8 [1; 0]
           (Palette_rgba [mkRgba 1 2 3 9; mkRgba 4 5 6 255] 2) (7, -9)).
Proof. reflexivity. Qed.

(** C10: without a tRNS chunk [load] reads one PLTE entry per entry of the
    image's default palette and never looks at the entry count [png_get_PLTE]
    returned.  The copy reads the first [n] entries of the PLTE array, [n]
    being the size of the default palette; when the PLTE array has fewer
    than [n] entries the copy reads beyond its end, and otherwise [load]
    returns the image with the [n] colours copied. *)
Theorem load_PLTE_copy_unchecked (e : env) (s : png_datastream) (w : world) :
  healthy e -> readable s ->
  color_type (IHDR s) = PNG_COLOR_TYPE_PALETTE ->
  bit_depth (IHDR s) = 8 ->
  tRNS s = None ->
  let n := length (default_palette e) in
  copy_PLTE (default_palette e) (PLTE s) 0
  = (if (n <=? length (PLTE s))%nat
     then Some (map rgb_of (firstn n (PLTE s)), n)
     else None) /\
  load e s w
  = (if (n <=? length (PLTE s))%nat
     then Ret (paletted_image e s
                 (Palette_rgb (map rgb_of (firstn n (PLTE s)))))
     else Undefined,
     reader_acquired w).
Proof.
  intros He Hr Hct _ Ht n.
  assert (Hcopy : copy_PLTE (default_palette e) (PLTE s) 0
                  = (if (n <=? length (PLTE s))%nat
                     then Some (map rgb_of (firstn n (PLTE s)), n)
                     else None)).
  { rewrite copy_PLTE_spec by lia. reflexivity. }
  split; [exact Hcopy|].
  destruct (n <=? length (PLTE s))%nat.
  - apply (load_paletted e s He Hr Hct).
    rewrite (load_palette_no_tRNS s _ Ht).
    cbn [Image_new img_palette palette_entries]. rewrite Hcopy. reflexivity.
  - apply (load_paletted_undefined e s He Hr Hct).
    rewrite (load_palette_no_tRNS s _ Ht).
    cbn [Image_new img_palette palette_entries]. rewrite Hcopy. reflexivity.
Qed.

Lemma readable_paletted_one_colour : readable Sample.paletted_one_colour.
Proof.
  unfold readable. cbn.
  repeat split; try constructor; try discriminate; lia.
Defined.

Lemma load_PLTE_copy_unchecked_witness :
  healthy Sample.env0 /\ readable Sample.paletted_one_colour /\
  length (default_palette Sample.env0) = 2%nat /\
  length (PLTE Sample.paletted_one_colour) = 1%nat /\
  copy_PLTE (default_palette Sample.env0) (PLTE Sample.paletted_one_colour) 0
  = None /\
  load Sample.env0 Sample.paletted_one_colour initial_world
  = (Undefined, reader_acquired initial_world).
Proof.
  split; [exact healthy_env0 | split; [exact readable_paletted_one_colour |
    split; [reflexivity | split; [reflexivity|]]]].
  exact (load_PLTE_copy_unchecked Sample.env0 Sample.paletted_one_colour
           initial_world healthy_env0 readable_paletted_one_colour
           eq_refl eq_refl eq_refl).
Defined.

(** *** detect *)

(** Where pointers have eight bytes [sizeof magic] happens to be the length
    of the signature: there [detect] always returns a boolean, and returns
    true exactly when the first eight bytes of the stream are the PNG
    signature; in particular a stream of fewer than eight bytes gives
    false. *)
Theorem detect_signature (dm : data_model) (s : list Z) :
  sizeof_ptr dm = 8%nat ->
  exists b, detect dm s = Some b /\
            (b = true <-> firstn 8 s = png_signature) /\
            ((8 <= length s)%nat \/ b = false).
Proof.
  intros Hdm. destruct (detect_spec dm s Hdm) as [b [Hb Hiff]].
  exists b. split; [exact Hb | split; [exact Hiff|]].
  destruct (Nat.le_gt_cases 8 (length s)) as [Hle|Hlt]; [left; exact Hle|].
  right. destruct b; [|reflexivity].
  exfalso. assert (Hsig : firstn 8 s = png_signature) by (apply Hiff; reflexivity).
  apply (f_equal (@length Z)) in Hsig. rewrite length_firstn in Hsig.
  change (length png_signature) with 8%nat in Hsig. lia.
Qed.

Lemma detect_signature_witness :
  sizeof_ptr LP64 = 8%nat /\
  exists b, detect LP64 png_file_start = Some b /\
            (b = true <->
             firstn 8 png_file_start = png_signature) /\
            ((8 <= length png_file_start)%nat \/ b = false).
Proof.
  split; [reflexivity|].
  exact (detect_signature LP64 png_file_start eq_refl).
Defined.

Example detect_png : detect LP64 png_file_start = Some true.
Proof. reflexivity. Qed.

Example detect_short : detect LP64 [0x89; 0x50; 0x4E; 0x47] = Some false.
Proof. reflexivity. Qed.

Example detect_gif :
  detect LP64 [0x47; 0x49; 0x46; 0x38; 0x39; 0x61; 1; 0; 1; 0] = Some false.
Proof. reflexivity. Qed.

(** [sizeof magic] is the size of a pointer: where pointers have four bytes
    only the first four bytes of the signature are compared. *)
Example detect_ILP32_four_bytes :
  detect ILP32 [0x89; 0x50; 0x4E; 0x47; 0; 0; 0; 0] = Some true.
Proof. reflexivity. Qed.

(** C6 (the code departs from the claim): [magic] is declared [auto], so
    [sizeof magic] is the size of a pointer, not the length of the literal.
    On a target whose pointers have four bytes [detect] reads and compares
    four bytes only: it answers true for every stream that starts with
    89 50 4E 47, whatever follows; so it answers true for a stream whose
    first eight bytes are not the PNG signature, and for a stream of four
    bytes. *)
Theorem detect_ILP32_accepts_four_bytes :
  (forall t, detect ILP32 ([0x89; 0x50; 0x4E; 0x47] ++ t) = Some true) /\
  detect ILP32 [0x89; 0x50; 0x4E; 0x47; 0xDE; 0xAD; 0xBE; 0xEF] = Some true /\
  firstn 8 [0x89; 0x50; 0x4E; 0x47; 0xDE; 0xAD; 0xBE; 0xEF]
  <> png_signature /\
  detect ILP32 [0x89; 0x50; 0x4E; 0x47] = Some true /\
  Z.of_nat (length [0x89; 0x50; 0x4E; 0x47]) < 8.
Proof.
  split; [intros t; reflexivity|].
  split; [reflexivity|]. split; [discriminate|].
  split; [reflexivity|]. cbn. lia.
Qed.

(** *** save *)

Lemma valid_rgb_image : valid_image Sample.rgb_image.
Proof. unfold valid_image. cbn. lia. Defined.

Lemma non_empty_rgb_image : non_empty Sample.rgb_image.
Proof. unfold non_empty. cbn. lia. Defined.

Lemma valid_bgra_image : valid_image Sample.bgra_image.
Proof. unfold valid_image. cbn. lia. Defined.

Lemma non_empty_bgra_image : non_empty Sample.bgra_image.
Proof. unfold non_empty. cbn. lia. Defined.




(** C9: for an image in one of the four formats [save] writes a header with
    the image's width and height, 8 bits per sample, the mapped colour type
    and no interlacing; the rows it writes are the bytes of the image's own
    buffer, in order and unchanged (so the bytes of a bgr or bgra image go
    out as they are); no unknown chunk, hence no [grAb] chunk, is written;
    and the file is ended. *)
Theorem save_writes_buffer_as_is (e : env) (im : Image) (w : world) :
  healthy e -> valid_image im -> non_empty im ->
  compatible (img_format im) ->
  exists w',
    save e im w = (Ret tt, w') /\
    os_IHDR (out w')
    = Some {| width := img_width im; height := img_height im;
              bit_depth := 8;
              color_type := (if pixel_format.bytes (img_format im) =? 3
                             then PNG_COLOR_TYPE_RGB
                             else PNG_COLOR_TYPE_RGB_ALPHA);
              interlace_method := PNG_INTERLACE_NONE |} /\
    os_samples (out w') = os_samples (out w) ++ img_data im /\
    os_unknown (out w') = os_unknown (out w) /\
    os_IEND (out w') = true.
Proof.
  intros He Hv Hn Hc.
  destruct (compatible_color_type _ Hc) as (ct & Hct & Hb & Hrgb & Hmap).
  exists (saved im ct w). split.
  - apply (save_compatible e im w ct He Hv Hn Hct Hb Hrgb).
  - cbn [saved out os_IHDR os_samples os_unknown os_IEND].
    rewrite <- Hmap. repeat split; reflexivity.
Qed.

Lemma save_writes_buffer_as_is_witness :
  healthy Sample.env0 /\ valid_image Sample.bgra_image /\
  non_empty Sample.bgra_image /\ compatible (img_format Sample.bgra_image) /\
  exists w',
    save Sample.env0 Sample.bgra_image initial_world = (Ret tt, w') /\
    os_IHDR (out w') = Some (Sample.header 1 2 8 PNG_COLOR_TYPE_RGB_ALPHA) /\
    os_samples (out w') = [1; 2; 3; 4; 5; 6; 7; 8] /\
    os_unknown (out w') = [] /\
    os_IEND (out w') = true.
Proof.
  assert (Hc : compatible (img_format Sample.bgra_image))
    by (right; right; right; reflexivity).
  split; [exact healthy_env0 | split; [exact valid_bgra_image |
    split; [exact non_empty_bgra_image | split; [exact Hc|]]]].
  exact (save_writes_buffer_as_is Sample.env0 Sample.bgra_image initial_world
           healthy_env0 valid_bgra_image non_empty_bgra_image Hc).
Defined.

(** *** Round trip *)

(** C7: an rgb or rgba image of at least one pixel, saved to an empty stream
    and loaded back, comes back with the same width, height, format and
    pixel buffer (when libpng reports no error on either side). *)
Theorem save_load_round_trip (e e' : env) (im : Image) (w w1 : world) :
  healthy e -> healthy e' ->
  valid_image im -> non_empty im ->
  img_format im = pixel_format.rgb \/ img_format im = pixel_format.rgba ->
  out w = empty_ostream ->
  exists w' file img w1',
    save e im w = (Ret tt, w') /\
    written_file (out w') = Some file /\
    load e' file w1 = (Ret img, w1') /\
    img_width img = img_width im /\
    img_height img = img_height im /\
    img_format img = img_format im /\
    img_data img = img_data im.
Proof.
  intros He He' Hv Hn Hfmt Hout.
  assert (Hc : compatible (img_format im))
    by (destruct Hfmt as [-> | ->]; unfold compatible; auto).
  destruct (compatible_color_type _ Hc) as (ct & Hct & Hb & Hrgb & Hmap).
  set (file := {| IHDR := {| width := img_width im; height := img_height im;
                             bit_depth := 8; color_type := ct;
                             interlace_method := PNG_INTERLACE_NONE |};
                  PLTE := []; tRNS := None; unknown_before_IDAT := [];
                  samples := img_data im; unknown_after_IDAT := [] |}).
  pose proof Hv as (Hw0 & Hh0 & Hlen). pose proof Hn as (Hw & Hh).
  assert (Hch : channels ct = pixel_format.bytes (img_format im)) by auto.
  assert (Hr : readable file).
  { unfold readable, file. cbn [IHDR PLTE unknown_before_IDAT
      unknown_after_IDAT samples width height color_type].
    repeat split; try constructor.
    - unfold png_check_IHDR. cbn [width height bit_depth color_type
        interlace_method].
      replace (0 <? img_width im) with true by (symmetry; apply Z.ltb_lt; lia).
      replace (0 <? img_height im) with true
        by (symmetry; apply Z.ltb_lt; lia).
      destruct Hrgb as [-> | ->]; reflexivity.
    - intros Hp. destruct Hrgb as [E|E]; rewrite E in Hp; discriminate Hp.
    - rewrite Hlen. unfold pitch. rewrite Hch. lia. }
  assert (Hdirect : color_type (IHDR file) = PNG_COLOR_TYPE_RGB \/
                    color_type (IHDR file) = PNG_COLOR_TYPE_RGB_ALPHA \/
                    color_type (IHDR file) = PNG_COLOR_TYPE_PALETTE)
    by (cbn; tauto).
  assert (H16 : bit_depth (IHDR file) <> 16) by (cbn; lia).
  destruct He' as (Hs' & Hi' & Hf').
  exists (saved im ct w), file.
  eexists. exists (reader_acquired w1).
  split; [apply (save_compatible e im w ct He Hv Hn Hct Hb Hrgb)|].
  split; [cbn [saved out os_IHDR os_IEND written_file]; rewrite Hout;
          reflexivity|].
  split.
  - rewrite load_frame by assumption. unfold setjmp.
    rewrite (load_body_direct e' file Hf' Hr Hdirect H16 (img_format im)
               Palette_none).
    + reflexivity.
    + destruct (updated_IHDR_spec file (proj1 Hr)) as (_ & _ & Hd & Hct').
      rewrite Hd, Hct'. cbn [IHDR color_type file].
      destruct Hrgb as [E|E]; rewrite E in *;
        destruct Hfmt as [F|F]; rewrite F in *; cbn in Hb;
        try discriminate Hb; reflexivity.
    + cbn [IHDR color_type file]. congruence.
    + destruct (updated_IHDR_spec file (proj1 Hr)) as (_ & _ & _ & Hct').
      rewrite Hct'. cbn [IHDR color_type file].
      destruct Hrgb as [E|E]; rewrite E;
        destruct Hfmt as [F|F]; rewrite F; reflexivity.
  - cbn [img_width img_height img_format img_data IHDR width height
      color_type samples file].
    repeat split.
    apply firstn_all2. rewrite Hch. apply Nat2Z.inj_le.
    rewrite Z2Nat.id by (unfold pitch in Hlen; nia).
    rewrite Hlen. unfold pitch. lia.
Qed.

Lemma save_load_round_trip_witness :
  healthy Sample.env0 /\ valid_image Sample.rgb_image /\
  non_empty Sample.rgb_image /\
  exists w' file img w1',
    save Sample.env0 Sample.rgb_image initial_world = (Ret tt, w') /\
    written_file (out w') = Some file /\
    load Sample.env0 file initial_world = (Ret img, w1') /\
    img_width img = 2 /\ img_height img = 1 /\
    img_format img = pixel_format.rgb /\
    img_data img = [10; 20; 30; 40; 50; 60].
Proof.
  split; [exact healthy_env0 | split; [exact valid_rgb_image |
    split; [exact non_empty_rgb_image|]]].
  exact (save_load_round_trip Sample.env0 Sample.env0 Sample.rgb_image
           initial_world initial_world healthy_env0 healthy_env0
           valid_rgb_image non_empty_rgb_image (or_introl eq_refl) eq_refl).
Defined.

(** * Further properties of the adapter *)

(** ** detect on any target *)

(** The buffer [detect] fills from a stream, cut to the [n] bytes that are
    compared: the first [n] bytes of the stream when it has that many, and
    otherwise a prefix that holds a zero. *)
Lemma detect_buffer_prefix (n : nat) (s pre : list Z) :
  length pre = n -> Forall (fun x => x <> 0) pre ->
  (firstn n (firstn n s ++ skipn (length (firstn n s)) (repeat 0 (n + 1)))
   = pre <-> firstn n s = pre).
Proof.
  intros Hpre Hnz.
  destruct (Nat.le_gt_cases n (length s)) as [Hs|Hs].
  - rewrite firstn_app, firstn_firstn, Nat.min_id.
    rewrite length_firstn, Nat.min_l by exact Hs.
    rewrite Nat.sub_diag. simpl. rewrite app_nil_r. tauto.
  - split; intros H; exfalso.
    + assert (Hz : nth (length s)
                     (firstn n (firstn n s ++ skipn (length (firstn n s))
                                                    (repeat 0 (n + 1)))) 1 = 0).
      { rewrite nth_firstn.
        destruct (Nat.ltb_spec (length s) n) as [_|Hge]; [|lia].
        rewrite (firstn_all2 (n := n) s) by lia.
        rewrite app_nth2, Nat.sub_diag, nth_skipn by lia.
        apply nth_repeat_lt. lia. }
      rewrite H in Hz. rewrite Forall_forall in Hnz.
      apply (Hnz (nth (length s) pre 1)); [|exact Hz].
      apply nth_In. lia.
    + apply (f_equal (@length Z)) in H. rewrite length_firstn in H. lia.
Qed.

(** X1: whatever the size of a pointer, [detect] reads only inside its
    arrays and answers true exactly when the first [sizeof(const char * )]
    bytes of the stream are the first that many bytes of the PNG signature:
    all eight of them where a pointer has eight bytes, only 89 50 4E 47
    where it has four.  A stream with fewer bytes than that is not
    detected. *)
Theorem detect_compares_pointer_size (dm : data_model) (s : list Z) :
  exists b, detect dm s = Some b /\
            (b = true <->
             firstn (sizeof_ptr dm) s = firstn (sizeof_ptr dm) png_signature)
            /\ ((sizeof_ptr dm <= length s)%nat \/ b = false).
Proof.
  set (n := sizeof_ptr dm).
  set (pre := firstn n png_signature).
  assert (Hn : (n <= 8)%nat) by (destruct dm; cbn; lia).
  assert (Hpre : length pre = n).
  { unfold pre. rewrite length_firstn.
    change (length png_signature) with 8%nat. lia. }
  assert (Hnz : Forall (fun x => x <> 0) pre).
  { rewrite Forall_forall. intros x Hx.
    pose proof png_signature_nonzero as Hsig. rewrite Forall_forall in Hsig.
    apply Hsig. unfold pre in Hx.
    rewrite <- (firstn_skipn n png_signature). apply in_or_app. left. exact Hx. }
  set (buf := firstn n s ++ skipn (length (firstn n s)) (repeat 0 (n + 1))).
  assert (Hlen : (length pre <= length buf)%nat).
  { unfold buf. rewrite Hpre, length_app, length_skipn, repeat_length,
      length_firstn. lia. }
  destruct (strncmp_prefix pre (skipn n png_signature ++ [0]) buf Hnz Hlen)
    as [r [Hr Hiff]].
  rewrite Hpre in Hr, Hiff.
  assert (Hmagic : pre ++ skipn n png_signature ++ [0] = magic).
  { unfold pre, magic, CLib.string_literal.
    rewrite app_assoc, firstn_skipn. reflexivity. }
  rewrite Hmagic in Hr.
  exists (r =? 0). split.
  - unfold detect, CLib.istream_read. fold n. fold buf. rewrite Hr.
    reflexivity.
  - assert (Hb : (r =? 0) = true <-> firstn n s = pre).
    { rewrite Z.eqb_eq, Hiff. unfold buf.
      apply detect_buffer_prefix; assumption. }
    split; [exact Hb|].
    destruct (Nat.le_gt_cases n (length s)) as [Hs|Hs]; [left; exact Hs|].
    right. apply not_true_is_false. intros Ht. apply Hb in Ht.
    apply (f_equal (@length Z)) in Ht. rewrite length_firstn in Ht. lia.
Qed.

(** ** The chunk callback, completely *)

(** X2: on a chunk whose type has its four characters the callback is
    defined and answers 0 or 1; it answers 1 (handled) exactly when the type
    is ["grAb"] and the payload has at least eight bytes, and when it
    answers 0 (not handled) it leaves the offsets as they were. *)
Theorem chunkFn_handles_only_grAb (h : endianness) (c : png_unknown_chunk)
    (o : Z * Z) :
  named c ->
  exists r o', chunkFn h c o = Some (r, o') /\
    (r = 0 \/ r = 1) /\
    (r = 1 <-> is_grAb c /\ 8 <= size c) /\
    (r = 0 -> o' = o).
Proof.
  intros Hlen. unfold named in Hlen. unfold chunkFn, is_grAb.
  destruct (strncmp_grAb (name c) Hlen) as [x [-> Hiff]].
  destruct (Z.eqb_spec x 0) as [Hx|Hx]; cbn [andb].
  - destruct (Z.leb_spec 8 (size c)) as [Hs|Hs].
    + unfold size in Hs.
      destruct (data c) as [|b0 [|b1 [|b2 [|b3 [|b4 [|b5 [|b6 [|b7 rest]]]]]]]]
        eqn:Ed; simpl in Hs; try lia.
      cbn [Cpu.load_int skipn Nat.mul Nat.add].
      eexists. eexists. split; [reflexivity|].
      split; [right; reflexivity|]. split; [|discriminate].
      split; [intros _|reflexivity]. split; [apply Hiff, Hx|].
      unfold size. rewrite Ed. simpl length. lia.
    + exists 0, o. split; [reflexivity|]. split; [left; reflexivity|].
      split; [|reflexivity]. split; [discriminate | intros [_ H]; lia].
  - exists 0, o. split; [reflexivity|]. split; [left; reflexivity|].
    split; [|reflexivity]. split; [discriminate|].
    intros [H _]. exfalso. apply Hx, Hiff, H.
Qed.

Lemma chunkFn_handles_only_grAb_witness :
  named Sample2.short_grAb /\
  exists r o', chunkFn LittleEndian Sample2.short_grAb (7, -9) = Some (r, o') /\
    (r = 0 \/ r = 1) /\
    (r = 1 <-> is_grAb Sample2.short_grAb /\ 8 <= size Sample2.short_grAb) /\
    (r = 0 -> o' = (7, -9)).
Proof.
  assert (Hn : named Sample2.short_grAb) by (unfold named; cbn; lia).
  split; [exact Hn|].
  exact (chunkFn_handles_only_grAb LittleEndian Sample2.short_grAb (7, -9) Hn).
Defined.

(** ** The offsets among several chunks *)

(** [strncmp] finds no difference only when the chunk type has the four
    characters of ["grAb"]. *)
Lemma strncmp_grAb_zero (nm : list Z) :
  CLib.strncmp nm grAb 4 = Some 0 -> firstn 4 nm = firstn 4 grAb.
Proof.
  intros H.
  destruct (Nat.le_gt_cases 4 (length nm)) as [Hlen|Hlen].
  - destruct (strncmp_grAb nm Hlen) as [r [Hr Hiff]].
    rewrite Hr in H. injection H as ->. apply Hiff. reflexivity.
  - exfalso. unfold grAb, CLib.string_literal in H.
    destruct nm as [|a0 [|a1 [|a2 [|a3 nm]]]]; simpl in Hlen; try lia;
      cbn in H;
      repeat match type of H with
             | context [?x =? ?y] =>
                 destruct (Z.eqb_spec x y); subst; cbn in H
             end; try discriminate; try lia;
      injection H as H; lia.
Qed.

(** A chunk the callback does not take leaves the offsets alone. *)
Lemma chunkFn_unhandled h c o r o' :
  ~ (is_grAb c /\ 8 <= size c) ->
  chunkFn h c o = Some (r, o') -> o' = o.
Proof.
  intros Hc H. unfold chunkFn in H.
  destruct (CLib.strncmp (name c) grAb 4) as [x|] eqn:E; [|discriminate].
  destruct (Z.eqb_spec x 0) as [Hx|Hx]; cbn [andb] in H.
  - destruct (Z.leb_spec 8 (size c)) as [Hs|Hs].
    + exfalso. apply Hc. split; [|exact Hs]. subst x.
      apply strncmp_grAb_zero, E.
    + injection H as _ <-. reflexivity.
  - injection H as _ <-. reflexivity.
Qed.

Lemma png_handle_unknown_unhandled h chunks :
  Forall (fun c => ~ (is_grAb c /\ 8 <= size c)) chunks ->
  forall o w o' w',
    png_handle_unknown (chunkFn h) chunks o w = (Ret o', w') -> o' = o.
Proof.
  induction 1 as [|c rest Hc Hrest IH]; intros o w o' w' H; simpl in H.
  - inversion H. reflexivity.
  - apply bind_Ret_inv in H. destruct H as ([r u] & w1 & Hd & H).
    apply defined_Ret_inv in Hd. destruct Hd as [Hd ->].
    destruct (r <? 0); [discriminate|].
    destruct ((r =? 0) && critical c); [discriminate|].
    rewrite (chunkFn_unhandled h c o r u Hc Hd) in H.
    eapply IH, H.
Qed.

(** The chunks of a list go to the callback one after the other. *)
Lemma png_handle_unknown_app_inv {U} (fn : user_chunk_fn U) l1 l2 :
  forall u w u' w',
    png_handle_unknown fn (l1 ++ l2) u w = (Ret u', w') ->
    exists u1 w1, png_handle_unknown fn l1 u w = (Ret u1, w1) /\
                  png_handle_unknown fn l2 u1 w1 = (Ret u', w').
Proof.
  induction l1 as [|c l1 IH]; intros u w u' w' H.
  - exists u, w. split; [reflexivity | exact H].
  - simpl in H. apply bind_Ret_inv in H.
    destruct H as ([r u0] & w0 & Hd & H).
    apply defined_Ret_inv in Hd. destruct Hd as [Hd ->].
    simpl. rewrite Hd. cbn [defined]. rewrite bind_ret_l.
    destruct (r <? 0); [discriminate|].
    destruct ((r =? 0) && critical c); [discriminate|].
    apply IH, H.
Qed.

(** When [load] returns, libpng has taken every chunk ahead of the image
    data through the callback, which left the offsets of the image. *)
Lemma load_Ret_chunks e s w img w' :
  load e s w = (Ret img, w') ->
  exists w1 w2,
    png_handle_unknown (chunkFn (host e)) (unknown_before_IDAT s)
      (stack_offsets e) w1 = (Ret (img_offsets img), w2).
Proof.
  intros H. apply load_Ret_inv in H. destruct H as (_ & _ & H & _).
  unfold load_body in H.
  apply bind_Ret_inv in H. destruct H as ([rd offsets] & w1 & Hinfo & H).
  apply bind_Ret_inv in H. destruct H as (rd' & w2 & _ & H).
  apply bind_Ret_inv in H. destruct H as (format & w3 & _ & H).
  apply bind_Ret_inv in H. destruct H as (retval & w4 & _ & H).
  apply bind_Ret_inv in H. destruct H as (pixels & w5 & _ & H).
  apply bind_Ret_inv in H. destruct H as (o2 & w6 & _ & H).
  inversion H; subst. cbn [img_offsets set_data set_offsets].
  unfold png_read_info in Hinfo.
  apply bind_Ret_inv in Hinfo. destruct Hinfo as (u & w7 & _ & Hinfo).
  destruct (negb (png_check_IHDR (IHDR s))); [discriminate|].
  destruct ((color_type (IHDR s) =? PNG_COLOR_TYPE_PALETTE)
            && (length (PLTE s) =? 0)%nat); [discriminate|].
  apply bind_Ret_inv in Hinfo. destruct Hinfo as (o1 & w8 & Hu & Hinfo).
  inversion Hinfo; subst. eauto.
Qed.

(** X3: among the chunks ahead of the image data the last [grAb] chunk of
    at least eight bytes decides: the image [load] returns carries the two
    big-endian integers of its payload, whatever chunks precede it and
    whatever the host's byte order. *)
Theorem load_offsets_last_grAb (e : env) (s : png_datastream) (w w' : world)
    (img : Image) (pre post : list png_unknown_chunk)
    (b0 b1 b2 b3 b4 b5 b6 b7 : Z) (rest : list Z) :
  Forall is_byte [b0; b1; b2; b3; b4; b5; b6; b7] ->
  unknown_before_IDAT s
  = pre ++ grAb_chunk (b0 :: b1 :: b2 :: b3 :: b4 :: b5 :: b6 :: b7 :: rest)
        :: post ->
  Forall (fun c => ~ (is_grAb c /\ 8 <= size c)) post ->
  load e s w = (Ret img, w') ->
  img_offsets img = (be_int32 b0 b1 b2 b3, be_int32 b4 b5 b6 b7).
Proof.
  intros Hb Hchunks Hpost Hload.
  destruct (load_Ret_chunks e s w img w' Hload) as (w1 & w2 & H).
  rewrite Hchunks in H.
  apply png_handle_unknown_app_inv in H.
  destruct H as (o1 & w3 & _ & H).
  simpl in H. rewrite (chunkFn_grAb (host e) o1 _ _ _ _ _ _ _ _ rest Hb) in H.
  cbn [defined] in H. rewrite bind_ret_l in H. cbv beta iota in H.
  change (1 <? 0) with false in H. change (1 =? 0) with false in H.
  cbn [andb] in H.
  apply (png_handle_unknown_unhandled (host e) post Hpost) in H.
  exact H.
Qed.

Lemma load_offsets_last_grAb_witness :
  Forall is_byte [0; 0; 0; 5; 0xFF; 0xFF; 0xFF; 0xFD] /\
  unknown_before_IDAT Sample2.rgb_2x1_chunks
  = [grAb_chunk [0; 0; 0; 1; 0; 0; 0; 2]]
    ++ grAb_chunk [0; 0; 0; 5; 0xFF; 0xFF; 0xFF; 0xFD]
    :: [Sample2.tEXt_chunk] /\
  Forall (fun c => ~ (is_grAb c /\ 8 <= size c)) [Sample2.tEXt_chunk] /\
  load Sample.env0 Sample2.rgb_2x1_chunks initial_world
  = (Ret (mkImage 2 1 pixel_format.rgb [10; 20; 30; 40; 50; 60]
                  Palette_none (5, -3)),
     reader_acquired initial_world) /\
  (5, -3) = (be_int32 0 0 0 5, be_int32 0xFF 0xFF 0xFF 0xFD).
Proof.
  assert (Hb : Forall is_byte [0; 0; 0; 5; 0xFF; 0xFF; 0xFF; 0xFD])
    by (repeat constructor; unfold is_byte; lia).
  assert (Hpost : Forall (fun c => ~ (is_grAb c /\ 8 <= size c))
                         [Sample2.tEXt_chunk]).
  { constructor; [|constructor]. intros [H _]. discriminate H. }
  assert (Hl : load Sample.env0 Sample2.rgb_2x1_chunks initial_world
               = (Ret (mkImage 2 1 pixel_format.rgb [10; 20; 30; 40; 50; 60]
                               Palette_none (5, -3)),
                  reader_acquired initial_world)) by reflexivity.
  split; [exact Hb | split; [reflexivity | split; [exact Hpost |
    split; [exact Hl|]]]].
  exact (load_offsets_last_grAb Sample.env0 Sample2.rgb_2x1_chunks
           initial_world _ _ [grAb_chunk [0; 0; 0; 1; 0; 0; 0; 2]]
           [Sample2.tEXt_chunk] 0 0 0 5 0xFF 0xFF 0xFF 0xFD [] Hb eq_refl
           Hpost Hl).
Defined.

(** ** How load can end *)

Lemma bind_Throw_inv {A B} (m : M A) (k : A -> M B) w x w' :
  bind m k w = (Throw x, w') ->
  m w = (Throw x, w') \/
  exists a w1, m w = (Ret a, w1) /\ k a w1 = (Throw x, w').
Proof.
  unfold bind. destruct (m w) as [[a| y | |] w1]; intros H;
    try discriminate.
  - right. exists a, w1. split; [reflexivity | exact H].
  - left. inversion H. reflexivity.
Qed.

(** *** Computations that throw nothing *)

Lemma nt_ret {A} (a : A) : never_throws (ret a).
Proof. intros w x w' H. discriminate H. Qed.

Lemma nt_png_error {A} : never_throws (@png_error A).
Proof. intros w x w' H. discriminate H. Qed.

Lemma nt_undefined {A} : never_throws (@undefined A).
Proof. intros w x w' H. discriminate H. Qed.

Lemma nt_defined {A} (o : option A) : never_throws (defined o).
Proof. destruct o; [apply nt_ret | apply nt_undefined]. Qed.

Lemma nt_may_fail e c : never_throws (may_fail e c).
Proof.
  unfold may_fail. destruct (png_fault e c); [apply nt_png_error | apply nt_ret].
Qed.

Lemma nt_log ev : never_throws (log ev).
Proof. intros w x w' H. discriminate H. Qed.

Lemma nt_modify_out f : never_throws (modify_out f).
Proof. intros w x w' H. discriminate H. Qed.

Lemma nt_bind {A B} (m : M A) (k : A -> M B) :
  never_throws m -> (forall a, never_throws (k a)) ->
  never_throws (bind m k).
Proof.
  intros Hm Hk w x w' H. apply bind_Throw_inv in H.
  destruct H as [H | (a & w1 & _ & H)]; [eapply Hm, H | eapply Hk, H].
Qed.

Lemma nt_if {A} (b : bool) (m1 m2 : M A) :
  never_throws m1 -> never_throws m2 -> never_throws (if b then m1 else m2).
Proof. destruct b; auto. Qed.

Lemma nt_png_handle_unknown {U} (fn : user_chunk_fn U) chunks :
  forall u, never_throws (png_handle_unknown fn chunks u).
Proof.
  induction chunks as [|c rest IH]; intros u; simpl.
  - apply nt_ret.
  - apply nt_bind; [apply nt_defined|]. intros [r u'].
    repeat apply nt_if; auto using @nt_png_error.
Qed.

Lemma nt_png_read_info {U} e (fn : user_chunk_fn U) u s :
  never_throws (png_read_info e fn u s).
Proof.
  unfold png_read_info.
  apply nt_bind; [apply nt_may_fail|]. intros _.
  repeat apply nt_if; try apply nt_png_error.
  apply nt_bind; [apply nt_png_handle_unknown|]. intros; apply nt_ret.
Qed.

Lemma nt_png_read_update_info e rd : never_throws (png_read_update_info e rd).
Proof.
  unfold png_read_update_info.
  apply nt_bind; [apply nt_may_fail|]. intros _. apply nt_ret.
Qed.

Lemma nt_read_rows rd image n :
  forall i mem, never_throws (read_rows rd image i n mem).
Proof.
  induction n as [|n IH]; intros i mem; simpl.
  - apply nt_ret.
  - destruct (source_row (rd_stream rd) i) as [r|]; [|apply nt_png_error].
    apply nt_bind; [apply nt_defined|]. intros ptr.
    apply nt_bind; [apply nt_defined|]. intros mem'. apply IH.
Qed.

Lemma nt_png_read_image e rd image mem :
  never_throws (png_read_image e rd image mem).
Proof.
  unfold png_read_image. apply nt_bind; [apply nt_may_fail|].
  intros _. apply nt_read_rows.
Qed.

Lemma nt_png_read_end {U} e rd (fn : user_chunk_fn U) u :
  never_throws (png_read_end e rd fn u).
Proof.
  unfold png_read_end. apply nt_bind; [apply nt_may_fail|].
  intros _. apply nt_png_handle_unknown.
Qed.

Lemma nt_load_palette rd im : never_throws (load_palette rd im).
Proof.
  unfold load_palette.
  destruct (png_get_valid_tRNS rd), (png_get_tRNS rd), (png_get_PLTE rd).
  - apply nt_bind; [apply nt_defined|]. intros; apply nt_ret.
  - apply nt_bind; [apply nt_defined|]. intros [cs k]; apply nt_ret.
Qed.

(** *** What the steps of the guarded part return *)

Lemma png_read_info_Ret_inv {U} e (fn : user_chunk_fn U) u s w rd u' w' :
  png_read_info e fn u s w = (Ret (rd, u'), w') ->
  png_check_IHDR (IHDR s) = true /\
  (color_type (IHDR s) = PNG_COLOR_TYPE_PALETTE -> PLTE s <> []) /\
  rd = {| rd_stream := s; rd_info := IHDR s;
          rd_transformations := no_transforms |} /\
  png_handle_unknown fn (unknown_before_IDAT s) u w = (Ret u', w').
Proof.
  intros H. unfold png_read_info in H.
  apply bind_Ret_inv in H. destruct H as (t & w1 & Hf & H).
  apply may_fail_Ret_inv in Hf. destruct Hf as [_ ->].
  destruct (png_check_IHDR (IHDR s)) eqn:Hc; cbn [negb] in H;
    [|discriminate].
  destruct ((color_type (IHDR s) =? PNG_COLOR_TYPE_PALETTE)
            && (length (PLTE s) =? 0)%nat) eqn:Hp; [discriminate|].
  apply bind_Ret_inv in H. destruct H as (o1 & w2 & Hu & H).
  inversion H; subst. repeat split; try assumption.
  intros Hct Hnil. rewrite Hct, Hnil in Hp. discriminate Hp.
Qed.

Lemma png_read_update_info_Ret_inv e s w rd w' :
  png_read_update_info e
    (request_transforms (color_type (IHDR s))
       {| rd_stream := s; rd_info := IHDR s;
          rd_transformations := no_transforms |}) w = (Ret rd, w') ->
  rd = reader_of s /\ w' = w.
Proof.
  intros H. unfold png_read_update_info in H.
  apply bind_Ret_inv in H. destruct H as (t & w1 & Hf & H).
  apply may_fail_Ret_inv in Hf. destruct Hf as [_ ->].
  inversion H; subst. split; [|reflexivity].
  rewrite !request_transforms_stream, !request_transforms_info.
  reflexivity.
Qed.

(** The switch on the colour type throws only for a grayscale file: libpng
    reports 8 bits for every file it accepts, and leaves only gray without
    the colour bit. *)
Lemma format_of_updated s w x w' :
  png_check_IHDR (IHDR s) = true ->
  format_of (color_type (updated_IHDR s)) (bit_depth (updated_IHDR s)) w
  = (Throw x, w') ->
  color_type (IHDR s) = PNG_COLOR_TYPE_GRAY /\
  (x = image_load_error "Unknown PNG image color type: 0" \/
   x = image_load_error "Unknown PNG image color type: 4").
Proof.
  intros Hc H.
  destruct (updated_IHDR_spec s Hc) as (_ & _ & Hd & Hct).
  rewrite Hd, Hct in H.
  destruct (png_check_IHDR_inv _ Hc) as (_ & _ & _ & Hcts & _).
  destruct Hcts as [E|[E|[E|[E|E]]]]; rewrite E in H |- *;
    try discriminate H.
  split; [reflexivity|].
  change (0 =? PNG_COLOR_TYPE_GRAY) with true in H. cbv iota in H.
  destruct (num_trans s =? 0); inversion H; auto.
Qed.

(** What the switch returns, by colour type of the file. *)
Lemma format_of_updated_Ret s w fmt w' :
  png_check_IHDR (IHDR s) = true ->
  format_of (color_type (updated_IHDR s)) (bit_depth (updated_IHDR s)) w
  = (Ret fmt, w') ->
  (color_type (IHDR s) = PNG_COLOR_TYPE_RGB /\ fmt = pixel_format.rgb /\
   color_type (updated_IHDR s) = PNG_COLOR_TYPE_RGB) \/
  ((color_type (IHDR s) = PNG_COLOR_TYPE_RGB_ALPHA \/
    color_type (IHDR s) = PNG_COLOR_TYPE_GRAY_ALPHA) /\
   fmt = pixel_format.rgba /\
   color_type (updated_IHDR s) = PNG_COLOR_TYPE_RGB_ALPHA) \/
  (color_type (IHDR s) = PNG_COLOR_TYPE_PALETTE /\
   fmt = pixel_format.index8 /\
   color_type (updated_IHDR s) = PNG_COLOR_TYPE_PALETTE).
Proof.
  intros Hc H.
  destruct (updated_IHDR_spec s Hc) as (_ & _ & Hd & Hct).
  rewrite Hd, Hct in H. rewrite Hct.
  destruct (png_check_IHDR_inv _ Hc) as (_ & _ & _ & Hcts & _).
  destruct Hcts as [E|[E|[E|[E|E]]]]; rewrite E in H |- *.
  - change (0 =? PNG_COLOR_TYPE_GRAY) with true in H. cbv iota in H.
    destruct (num_trans s =? 0); discriminate H.
  - inversion H. left. auto.
  - inversion H. right. right. auto.
  - inversion H. right. left. auto.
  - inversion H. right. left. auto.
Qed.

Lemma load_body_Throw_inv e s w x w' :
  load_body e s w = (Throw x, w') ->
  color_type (IHDR s) = PNG_COLOR_TYPE_GRAY /\
  (x = image_load_error "Unknown PNG image color type: 0" \/
   x = image_load_error "Unknown PNG image color type: 4").
Proof.
  intros H. unfold load_body in H.
  apply bind_Throw_inv in H.
  destruct H as [H | ([rd offs] & w1 & Hinfo & H)];
    [exfalso; eapply nt_png_read_info, H|].
  apply png_read_info_Ret_inv in Hinfo.
  destruct Hinfo as (Hc & _ & -> & _).
  cbn [png_get_IHDR rd_info] in H.
  apply bind_Throw_inv in H.
  destruct H as [H | (rd & w2 & Hupd & H)];
    [exfalso; eapply nt_png_read_update_info, H|].
  apply png_read_update_info_Ret_inv in Hupd. destruct Hupd as [-> ->].
  cbn [png_get_IHDR rd_info reader_of] in H.
  apply bind_Throw_inv in H.
  destruct H as [H | (fmt & w3 & _ & H)];
    [eapply format_of_updated; eassumption|].
  exfalso.
  apply bind_Throw_inv in H.
  destruct H as [H | (retval & w4 & _ & H)].
  { revert H. apply nt_if; [apply nt_load_palette | apply nt_ret]. }
  apply bind_Throw_inv in H.
  destruct H as [H | (pixels & w5 & _ & H)];
    [eapply nt_png_read_image, H|].
  apply bind_Throw_inv in H.
  destruct H as [H | (o2 & w6 & _ & H)];
    [eapply nt_png_read_end, H | discriminate H].
Qed.

(** X4: the ways [load] fails.  It never leaves through libpng's [longjmp]
    and never touches the output; when it throws, the exception is an
    [image_load_error] with one of five messages: the read struct could not
    be created (nothing is held), the info struct could not be created (the
    read struct was released), libpng reported an error (both structs were
    released, once each, info first), or the file is grayscale and the
    switch on the colour type rejected it (both structs are still held). *)
Theorem load_failure_modes (e : env) (s : png_datastream) (w : world) :
  fst (load e s w) <> Longjmp /\
  out (snd (load e s w)) = out w /\
  forall x w', load e s w = (Throw x, w') ->
    (x = image_load_error "Failed to create PNG read struct" /\
     create_struct_ok e = false /\ events w' = events w) \/
    (x = image_load_error "Failed to create PNG info struct" /\
     create_info_ok e = false /\
     events w' = events w ++ [Acquire read_struct; Release read_struct]) \/
    (x = image_load_error "An error occurred in libpng" /\
     events w' = events w ++ [Acquire read_struct; Acquire info_struct;
                              Release info_struct; Release read_struct]) \/
    ((x = image_load_error "Unknown PNG image color type: 0" \/
      x = image_load_error "Unknown PNG image color type: 4") /\
     color_type (IHDR s) = PNG_COLOR_TYPE_GRAY /\
     events w' = events w ++ [Acquire read_struct; Acquire info_struct]).
Proof.
  destruct (create_struct_ok e) eqn:Hs.
  2:{ assert (E : load e s w
                  = (Throw (image_load_error
                              "Failed to create PNG read struct"), w)).
      { unfold load, png_create_read_struct. rewrite Hs. reflexivity. }
      rewrite E. split; [discriminate|]. split; [reflexivity|].
      intros x w' H. inversion H; subst. left. auto. }
  destruct (create_info_ok e) eqn:Hi.
  2:{ assert (E : load e s w
                  = (Throw (image_load_error
                              "Failed to create PNG info struct"),
                     {| events := (events w ++ [Acquire read_struct])
                                  ++ [Release read_struct];
                        out := out w |})).
      { unfold load, png_create_read_struct, png_create_info_struct.
        rewrite Hs, Hi. reflexivity. }
      rewrite E. split; [discriminate|]. split; [reflexivity|].
      intros x w' H. inversion H; subst. right. left.
      cbn [events]. rewrite <- app_assoc. auto. }
  rewrite load_frame by assumption. unfold setjmp.
  pose proof (pure_load_body e s (reader_acquired w)) as Hp.
  destruct (load_body e s (reader_acquired w)) as [[img|y| |] w1] eqn:Hb;
    simpl in Hp; subst w1.
  - split; [discriminate|]. split; [reflexivity|]. intros x w' H.
    discriminate H.
  - split; [discriminate|]. split; [reflexivity|]. intros x w' H.
    inversion H; subst. right. right. right.
    destruct (load_body_Throw_inv _ _ _ _ _ Hb) as [Hg Hx].
    split; [exact Hx|]. split; [exact Hg|].
    cbn [events reader_acquired]. rewrite <- app_assoc. reflexivity.
  - split; [discriminate|]. split; [reflexivity|]. intros x w' H.
    inversion H; subst. right. right. left. split; [reflexivity|].
    cbn [events reader_acquired]. rewrite <- !app_assoc. reflexivity.
  - split; [discriminate|]. split; [reflexivity|]. intros x w' H.
    discriminate H.
Qed.

(** ** The image load returns *)

Lemma Mem_write_length mem off bytes mem' :
  Mem.write mem off bytes = Some mem' -> length mem' = length mem.
Proof.
  unfold Mem.write.
  destruct (Nat.leb_spec (off + length bytes) (length mem)) as [Hle|Hle];
    [|discriminate].
  intros H. injection H as <-.
  rewrite !length_app, length_firstn, length_skipn. lia.
Qed.

(** libpng stores the rows inside the buffer it was given. *)
Lemma read_rows_length rd image n :
  forall i mem w mem' w',
    read_rows rd image i n mem w = (Ret mem', w') ->
    length mem' = length mem.
Proof.
  induction n as [|n IH]; intros i mem w mem' w' H; simpl in H.
  - inversion H. reflexivity.
  - destruct (source_row (rd_stream rd) i) as [r|]; [|discriminate].
    apply bind_Ret_inv in H. destruct H as (p & w1 & _ & H).
    apply bind_Ret_inv in H. destruct H as (m1 & w2 & Hw & H).
    apply defined_Ret_inv in Hw. destruct Hw as [Hw _].
    rewrite (IH _ _ _ _ _ H). eapply Mem_write_length, Hw.
Qed.

Lemma load_palette_Ret_inv rd im w im' w' :
  load_palette rd im w = (Ret im', w') ->
  exists p, im' = set_palette im p /\ p <> Palette_none.
Proof.
  unfold load_palette.
  destruct (png_get_valid_tRNS rd), (png_get_tRNS rd), (png_get_PLTE rd);
    intros H; apply bind_Ret_inv in H.
  - destruct H as (pd & w1 & _ & H). inversion H.
    eexists. split; [reflexivity | discriminate].
  - destruct H as ([cs k] & w1 & _ & H). inversion H.
    eexists. split; [reflexivity | discriminate].
Qed.

(** The steps of the guarded part of [load] when it returns an image. *)
Lemma load_body_Ret_steps e s w img w' :
  load_body e s w = (Ret img, w') ->
  png_check_IHDR (IHDR s) = true /\
  exists fmt retval pixels w1 w2 w3 w4,
    format_of (color_type (updated_IHDR s)) (bit_depth (updated_IHDR s)) w1
    = (Ret fmt, w2) /\
    (if color_type (updated_IHDR s) =? PNG_COLOR_TYPE_PALETTE
     then load_palette (reader_of s)
            (Image_new e (width (updated_IHDR s)) (height (updated_IHDR s))
                       fmt)
     else ret (Image_new e (width (updated_IHDR s))
                         (height (updated_IHDR s)) fmt)) w2
    = (Ret retval, w3) /\
    read_rows (reader_of s)
      (map (scanline_ptr
              (Image_new e (width (updated_IHDR s)) (height (updated_IHDR s))
                         fmt))
           (seq 0 (Z.to_nat (height (updated_IHDR s)))))
      0 (Z.to_nat (height (IHDR s))) (img_data retval) w3
    = (Ret pixels, w4) /\
    img = set_data
            (set_offsets retval
               (offsets_after (host e) (unknown_before_IDAT s)
                              (stack_offsets e)))
            pixels.
Proof.
  intros H. unfold load_body in H.
  apply bind_Ret_inv in H. destruct H as ([rd offs] & w1 & Hinfo & H).
  apply png_read_info_Ret_inv in Hinfo.
  destruct Hinfo as (Hc & _ & -> & Hu).
  apply png_handle_unknown_Ret_inv in Hu. subst offs.
  cbn [png_get_IHDR rd_info] in H.
  apply bind_Ret_inv in H. destruct H as (rd & w2 & Hupd & H).
  apply png_read_update_info_Ret_inv in Hupd. destruct Hupd as [-> ->].
  cbn [png_get_IHDR rd_info reader_of] in H.
  apply bind_Ret_inv in H. destruct H as (fmt & w3 & Hfmt & H).
  apply bind_Ret_inv in H. destruct H as (retval & w4 & Hpal & H).
  apply bind_Ret_inv in H. destruct H as (pixels & w5 & Himg & H).
  apply bind_Ret_inv in H. destruct H as (o2 & w6 & _ & H).
  unfold png_read_image in Himg.
  apply bind_Ret_inv in Himg. destruct Himg as (t & w7 & Hf & Himg).
  apply may_fail_Ret_inv in Hf. destruct Hf as [_ ->].
  cbn [rd_stream reader_of img_data set_offsets] in Himg.
  split; [exact Hc|].
  exists fmt, retval, pixels, w1, w3, w4, w5.
  split; [exact Hfmt|]. split; [exact Hpal|]. split; [exact Himg|].
  inversion H. reflexivity.
Qed.

(** X5: every image [load] returns is well formed and non-empty: it has the
    width and height of the file's header, a buffer of exactly
    height x width x bytes-per-pixel bytes, and a format decided by the
    colour type of the file: rgb for RGB, rgba for RGB with alpha and for
    gray with alpha, index8 (with a palette) for a paletted file.  No other
    colour type gives an image. *)
Theorem load_returns_valid_image (e : env) (s : png_datastream)
    (w w' : world) (img : Image) :
  load e s w = (Ret img, w') ->
  img_width img = width (IHDR s) /\
  img_height img = height (IHDR s) /\
  valid_image img /\ non_empty img /\
  ((color_type (IHDR s) = PNG_COLOR_TYPE_RGB /\
    img_format img = pixel_format.rgb /\ img_palette img = Palette_none) \/
   ((color_type (IHDR s) = PNG_COLOR_TYPE_RGB_ALPHA \/
     color_type (IHDR s) = PNG_COLOR_TYPE_GRAY_ALPHA) /\
    img_format img = pixel_format.rgba /\ img_palette img = Palette_none) \/
   (color_type (IHDR s) = PNG_COLOR_TYPE_PALETTE /\
    img_format img = pixel_format.index8 /\
    img_palette img <> Palette_none)).
Proof.
  intros H. apply load_Ret_inv in H. destruct H as (_ & _ & H & _).
  apply load_body_Ret_steps in H.
  destruct H as (Hc & fmt & retval & pixels & w1 & w2 & w3 & w4
                 & Hfmt & Hpal & Hrows & ->).
  destruct (updated_IHDR_spec s Hc) as (Hw & Hh & _ & _).
  destruct (png_check_IHDR_inv _ Hc) as (Hw0 & Hh0 & _).
  rewrite Hw, Hh in *.
  apply read_rows_length in Hrows.
  apply format_of_updated_Ret in Hfmt; [|exact Hc].
  assert (Hretval :
    exists p, retval = set_palette
                         (Image_new e (width (IHDR s)) (height (IHDR s)) fmt)
                         p /\
              (color_type (updated_IHDR s) = PNG_COLOR_TYPE_PALETTE ->
               p <> Palette_none) /\
              (color_type (updated_IHDR s) <> PNG_COLOR_TYPE_PALETTE ->
               p = img_palette
                     (Image_new e (width (IHDR s)) (height (IHDR s)) fmt))).
  { destruct (Z.eqb_spec (color_type (updated_IHDR s)) PNG_COLOR_TYPE_PALETTE)
      as [E|E].
    - apply load_palette_Ret_inv in Hpal. destruct Hpal as (p & -> & Hp).
      exists p. split; [reflexivity|]. split; [auto | contradiction].
    - inversion Hpal. eexists. split; [reflexivity|].
      split; [contradiction | reflexivity]. }
  destruct Hretval as (p & -> & Hp1 & Hp2).
  cbn [img_data set_palette Image_new] in Hrows.
  rewrite repeat_length in Hrows.
  unfold set_data, set_offsets, set_palette, Image_new.
  cbn [img_width img_height img_format img_palette img_data].
  assert (Hbytes : 0 <= pixel_format.bytes fmt)
    by (destruct fmt; cbn; lia).
  split; [reflexivity|]. split; [reflexivity|].
  split.
  { unfold valid_image, pitch.
    cbn [img_width img_height img_format img_data].
    split; [lia|]. split; [lia|].
    rewrite Hrows, Z2Nat.id by nia. ring. }
  split.
  { unfold non_empty. cbn [img_width img_height]. lia. }
  destruct Hfmt as [(Hct & -> & Hu) | [(Hct & -> & Hu) | (Hct & -> & Hu)]].
  - left. split; [exact Hct|]. split; [reflexivity|].
    rewrite Hp2 by (rewrite Hu; discriminate). reflexivity.
  - right. left. split; [exact Hct|]. split; [reflexivity|].
    rewrite Hp2 by (rewrite Hu; discriminate). reflexivity.
  - right. right. split; [exact Hct|]. split; [reflexivity|]. auto.
Qed.

Lemma load_returns_valid_image_witness :
  load Sample.env0 Sample.rgb_2x1 initial_world
  = (Ret (mkImage 2 1 pixel_format.rgb [10; 20; 30; 40; 50; 60]
                  Palette_none (7, -9)),
     reader_acquired initial_world) /\
  valid_image (mkImage 2 1 pixel_format.rgb [10; 20; 30; 40; 50; 60]
                       Palette_none (7, -9)) /\
  non_empty (mkImage 2 1 pixel_format.rgb [10; 20; 30; 40; 50; 60]
                     Palette_none (7, -9)).
Proof.
  assert (Hl : load Sample.env0 Sample.rgb_2x1 initial_world
               = (Ret (mkImage 2 1 pixel_format.rgb [10; 20; 30; 40; 50; 60]
                               Palette_none (7, -9)),
                  reader_acquired initial_world)) by reflexivity.
  split; [exact Hl|].
  pose proof (load_returns_valid_image _ _ _ _ _ Hl) as (_ & _ & Hv & Hn & _).
  split; [exact Hv | exact Hn].
Defined.

(** ** Chunks behind the image data *)

(** *** Computations whose outcome does not depend on the state *)

Lemma st_ret {A} (a : A) : stateless (ret a).
Proof. intros w1 w2. reflexivity. Qed.

Lemma st_throw {A} x : stateless (@throw A x).
Proof. intros w1 w2. reflexivity. Qed.

Lemma st_png_error {A} : stateless (@png_error A).
Proof. intros w1 w2. reflexivity. Qed.

Lemma st_undefined {A} : stateless (@undefined A).
Proof. intros w1 w2. reflexivity. Qed.

Lemma st_defined {A} (o : option A) : stateless (defined o).
Proof. destruct o; [apply st_ret | apply st_undefined]. Qed.

Lemma st_bind {A B} (m : M A) (k : A -> M B) :
  stateless m -> (forall a, stateless (k a)) -> stateless (bind m k).
Proof.
  intros Hm Hk w1 w2. unfold bind. specialize (Hm w1 w2).
  destruct (m w1) as [[a| x | |] v1], (m w2) as [[b| y | |] v2];
    simpl in Hm; try discriminate Hm; try reflexivity.
  - injection Hm as ->. apply Hk.
  - injection Hm as ->. reflexivity.
Qed.

Lemma st_if {A} (b : bool) (m1 m2 : M A) :
  stateless m1 -> stateless m2 -> stateless (if b then m1 else m2).
Proof. destruct b; auto. Qed.

Lemma st_format_of ct d : stateless (format_of ct d).
Proof.
  unfold format_of.
  repeat apply st_if; try apply st_ret; apply st_throw.
Qed.

Lemma st_load_palette rd im : stateless (load_palette rd im).
Proof.
  unfold load_palette.
  destruct (png_get_valid_tRNS rd), (png_get_tRNS rd), (png_get_PLTE rd).
  - apply st_bind; [apply st_defined|]. intros; apply st_ret.
  - apply st_bind; [apply st_defined|]. intros [cs k]; apply st_ret.
Qed.

Lemma st_read_rows rd image n :
  forall i mem, stateless (read_rows rd image i n mem).
Proof.
  induction n as [|n IH]; intros i mem; simpl.
  - apply st_ret.
  - destruct (source_row (rd_stream rd) i) as [r|]; [|apply st_png_error].
    apply st_bind; [apply st_defined|]. intros ptr.
    apply st_bind; [apply st_defined|]. intros mem'. apply IH.
Qed.

Lemma stateless_Ret {A} (m : M A) w1 a w1' w2 b w2' :
  stateless m -> m w1 = (Ret a, w1') -> m w2 = (Ret b, w2') -> a = b.
Proof.
  intros Hm H1 H2. specialize (Hm w1 w2). rewrite H1, H2 in Hm.
  simpl in Hm. injection Hm as ->. reflexivity.
Qed.

(** The rows libpng delivers depend on the file only through its header,
    palette, transparency and image data. *)
Lemma read_rows_same_rows rd rd' image :
  (forall i, source_row (rd_stream rd') i = source_row (rd_stream rd) i) ->
  (forall r, png_do_read_transformations rd' r
             = png_do_read_transformations rd r) ->
  forall n i mem w,
    read_rows rd' image i n mem w = read_rows rd image i n mem w.
Proof.
  intros Hsrc Htr. induction n as [|n IH]; intros i mem w; simpl.
  - reflexivity.
  - rewrite Hsrc. destruct (source_row (rd_stream rd) i) as [r|];
      [|reflexivity].
    rewrite Htr. unfold bind.
    destruct (defined (nth_error image i) w) as [[p| | |] w1];
      try reflexivity.
    destruct (defined (Mem.write mem p
                (row_samples (png_do_read_transformations rd r))) w1)
      as [[m1| | |] w2]; try reflexivity.
    apply IH.
Qed.

Lemma requested_with_chunks s l :
  requested (with_chunks_after_IDAT s l) = requested s.
Proof. rewrite !requested_spec. reflexivity. Qed.

Lemma updated_IHDR_with_chunks s l :
  updated_IHDR (with_chunks_after_IDAT s l) = updated_IHDR s.
Proof. unfold updated_IHDR. rewrite requested_with_chunks. reflexivity. Qed.

Lemma read_rows_with_chunks s l image n i mem w :
  read_rows (reader_of (with_chunks_after_IDAT s l)) image i n mem w
  = read_rows (reader_of s) image i n mem w.
Proof.
  apply read_rows_same_rows.
  - intros k. reflexivity.
  - intros r. unfold png_do_read_transformations, reader_of.
    cbn [rd_transformations rd_stream]. rewrite requested_with_chunks.
    reflexivity.
Qed.

(** X6: chunks behind the image data can make [load] fail, but they never
    change the image: whenever [load] returns for a file and for the same
    file with other chunks after its image data, it returns the same image,
    offsets included (a [grAb] chunk placed there is not used). *)
Theorem load_ignores_chunks_after_image (e : env) (s : png_datastream)
    (l : list png_unknown_chunk) (w w' w1 w1' : world) (img img' : Image) :
  load e s w = (Ret img, w') ->
  load e (with_chunks_after_IDAT s l) w1 = (Ret img', w1') ->
  img' = img.
Proof.
  intros H H'.
  apply load_Ret_inv in H. destruct H as (_ & _ & H & _).
  apply load_Ret_inv in H'. destruct H' as (_ & _ & H' & _).
  apply load_body_Ret_steps in H.
  destruct H as (Hc & fmt & retval & pixels & v1 & v2 & v3 & v4
                 & Hfmt & Hpal & Hrows & ->).
  apply load_body_Ret_steps in H'.
  destruct H' as (_ & fmt' & retval' & pixels' & u1 & u2 & u3 & u4
                  & Hfmt' & Hpal' & Hrows' & ->).
  rewrite updated_IHDR_with_chunks in Hfmt', Hpal', Hrows'.
  change (unknown_before_IDAT (with_chunks_after_IDAT s l))
    with (unknown_before_IDAT s).
  change (height (IHDR (with_chunks_after_IDAT s l)))
    with (height (IHDR s)) in Hrows'.
  assert (Efmt : fmt = fmt')
    by (eapply stateless_Ret; [apply st_format_of | eassumption..]).
  subst fmt'.
  assert (Eret : retval = retval').
  { eapply stateless_Ret; [| exact Hpal | exact Hpal'].
    apply st_if; [apply st_load_palette | apply st_ret]. }
  subst retval'.
  rewrite read_rows_with_chunks in Hrows'.
  assert (Epix : pixels = pixels')
    by (eapply stateless_Ret; [apply st_read_rows | eassumption..]).
  subst pixels'. reflexivity.
Qed.

Lemma load_ignores_chunks_after_image_witness :
  load Sample.env0 Sample.rgb_2x1 initial_world
  = (Ret (mkImage 2 1 pixel_format.rgb [10; 20; 30; 40; 50; 60]
                  Palette_none (7, -9)),
     reader_acquired initial_world) /\
  exists img',
    load Sample.env0
         (with_chunks_after_IDAT Sample.rgb_2x1 [Sample2.grAb_5_minus_3])
         initial_world
    = (Ret img', reader_acquired initial_world) /\
    img' = mkImage 2 1 pixel_format.rgb [10; 20; 30; 40; 50; 60]
                   Palette_none (7, -9).
Proof.
  assert (H1 : load Sample.env0 Sample.rgb_2x1 initial_world
               = (Ret (mkImage 2 1 pixel_format.rgb [10; 20; 30; 40; 50; 60]
                               Palette_none (7, -9)),
                  reader_acquired initial_world)) by reflexivity.
  assert (H2 : load Sample.env0
                 (with_chunks_after_IDAT Sample.rgb_2x1
                    [Sample2.grAb_5_minus_3])
                 initial_world
               = (Ret (mkImage 2 1 pixel_format.rgb [10; 20; 30; 40; 50; 60]
                               Palette_none (7, -9)),
                  reader_acquired initial_world)) by reflexivity.
  split; [exact H1|].
  eexists. split; [exact H2|].
  exact (load_ignores_chunks_after_image _ _ _ _ _ _ _ _ _ H1 H2).
Defined.

(** ** RGB files of either bit depth *)

Lemma bind_png_error {A B} (k : A -> M B) : bind png_error k = png_error.
Proof. reflexivity. Qed.

Section RgbRows.

Variable s : png_datastream.
Hypothesis Hcheck : png_check_IHDR (IHDR s) = true.
Hypothesis Hrgb :
  color_type (IHDR s) = PNG_COLOR_TYPE_RGB \/
  color_type (IHDR s) = PNG_COLOR_TYPE_RGB_ALPHA.

Lemma rgb_depth : bit_depth (IHDR s) = 8 \/ bit_depth (IHDR s) = 16.
Proof.
  destruct (png_check_IHDR_inv _ Hcheck) as (_ & _ & Hd & _ & _ & H8).
  assert (8 <= bit_depth (IHDR s))
    by (apply H8; destruct Hrgb as [E|E]; rewrite E; cbn; auto).
  lia.
Qed.

(** The only transformation that applies to a row of an RGB file is the
    reduction of 16-bit samples to their high byte. *)
Lemma rgb_row l :
  row_samples (png_do_read_transformations (reader_of s)
                 (mk_row (color_type (IHDR s)) (bit_depth (IHDR s)) l))
  = if bit_depth (IHDR s) =? 16 then map (fun v => Z.shiftr v 8) l else l.
Proof.
  unfold png_do_read_transformations, reader_of.
  cbn [rd_transformations rd_stream]. rewrite requested_spec. cbv zeta.
  cbn [PNG_EXPAND PNG_GRAY_TO_RGB PNG_16_TO_8 PNG_PACK].
  replace ((color_type (IHDR s) =? PNG_COLOR_TYPE_GRAY)
           || (color_type (IHDR s) =? PNG_COLOR_TYPE_GRAY_ALPHA)) with false
    by (destruct Hrgb as [-> | ->]; reflexivity).
  replace (color_type (IHDR s) =? PNG_COLOR_TYPE_GRAY_ALPHA) with false
    by (destruct Hrgb as [-> | ->]; reflexivity).
  replace (bit_depth (IHDR s) <? 8) with false
    by (destruct rgb_depth as [-> | ->]; reflexivity).
  unfold png_do_chop. cbn [row_bit_depth].
  destruct (bit_depth (IHDR s) =? 16); reflexivity.
Qed.

Lemma rgb_row_length l :
  length (row_samples (png_do_read_transformations (reader_of s)
                         (mk_row (color_type (IHDR s)) (bit_depth (IHDR s))
                                 l)))
  = length l.
Proof.
  rewrite rgb_row. destruct (bit_depth (IHDR s) =? 16);
    [apply length_map | reflexivity].
Qed.

(** Every row the file holds reaches the image with [samples_per_row]
    bytes. *)
Lemma rgb_source_row_length k r :
  source_row s k = Some r ->
  length (row_samples (png_do_read_transformations (reader_of s) r))
  = samples_per_row s.
Proof.
  unfold source_row, Mem.read. fold (samples_per_row s).
  destruct (Nat.leb_spec (k * samples_per_row s + samples_per_row s)
              (length (samples s))) as [Hle|Hgt]; [|discriminate].
  cbn [option_map]. intros H. injection H as <-.
  rewrite rgb_row_length, length_firstn, length_skipn. lia.
Qed.

Lemma rgb_format_of :
  format_of (color_type (updated_IHDR s)) (bit_depth (updated_IHDR s))
  = ret (if color_type (IHDR s) =? PNG_COLOR_TYPE_RGB
         then pixel_format.rgb else pixel_format.rgba) /\
  (color_type (updated_IHDR s) =? PNG_COLOR_TYPE_PALETTE) = false /\
  pixel_format.bytes (if color_type (IHDR s) =? PNG_COLOR_TYPE_RGB
                      then pixel_format.rgb else pixel_format.rgba)
  = channels (color_type (IHDR s)).
Proof.
  destruct (updated_IHDR_spec s Hcheck) as (_ & _ & Hd & Hct).
  rewrite Hd, Hct.
  destruct Hrgb as [E|E]; rewrite E; repeat split.
Qed.

Hypothesis Hsamples :
  width (IHDR s) * height (IHDR s) * channels (color_type (IHDR s))
  <= Z.of_nat (length (samples s)).

Lemma rgb_enough_samples :
  (row_count s * samples_per_row s <= length (samples s))%nat.
Proof.
  destruct (png_check_IHDR_inv _ Hcheck) as (Hw & Hh & _).
  assert (Hch : 0 <= channels (color_type (IHDR s)))
    by (destruct Hrgb as [-> | ->]; cbn; lia).
  unfold row_count, samples_per_row. rewrite <- Z2Nat.inj_mul by nia.
  apply Nat2Z.inj_le. rewrite Z2Nat.id by nia. lia.
Qed.

Lemma rgb_source_row k :
  (k < row_count s)%nat ->
  source_row s k
  = Some (mk_row (color_type (IHDR s)) (bit_depth (IHDR s))
            (firstn (samples_per_row s)
                    (skipn (k * samples_per_row s) (samples s)))).
Proof.
  intros Hk. pose proof rgb_enough_samples as Hlen.
  unfold source_row, Mem.read. fold (samples_per_row s).
  destruct (Nat.leb_spec (k * samples_per_row s + samples_per_row s)
              (length (samples s))) as [_|Hgt];
    [reflexivity | nia].
Qed.

End RgbRows.

(** X7: a 16-bit RGB or RGBA file is returned as an 8-bit rgb or rgba image
    in which every byte is the high byte of the sample of the file at the
    same position ([png_set_strip_16]). *)
Theorem load_rgb_16 (e : env) (s : png_datastream) (w : world) :
  healthy e -> readable s ->
  color_type (IHDR s) = PNG_COLOR_TYPE_RGB \/
  color_type (IHDR s) = PNG_COLOR_TYPE_RGB_ALPHA ->
  bit_depth (IHDR s) = 16 ->
  load e s w
  = (Ret (mkImage (width (IHDR s)) (height (IHDR s))
            (if color_type (IHDR s) =? PNG_COLOR_TYPE_RGB
             then pixel_format.rgb else pixel_format.rgba)
            (map (fun v => Z.shiftr v 8)
                 (firstn (Z.to_nat (width (IHDR s) * height (IHDR s)
                                    * channels (color_type (IHDR s))))
                         (samples s)))
            Palette_none
            (offsets_after (host e) (unknown_before_IDAT s)
                           (stack_offsets e))),
     reader_acquired w).
Proof.
  intros (Hs & Hi & Hf) Hreadable Hrgb Hdepth.
  pose proof (proj1 Hreadable) as Hc.
  destruct (png_check_IHDR_inv _ Hc) as (Hw0 & Hh0 & _).
  destruct (updated_IHDR_spec s Hc) as (Hw & Hh & _ & _).
  destruct (rgb_format_of s Hc Hrgb) as (Hfmt & Hpal & Hbytes).
  set (fmt := if color_type (IHDR s) =? PNG_COLOR_TYPE_RGB
              then pixel_format.rgb else pixel_format.rgba) in *.
  assert (Hch : 0 < channels (color_type (IHDR s)))
    by (destruct Hrgb as [-> | ->]; cbn; lia).
  pose proof (rgb_enough_samples s Hc Hrgb
                (proj2 (proj2 (proj2 (proj2 Hreadable))))) as Hlen.
  pose proof (rgb_source_row s Hc Hrgb
                (proj2 (proj2 (proj2 (proj2 Hreadable))))) as Hsrc.
  rewrite load_frame by assumption. unfold setjmp.
  rewrite (load_body_readable e s Hf Hreadable). cbv zeta.
  rewrite Hfmt, bind_ret_l, Hpal, bind_ret_l, Hw, Hh.
  assert (Hpitch : pitch (Image_new e (width (IHDR s)) (height (IHDR s)) fmt)
                   = width (IHDR s) * channels (color_type (IHDR s)))
    by (unfold pitch; cbn [img_width img_format Image_new];
        rewrite Hbytes; reflexivity).
  rewrite scanline_ptrs by (rewrite Hpitch; nia).
  rewrite Hpitch. fold (samples_per_row s).
  change (Z.to_nat (height (IHDR s))) with (row_count s).
  rewrite (read_rows_all (reader_of s) (samples_per_row s) (row_count s)).
  - rewrite bind_ret_l.
    assert (Hrows :
      map (decoded_row (reader_of s)) (seq 0 (row_count s))
      = map (map (fun v => Z.shiftr v 8))
            (map (fun k => firstn (samples_per_row s)
                             (skipn (k * samples_per_row s) (samples s)))
                 (seq 0 (row_count s)))).
    { rewrite map_map. apply map_ext_in. intros k Hk. apply in_seq in Hk.
      unfold decoded_row. cbn [rd_stream reader_of].
      rewrite Hsrc by lia.
      rewrite (rgb_row s Hc Hrgb), Hdepth. reflexivity. }
    rewrite Hrows, <- concat_map, concat_slices by exact Hlen.
    unfold set_data, set_offsets, Image_new.
    cbn [img_width img_height img_format img_palette img_offsets].
    unfold row_count, samples_per_row.
    rewrite <- Z2Nat.inj_mul by nia.
    replace (height (IHDR s)
             * (width (IHDR s) * channels (color_type (IHDR s))))
      with (width (IHDR s) * height (IHDR s)
            * channels (color_type (IHDR s))) by ring.
    destruct Hrgb as [E|E]; subst fmt; rewrite E; reflexivity.
  - intros k Hk. eexists. split.
    + cbn [rd_stream reader_of].
      apply Hsrc, Hk.
    + rewrite (rgb_row_length s Hc Hrgb), length_firstn, length_skipn. nia.
  - cbn [img_data set_offsets Image_new]. rewrite repeat_length.
    unfold row_count, samples_per_row. rewrite Hbytes.
    rewrite <- Z2Nat.inj_mul by nia. f_equal. ring.
Qed.

Lemma readable_rgb16_1x1 : readable Sample2.rgb16_1x1.
Proof.
  unfold readable. cbn.
  repeat split; try constructor; try discriminate; lia.
Defined.

Lemma load_rgb_16_witness :
  healthy Sample.env0 /\ readable Sample2.rgb16_1x1 /\
  load Sample.env0 Sample2.rgb16_1x1 initial_world
  = (Ret (mkImage 1 1 pixel_format.rgb [0x12; 0xAB; 0x00] Palette_none
                  (7, -9)),
     reader_acquired initial_world).
Proof.
  split; [exact healthy_env0 | split; [exact readable_rgb16_1x1|]].
  exact (load_rgb_16 Sample.env0 Sample2.rgb16_1x1 initial_world
           healthy_env0 readable_rgb16_1x1 (or_introl eq_refl) eq_refl).
Defined.

(** ** Files libpng rejects *)

(** X8: a file whose header libpng does not accept (an empty dimension, a
    bit depth or colour type outside the standard, an unknown interlace
    method), or a paletted file without palette, makes [load] throw
    ["An error occurred in libpng"], both structs released, whatever else
    the file holds. *)
Theorem load_rejects_header (e : env) (s : png_datastream) (w : world) :
  create_struct_ok e = true -> create_info_ok e = true ->
  png_check_IHDR (IHDR s) = false \/
  (color_type (IHDR s) = PNG_COLOR_TYPE_PALETTE /\ PLTE s = []) ->
  load e s w
  = (Throw (image_load_error "An error occurred in libpng"),
     reader_released w).
Proof.
  intros Hs Hi Hbad.
  assert (Hbody : load_body e s = png_error).
  { unfold load_body, png_read_info, may_fail.
    destruct (png_fault e in_read_info); [reflexivity|].
    rewrite bind_ret_l.
    destruct (png_check_IHDR (IHDR s)) eqn:Hc; [|reflexivity].
    destruct Hbad as [Hbad | [Hct Hnil]]; [discriminate Hbad|].
    rewrite Hct, Hnil. reflexivity. }
  rewrite (load_of_body e s w Hs Hi _ Hbody). reflexivity.
Qed.

Lemma load_rejects_header_witness :
  png_check_IHDR (IHDR Sample2.empty_width) = false /\
  load Sample.env0 Sample2.empty_width initial_world
  = (Throw (image_load_error "An error occurred in libpng"),
     {| events := [Acquire read_struct; Acquire info_struct;
                   Release info_struct; Release read_struct];
        out := empty_ostream |}).
Proof.
  split; [reflexivity|].
  exact (load_rejects_header Sample.env0 Sample2.empty_width initial_world
           eq_refl eq_refl (or_introl eq_refl)).
Defined.

(** ** Image data that ends too early *)

Section ReadRowsTruncated.

Variable rd : png_reader.
Variables P H K : nat.

(** Every row the file holds leaves the transformations with [P] bytes;
    row [K] is missing. *)
Hypothesis rows :
  forall k r, source_row (rd_stream rd) k = Some r ->
    length (row_samples (png_do_read_transformations rd r)) = P.
Hypothesis HK : (K < H)%nat.
Hypothesis missing : source_row (rd_stream rd) K = None.

Lemma read_rows_truncated n :
  forall i mem,
    (i + n = H)%nat -> (i <= K)%nat -> length mem = (H * P)%nat ->
    read_rows rd (map (fun k => (k * P)%nat) (seq 0 H)) i n mem
    = png_error.
Proof.
  induction n as [|n IH]; intros i mem Hin HiK Hmem.
  - lia.
  - simpl read_rows.
    destruct (source_row (rd_stream rd) i) as [r|] eqn:Hr; [|reflexivity].
    assert (i <> K) by (intros ->; rewrite missing in Hr; discriminate).
    pose proof (rows i r Hr) as Hlen.
    rewrite nth_error_map, nth_error_seq.
    destruct (Nat.ltb_spec i H) as [_|Hge]; [|lia].
    cbn [option_map defined Nat.add]. rewrite bind_ret_l.
    assert (HiP : (i * P + P <= H * P)%nat) by nia.
    unfold Mem.write.
    destruct (Nat.leb_spec
                (i * P + length (row_samples
                                   (png_do_read_transformations rd r)))
                (length mem)) as [_|Hgt]; [|lia].
    cbn [defined]. rewrite bind_ret_l.
    apply IH; [lia | lia |].
    rewrite !length_app, length_firstn, length_skipn. lia.
Qed.

End ReadRowsTruncated.

(** X9: when the image data of an RGB or RGBA file ends before the last row
    (the chunks ahead of it being ancillary), [load] throws
    ["An error occurred in libpng"] with both structs released: the rows
    that are present are stored inside the buffer, and no image is
    returned. *)
Theorem load_truncated_image (e : env) (s : png_datastream) (w : world) :
  create_struct_ok e = true -> create_info_ok e = true ->
  color_type (IHDR s) = PNG_COLOR_TYPE_RGB \/
  color_type (IHDR s) = PNG_COLOR_TYPE_RGB_ALPHA ->
  Forall ancillary (unknown_before_IDAT s) ->
  Z.of_nat (length (samples s))
  < width (IHDR s) * height (IHDR s) * channels (color_type (IHDR s)) ->
  load e s w
  = (Throw (image_load_error "An error occurred in libpng"),
     reader_released w).
Proof.
  intros Hs Hi Hrgb Hanc Hshort.
  assert (Hbody : load_body e s = png_error).
  { unfold load_body, png_read_info, may_fail.
    destruct (png_fault e in_read_info); [reflexivity|].
    rewrite bind_ret_l.
    destruct (png_check_IHDR (IHDR s)) eqn:Hc; [|reflexivity].
    cbn [negb].
    replace (color_type (IHDR s) =? PNG_COLOR_TYPE_PALETTE) with false
      by (destruct Hrgb as [-> | ->]; reflexivity).
    cbn [andb].
    rewrite png_handle_unknown_ancillary by exact Hanc.
    rewrite !bind_ret_l. cbv beta iota zeta.
    unfold png_read_update_info, may_fail.
    destruct (png_fault e in_read_update_info); [reflexivity|].
    repeat (rewrite bind_ret_l; cbv beta).
    cbn [rd_stream rd_info rd_transformations png_get_IHDR].
    rewrite !request_transforms_stream, !request_transforms_info.
    cbn [rd_stream rd_info].
    fold (requested s). fold (updated_IHDR s).
    destruct (rgb_format_of s Hc Hrgb) as (Hfmt & Hpal & Hbytes).
    rewrite Hfmt, bind_ret_l, Hpal, bind_ret_l.
    unfold png_read_image, may_fail. cbn [rd_stream].
    destruct (png_fault e in_read_image); [reflexivity|].
    rewrite bind_ret_l.
    destruct (png_check_IHDR_inv _ Hc) as (Hw0 & Hh0 & _).
    destruct (updated_IHDR_spec s Hc) as (Hw & Hh & _ & _).
    rewrite Hw, Hh.
    set (fmt := if color_type (IHDR s) =? PNG_COLOR_TYPE_RGB
                then pixel_format.rgb else pixel_format.rgba) in *.
    assert (Hch : 0 < channels (color_type (IHDR s)))
      by (destruct Hrgb as [-> | ->]; cbn; lia).
    assert (Hpitch :
      pitch (Image_new e (width (IHDR s)) (height (IHDR s)) fmt)
      = width (IHDR s) * channels (color_type (IHDR s)))
      by (unfold pitch; cbn [img_width img_format Image_new];
          rewrite Hbytes; reflexivity).
    rewrite scanline_ptrs by (rewrite Hpitch; nia).
    rewrite Hpitch. fold (samples_per_row s).
    change (Z.to_nat (height (IHDR s))) with (row_count s).
    change {| rd_stream := s; rd_info := updated_IHDR s;
              rd_transformations := requested s |} with (reader_of s).
    assert (Hrows : (length (samples s)
                     < row_count s * samples_per_row s)%nat).
    { unfold row_count, samples_per_row.
      rewrite <- Z2Nat.inj_mul by nia. apply Nat2Z.inj_lt.
      rewrite Z2Nat.id by nia. lia. }
    assert (Hpos : (0 < row_count s)%nat) by (unfold row_count; lia).
    rewrite (read_rows_truncated (reader_of s) (samples_per_row s)
               (row_count s) (row_count s - 1)).
    - reflexivity.
    - intros k r. cbn [rd_stream reader_of].
      apply (rgb_source_row_length s Hc Hrgb).
    - lia.
    - cbn [rd_stream reader_of]. unfold source_row, Mem.read.
      fold (samples_per_row s).
      destruct (Nat.leb_spec
                  ((row_count s - 1) * samples_per_row s + samples_per_row s)
                  (length (samples s))) as [Hle|_]; [nia | reflexivity].
    - lia.
    - lia.
    - cbn [img_data set_offsets Image_new]. rewrite repeat_length.
      unfold row_count, samples_per_row. rewrite Hbytes.
      rewrite <- Z2Nat.inj_mul by nia. f_equal. ring. }
  rewrite (load_of_body e s w Hs Hi _ Hbody). reflexivity.
Qed.

Lemma load_truncated_image_witness :
  Forall ancillary (unknown_before_IDAT Sample.rgb_truncated) /\
  Z.of_nat (length (samples Sample.rgb_truncated)) < 2 * 1 * 3 /\
  load Sample.env0 Sample.rgb_truncated initial_world
  = (Throw (image_load_error "An error occurred in libpng"),
     {| events := [Acquire read_struct; Acquire info_struct;
                   Release info_struct; Release read_struct];
        out := empty_ostream |}).
Proof.
  assert (Ha : Forall ancillary (unknown_before_IDAT Sample.rgb_truncated))
    by constructor.
  assert (Hl : Z.of_nat (length (samples Sample.rgb_truncated)) < 2 * 1 * 3)
    by (cbn; lia).
  split; [exact Ha | split; [exact Hl|]].
  exact (load_truncated_image Sample.env0 Sample.rgb_truncated initial_world
           eq_refl eq_refl (or_introl eq_refl) Ha Hl).
Defined.

(** ** Gray with alpha, pixel by pixel *)

(** X10: an 8-bit gray file with alpha is returned as an rgba image of the
    same dimensions in which pixel [j] has the gray sample of pixel [j] of
    the file in its red, green and blue bytes and the file's alpha in its
    fourth byte ([png_set_gray_to_rgb]). *)
Theorem load_gray_alpha_pixels (e : env) (s : png_datastream) (w : world) :
  healthy e -> readable s ->
  color_type (IHDR s) = PNG_COLOR_TYPE_GRAY_ALPHA ->
  bit_depth (IHDR s) = 8 ->
  exists img,
    load e s w = (Ret img, reader_acquired w) /\
    img_width img = width (IHDR s) /\ img_height img = height (IHDR s) /\
    img_format img = pixel_format.rgba /\
    forall j, (j < Z.to_nat (width (IHDR s) * height (IHDR s)))%nat ->
      nth (4 * j) (img_data img) 0 = nth (2 * j) (samples s) 0 /\
      nth (4 * j + 1) (img_data img) 0 = nth (2 * j) (samples s) 0 /\
      nth (4 * j + 2) (img_data img) 0 = nth (2 * j) (samples s) 0 /\
      nth (4 * j + 3) (img_data img) 0 = nth (2 * j + 1) (samples s) 0.
Proof.
  intros He Hr Hct Hd.
  destruct (gray_alpha_dimensions s Hr Hct) as (Hw & Hh & Hlen).
  eexists. split; [apply (load_gray_alpha e s He Hr Hct Hd)|].
  cbn [img_width img_height img_format img_data].
  repeat split; intros.
  all: set (cnt := (row_count s * (2 * Z.to_nat (width (IHDR s))))%nat) in *.
  all: assert (HN : cnt = (2 * Z.to_nat (width (IHDR s) * height (IHDR s)))%nat)
         by (unfold cnt, row_count; rewrite Z2Nat.inj_mul by lia; lia).
  all: assert (HL : length (firstn cnt (samples s)) = cnt)
         by (rewrite length_firstn; lia).
  all: destruct (gray_alpha_to_rgba_pixel j (firstn cnt (samples s)))
         as (H0 & H1 & H2 & H3); [lia|].
  all: rewrite ?H0, ?H1, ?H2, ?H3, nth_firstn.
  all: match goal with
       | |- context [(?a <? ?b)%nat] =>
           destruct (Nat.ltb_spec a b); [reflexivity | lia]
       end.
Qed.

Lemma readable_gray_alpha_1x1 : readable Sample.gray_alpha_1x1.
Proof.
  unfold readable. cbn.
  repeat split; try constructor; try discriminate; lia.
Defined.

Lemma load_gray_alpha_pixels_witness :
  healthy Sample.env0 /\ readable Sample.gray_alpha_1x1 /\
  exists img,
    load Sample.env0 Sample.gray_alpha_1x1 initial_world
    = (Ret img, reader_acquired initial_world) /\
    img_width img = 1 /\ img_height img = 1 /\
    img_format img = pixel_format.rgba /\
    forall j, (j < 1)%nat ->
      nth (4 * j) (img_data img) 0 = nth (2 * j) [100; 255] 0 /\
      nth (4 * j + 1) (img_data img) 0 = nth (2 * j) [100; 255] 0 /\
      nth (4 * j + 2) (img_data img) 0 = nth (2 * j) [100; 255] 0 /\
      nth (4 * j + 3) (img_data img) 0 = nth (2 * j + 1) [100; 255] 0.
Proof.
  split; [exact healthy_env0 | split; [exact readable_gray_alpha_1x1|]].
  exact (load_gray_alpha_pixels Sample.env0 Sample.gray_alpha_1x1
           initial_world healthy_env0 readable_gray_alpha_1x1 eq_refl
           eq_refl).
Defined.

(** ** How save can end *)

(** *** Observations of the state *)

Section Observations.

Context {X : Type} (obs : world -> X).

Lemma obs_ret {A} (a : A) : keeps obs (ret a).
Proof. intros w. reflexivity. Qed.

Lemma obs_throw {A} x : keeps obs (@throw A x).
Proof. intros w. reflexivity. Qed.

Lemma obs_png_error {A} : keeps obs (@png_error A).
Proof. intros w. reflexivity. Qed.

Lemma obs_undefined {A} : keeps obs (@undefined A).
Proof. intros w. reflexivity. Qed.

Lemma obs_defined {A} (o : option A) : keeps obs (defined o).
Proof. destruct o; [apply obs_ret | apply obs_undefined]. Qed.

Lemma obs_may_fail e c : keeps obs (may_fail e c).
Proof.
  unfold may_fail.
  destruct (png_fault e c); [apply obs_png_error | apply obs_ret].
Qed.

Lemma obs_bind {A B} (m : M A) (k : A -> M B) :
  keeps obs m -> (forall a, keeps obs (k a)) -> keeps obs (bind m k).
Proof.
  intros Hm Hk w. unfold bind. specialize (Hm w).
  destruct (m w) as [[a| x | |] w1]; simpl in *; try exact Hm.
  rewrite <- Hm. apply Hk.
Qed.

Lemma obs_if {A} (b : bool) (m1 m2 : M A) :
  keeps obs m1 -> keeps obs m2 -> keeps obs (if b then m1 else m2).
Proof. destruct b; auto. Qed.

(** A change made on return by the last step is a change made on return by
    the whole. *)
Lemma on_return_bind {A B} upd (m : M A) (k : A -> M B) :
  keeps obs m -> (forall a, on_return obs upd (k a)) ->
  on_return obs upd (bind m k).
Proof.
  intros Hm Hk w. unfold bind. specialize (Hm w).
  destruct (m w) as [[a| x | |] w1]; simpl in *; try exact Hm.
  rewrite (Hk a w1), Hm. reflexivity.
Qed.

End Observations.

Lemma events_modify_out f : keeps events (modify_out f).
Proof. intros w. reflexivity. Qed.


Lemma events_write_rows hdr image mem n :
  forall i, keeps events (write_rows hdr image mem i n).
Proof.
  induction n as [|n IH]; intros i; simpl.
  - apply obs_ret.
  - apply obs_bind; [apply obs_defined|]. intros p.
    apply obs_bind; [apply obs_defined|]. intros row.
    apply obs_bind; [apply events_modify_out|]. intros _. apply IH.
Qed.


Lemma png_color_type_of_keeps {X} (obs : world -> X) f :
  keeps obs (png_color_type_of f).
Proof. destruct f; first [apply obs_ret | apply obs_throw]. Qed.

Lemma png_set_IHDR_keeps {X} (obs : world -> X) e w h d ct il :
  keeps obs (png_set_IHDR e w h d ct il).
Proof.
  unfold png_set_IHDR. apply obs_bind; [apply obs_may_fail|]. intros _.
  cbv zeta. apply obs_if; [apply obs_ret | apply obs_png_error].
Qed.

(** The guarded part of [save] releases the two handles exactly when it
    returns. *)
Lemma save_body_events e im :
  on_return events
    (fun l => (l ++ [Release info_struct]) ++ [Release write_struct])
    (save_body e im).
Proof.
  unfold save_body.
  apply on_return_bind; [apply png_color_type_of_keeps|]. intros ct.
  apply on_return_bind; [apply png_set_IHDR_keeps|]. intros hdr.
  apply on_return_bind.
  { unfold png_write_info. apply obs_bind; [apply obs_may_fail|].
    intros _. apply events_modify_out. }
  intros _.
  apply on_return_bind.
  { unfold png_write_image. apply obs_bind; [apply obs_may_fail|].
    intros _. apply events_write_rows. }
  intros _.
  apply on_return_bind.
  { unfold png_write_end. apply obs_bind; [apply obs_may_fail|].
    intros _. apply events_modify_out. }
  intros _ w. reflexivity.
Qed.


(** *** The exceptions of save *)

Lemma nt_write_rows hdr image mem n :
  forall i, never_throws (write_rows hdr image mem i n).
Proof.
  induction n as [|n IH]; intros i; simpl.
  - apply nt_ret.
  - apply nt_bind; [apply nt_defined|]. intros p.
    apply nt_bind; [apply nt_defined|]. intros row.
    apply nt_bind; [apply nt_modify_out|]. intros _. apply IH.
Qed.

Lemma nt_save_tail e im ct :
  never_throws
    (hdr <- png_set_IHDR e (img_width im) (img_height im) 8 ct
                         PNG_INTERLACE_NONE ;;
     png_write_info e hdr ;;
     png_write_image e hdr
       (map (scanline_ptr im) (seq 0 (Z.to_nat (img_height im))))
       (img_data im) ;;
     png_write_end e ;;
     png_destroy_write_struct true).
Proof.
  apply nt_bind.
  { unfold png_set_IHDR. apply nt_bind; [apply nt_may_fail|]. intros _.
    cbv zeta. apply nt_if; [apply nt_ret | apply nt_png_error]. }
  intros hdr. apply nt_bind.
  { unfold png_write_info. apply nt_bind; [apply nt_may_fail|].
    intros _. apply nt_modify_out. }
  intros _. apply nt_bind.
  { unfold png_write_image. apply nt_bind; [apply nt_may_fail|].
    intros _. apply nt_write_rows. }
  intros _. apply nt_bind.
  { unfold png_write_end. apply nt_bind; [apply nt_may_fail|].
    intros _. apply nt_modify_out. }
  intros _. unfold png_destroy_write_struct.
  apply nt_bind; [apply nt_log|]. intros _. apply nt_log.
Qed.

(** The guarded part throws only for the pixel format, before it has done
    anything. *)
Lemma save_body_Throw_inv e im w x w' :
  save_body e im w = (Throw x, w') ->
  ~ compatible (img_format im) /\
  x = image_save_error "Saving image with incompatible pixel format" /\
  w' = w.
Proof.
  intros H. unfold save_body in H. apply bind_Throw_inv in H.
  destruct H as [H | (ct & w1 & _ & H)].
  - destruct (img_format im) eqn:E; try discriminate H;
      inversion H; subst; (split; [|split; reflexivity]);
      intros [C|[C|[C|C]]]; discriminate C.
  - exfalso. eapply nt_save_tail, H.
Qed.

(** [save] by cases on the creation of the two handles and on how the
    guarded part ends. *)
Lemma save_cases e im w :
  (create_struct_ok e = false /\
   save e im w
   = (Throw (image_save_error "Failed getting png_structp"), w)) \/
  (create_struct_ok e = true /\ create_info_ok e = false /\
   save e im w
   = (Throw (image_save_error "Failed getting png_infop"),
      {| events := (events w ++ [Acquire write_struct])
                   ++ [Release write_struct];
         out := out w |})) \/
  (create_struct_ok e = true /\ create_info_ok e = true /\
   exists o w1,
     save_body e im (writer_acquired w) = (o, w1) /\
     save e im w
     = match o with
       | Longjmp =>
           (Throw (image_save_error "Error occurred in libpng"),
            {| events := (events w1 ++ [Release info_struct])
                         ++ [Release write_struct];
               out := out w1 |})
       | _ => (o, w1)
       end).
Proof.
  destruct (create_struct_ok e) eqn:Hs.
  2:{ left. split; [reflexivity|].
      unfold save, png_create_write_struct. rewrite Hs. reflexivity. }
  destruct (create_info_ok e) eqn:Hi.
  2:{ right. left. split; [reflexivity|]. split; [reflexivity|].
      unfold save, png_create_write_struct, png_create_info_struct.
      rewrite Hs, Hi. reflexivity. }
  right. right. split; [reflexivity|]. split; [reflexivity|].
  rewrite save_frame by assumption. unfold setjmp.
  destruct (save_body e im (writer_acquired w)) as [[u| x | |] w1];
    eexists; eexists; (split; [reflexivity|]); reflexivity.
Qed.


(** X12: the ways [save] fails.  It never leaves through libpng's
    [longjmp]; when it throws, the exception is an [image_save_error] with
    one of four messages: the write struct could not be created (nothing is
    held), the info struct could not be created (the write struct was
    released), the pixel format is not one of rgb, bgr, rgba, bgra (both
    structs are still held and nothing was written), or libpng reported an
    error (both structs were released, info first). *)
Theorem save_failure_modes (e : env) (im : Image) (w : world) :
  fst (save e im w) <> Longjmp /\
  forall x w', save e im w = (Throw x, w') ->
    (x = image_save_error "Failed getting png_structp" /\
     create_struct_ok e = false /\ w' = w) \/
    (x = image_save_error "Failed getting png_infop" /\
     create_info_ok e = false /\ out w' = out w /\
     events w' = events w ++ [Acquire write_struct; Release write_struct]) \/
    (x = image_save_error "Saving image with incompatible pixel format" /\
     ~ compatible (img_format im) /\ out w' = out w /\
     events w' = events w ++ [Acquire write_struct; Acquire info_struct]) \/
    (x = image_save_error "Error occurred in libpng" /\
     events w' = events w ++ [Acquire write_struct; Acquire info_struct;
                              Release info_struct; Release write_struct]).
Proof.
  destruct (save_cases e im w)
    as [[Hs E] | [(_ & Hi & E) | (_ & _ & o & w1 & Hb & E)]]; rewrite E.
  - split; [discriminate|]. intros x w' H. inversion H; subst.
    left. auto.
  - split; [discriminate|]. intros x w' H. inversion H; subst.
    right. left. cbn [events out]. rewrite <- app_assoc. auto.
  - pose proof (save_body_events e im (writer_acquired w)) as Hev.
    rewrite Hb in Hev. simpl in Hev.
    destruct o as [u| y | |].
    + split; [discriminate|]. intros x w' H. discriminate H.
    + split; [discriminate|]. intros x w' H. inversion H; subst.
      apply save_body_Throw_inv in Hb. destruct Hb as (Hc & -> & ->).
      right. right. left. cbn [events out writer_acquired].
      rewrite <- app_assoc. auto.
    + split; [discriminate|]. intros x w' H. inversion H; subst.
      right. right. right. split; [reflexivity|].
      cbn [events]. rewrite Hev. rewrite <- !app_assoc. reflexivity.
    + split; [discriminate|]. intros x w' H. discriminate H.
Qed.

(** *** Handles *)

Lemma all_released_app l1 l2 :
  all_released l1 -> all_released l2 -> all_released (l1 ++ l2).
Proof.
  intros H1 H2 h. rewrite releases_app, acquisitions_app, H1, H2.
  reflexivity.
Qed.

Lemma nu_ret {A} (a : A) : never_undefined (ret a).
Proof. intros w H. discriminate H. Qed.

Lemma nu_throw {A} x : never_undefined (@throw A x).
Proof. intros w H. discriminate H. Qed.

Lemma nu_png_error {A} : never_undefined (@png_error A).
Proof. intros w H. discriminate H. Qed.

Lemma nu_may_fail e c : never_undefined (may_fail e c).
Proof.
  unfold may_fail.
  destruct (png_fault e c); [apply nu_png_error | apply nu_ret].
Qed.

Lemma nu_modify_out f : never_undefined (modify_out f).
Proof. intros w H. discriminate H. Qed.

Lemma nu_log ev : never_undefined (log ev).
Proof. intros w H. discriminate H. Qed.

Lemma nu_bind {A B} (m : M A) (k : A -> M B) :
  never_undefined m -> (forall a, never_undefined (k a)) ->
  never_undefined (bind m k).
Proof.
  intros Hm Hk w. unfold bind. specialize (Hm w).
  destruct (m w) as [[a| x | |] w1]; simpl in *;
    try discriminate; [apply Hk | exfalso; apply Hm; reflexivity].
Qed.

Lemma nu_if {A} (b : bool) (m1 m2 : M A) :
  never_undefined m1 -> never_undefined m2 ->
  never_undefined (if b then m1 else m2).
Proof. destruct b; auto. Qed.

(** On a buffer that holds all its rows the guarded part of [save] reads
    inside the buffer, whatever libpng does. *)
Lemma nu_save_body e im :
  compatible (img_format im) -> valid_image im ->
  never_undefined (save_body e im).
Proof.
  intros Hc (Hw0 & Hh0 & Hlen).
  destruct (compatible_color_type _ Hc) as (ct & Hct & Hb & Hrgb & _).
  assert (Hch : 0 < channels ct) by (destruct Hrgb as [-> | ->]; cbn; lia).
  unfold save_body. rewrite Hct, bind_ret_l.
  unfold png_set_IHDR, may_fail.
  destruct (png_fault e in_set_IHDR); [apply nu_png_error|].
  rewrite bind_ret_l. cbv zeta.
  destruct (png_check_IHDR _); [|apply nu_png_error].
  rewrite bind_ret_l.
  apply nu_bind.
  { unfold png_write_info. apply nu_bind; [apply nu_may_fail|].
    intros _. apply nu_modify_out. }
  intros _. apply nu_bind.
  2:{ intros _. apply nu_bind.
      - unfold png_write_end. apply nu_bind; [apply nu_may_fail|].
        intros _. apply nu_modify_out.
      - intros _. unfold png_destroy_write_struct.
        apply nu_bind; [apply nu_log|]. intros _. apply nu_log. }
  unfold png_write_image. apply nu_bind; [apply nu_may_fail|]. intros _.
  cbn [height].
  assert (Hp : 0 <= pitch im) by (unfold pitch; rewrite Hb; nia).
  rewrite scanline_ptrs by exact Hp.
  intros w.
  rewrite (write_rows_spec _ (img_data im) (Z.to_nat (pitch im))
             (Z.to_nat (img_height im))).
  - discriminate.
  - unfold rowbytes, pitch. cbn [width color_type bit_depth].
    rewrite Hb. f_equal. rewrite Z.div_mul by lia. reflexivity.
  - apply Nat2Z.inj. rewrite Nat2Z.inj_mul, !Z2Nat.id by lia. exact Hlen.
  - lia.
Qed.

(** X13: on an image in one of the four accepted formats whose buffer holds
    all its rows, [save] never reads outside the buffer and leaks no
    handle: however the call ends (normally, or with an exception because a
    struct could not be created or libpng reported an error), every struct
    it acquired has been released. *)
Theorem save_releases_handles (e : env) (im : Image) (w : world) :
  compatible (img_format im) -> valid_image im ->
  all_released (events w) ->
  fst (save e im w) <> Undefined /\
  all_released (events (snd (save e im w))).
Proof.
  intros Hc Hv Hw.
  destruct (save_cases e im w)
    as [[_ E] | [(_ & _ & E) | (_ & _ & o & w1 & Hb & E)]]; rewrite E.
  - split; [discriminate | exact Hw].
  - split; [discriminate|]. cbn [snd events]. rewrite <- app_assoc.
    apply all_released_app; [exact Hw|]. intros [| |]; reflexivity.
  - pose proof (save_body_events e im (writer_acquired w)) as Hev.
    pose proof (nu_save_body e im Hc Hv (writer_acquired w)) as Hnu.
    rewrite Hb in Hev, Hnu. simpl in Hev, Hnu.
    destruct o as [u| y | |].
    + split; [discriminate|]. cbn [snd]. rewrite Hev.
      cbn [events writer_acquired]. rewrite <- !app_assoc.
      apply all_released_app; [exact Hw|]. intros [| |]; reflexivity.
    + apply save_body_Throw_inv in Hb. destruct Hb as (Hn & _).
      contradiction.
    + split; [discriminate|]. cbn [snd events]. rewrite Hev.
      cbn [events writer_acquired]. rewrite <- !app_assoc.
      apply all_released_app; [exact Hw|]. intros [| |]; reflexivity.
    + contradiction.
Qed.

Lemma all_released_nil : all_released [].
Proof. intros h. reflexivity. Defined.

Lemma compatible_rgb_image : compatible (img_format Sample.rgb_image).
Proof. left. reflexivity. Defined.

Lemma save_releases_handles_witness :
  compatible (img_format Sample.rgb_image) /\ valid_image Sample.rgb_image /\
  all_released (events initial_world) /\
  fst (save Sample.env_write_fails Sample.rgb_image initial_world)
  <> Undefined /\
  all_released
    (events (snd (save Sample.env_write_fails Sample.rgb_image
                       initial_world))).
Proof.
  split; [exact compatible_rgb_image | split; [exact valid_rgb_image |
    split; [exact all_released_nil|]]].
  exact (save_releases_handles Sample.env_write_fails Sample.rgb_image
           initial_world compatible_rgb_image valid_rgb_image
           all_released_nil).
Defined.

(** *** What a return of save means *)



(** ** Round trips *)

(** An 8-bit RGB or RGBA file that libpng reads without an error is
    returned with the samples of the file as its bytes. *)
Lemma load_rgb_8 e s w :
  healthy e -> readable s ->
  color_type (IHDR s) = PNG_COLOR_TYPE_RGB \/
  color_type (IHDR s) = PNG_COLOR_TYPE_RGB_ALPHA ->
  bit_depth (IHDR s) = 8 ->
  load e s w
  = (Ret (mkImage (width (IHDR s)) (height (IHDR s))
            (if color_type (IHDR s) =? PNG_COLOR_TYPE_RGB
             then pixel_format.rgb else pixel_format.rgba)
            (firstn (Z.to_nat (width (IHDR s) * height (IHDR s)
                               * channels (color_type (IHDR s))))
                    (samples s))
            Palette_none
            (offsets_after (host e) (unknown_before_IDAT s)
                           (stack_offsets e))),
     reader_acquired w).
Proof.
  intros (Hs & Hi & Hf) Hr Hrgb Hd.
  assert (Hdirect : color_type (IHDR s) = PNG_COLOR_TYPE_RGB \/
                    color_type (IHDR s) = PNG_COLOR_TYPE_RGB_ALPHA \/
                    color_type (IHDR s) = PNG_COLOR_TYPE_PALETTE) by tauto.
  assert (H16 : bit_depth (IHDR s) <> 16) by lia.
  destruct (rgb_format_of s (proj1 Hr) Hrgb) as (Hfmt & Hpal & Hbytes).
  rewrite load_frame by assumption. unfold setjmp.
  rewrite (load_body_direct e s Hf Hr Hdirect H16 _ Palette_none Hfmt Hbytes).
  - reflexivity.
  - rewrite Hpal. destruct Hrgb as [E|E]; rewrite E; reflexivity.
Qed.

(** X15: loading an 8-bit RGB or RGBA file and saving the image again
    writes a complete file with the same dimensions, bit depth, colour type
    and image data, not interlaced, and without any of the other chunks of
    the file: a [grAb] chunk is read into the offsets of the image but not
    written back. *)
Theorem load_save_round_trip (e e' : env) (s : png_datastream)
    (w w1 : world) :
  healthy e -> healthy e' -> readable s ->
  color_type (IHDR s) = PNG_COLOR_TYPE_RGB \/
  color_type (IHDR s) = PNG_COLOR_TYPE_RGB_ALPHA ->
  bit_depth (IHDR s) = 8 ->
  out w1 = empty_ostream ->
  exists img w',
    load e s w = (Ret img, reader_acquired w) /\
    save e' img w1 = (Ret tt, w') /\
    written_file (out w')
    = Some {| IHDR := {| width := width (IHDR s);
                         height := height (IHDR s);
                         bit_depth := 8;
                         color_type := color_type (IHDR s);
                         interlace_method := PNG_INTERLACE_NONE |};
              PLTE := []; tRNS := None; unknown_before_IDAT := [];
              samples := firstn (Z.to_nat (width (IHDR s) * height (IHDR s)
                                           * channels (color_type (IHDR s))))
                                (samples s);
              unknown_after_IDAT := [] |}.
Proof.
  intros He He' Hr Hrgb Hd Hout.
  pose proof Hr as (Hc & _ & _ & _ & Hlen).
  destruct (png_check_IHDR_inv _ Hc) as (Hw0 & Hh0 & _).
  destruct (rgb_format_of s Hc Hrgb) as (_ & _ & Hbytes).
  assert (Hch : 0 < channels (color_type (IHDR s)))
    by (destruct Hrgb as [-> | ->]; cbn; lia).
  eexists. eexists.
  split; [apply (load_rgb_8 e s w He Hr Hrgb Hd)|].
  split.
  - apply (save_compatible e' _ w1 (color_type (IHDR s)) He').
    + unfold valid_image, pitch.
      cbn [img_width img_height img_format img_data].
      split; [lia|]. split; [lia|].
      rewrite length_firstn, Nat.min_l.
      * rewrite Z2Nat.id by nia. rewrite Hbytes. ring.
      * apply Nat2Z.inj_le. rewrite Z2Nat.id by nia. exact Hlen.
    + unfold non_empty. cbn [img_width img_height]. lia.
    + cbn [img_format]. destruct Hrgb as [E|E]; rewrite E; reflexivity.
    + cbn [img_format]. exact Hbytes.
    + exact Hrgb.
  - cbn [saved out os_IHDR os_IEND os_unknown os_samples written_file
         img_width img_height img_data].
    rewrite Hout. reflexivity.
Qed.

Lemma readable_rgb_2x1_chunks : readable Sample2.rgb_2x1_chunks.
Proof.
  unfold readable. cbn.
  repeat split; try discriminate; try lia; repeat constructor.
Defined.

Lemma load_save_round_trip_witness :
  healthy Sample.env0 /\ readable Sample2.rgb_2x1_chunks /\
  exists img w',
    load Sample.env0 Sample2.rgb_2x1_chunks initial_world
    = (Ret img, reader_acquired initial_world) /\
    save Sample.env0 img initial_world = (Ret tt, w') /\
    written_file (out w') = Some Sample.rgb_2x1.
Proof.
  split; [exact healthy_env0 | split; [exact readable_rgb_2x1_chunks|]].
  exact (load_save_round_trip Sample.env0 Sample.env0
           Sample2.rgb_2x1_chunks initial_world initial_world healthy_env0
           healthy_env0 readable_rgb_2x1_chunks (or_introl eq_refl) eq_refl
           eq_refl).
Defined.

(** X16: [save] writes the bytes of a bgr or bgra image as they are under
    the colour type RGB or RGB with alpha, so the image that [load] returns
    for the written file has the same dimensions and the same bytes but is
    tagged rgb or rgba: the blue and red channels have changed places for
    whoever reads it. *)
Theorem save_load_bgr (e e' : env) (im : Image) (w w1 : world) :
  healthy e -> healthy e' ->
  valid_image im -> non_empty im ->
  img_format im = pixel_format.bgr \/ img_format im = pixel_format.bgra ->
  out w = empty_ostream ->
  exists w' file img,
    save e im w = (Ret tt, w') /\
    written_file (out w') = Some file /\
    load e' file w1 = (Ret img, reader_acquired w1) /\
    img_width img = img_width im /\
    img_height img = img_height im /\
    img_data img = img_data im /\
    img_format img
    = match img_format im with
      | pixel_format.bgr => pixel_format.rgb
      | _ => pixel_format.rgba
      end /\
    img_format img <> img_format im.
Proof.
  intros He He' Hv Hn Hfmt Hout.
  assert (Hc : compatible (img_format im))
    by (destruct Hfmt as [-> | ->]; unfold compatible; auto).
  destruct (compatible_color_type _ Hc) as (ct & Hct & Hb & Hrgb & Hmap).
  set (file := {| IHDR := {| width := img_width im; height := img_height im;
                             bit_depth := 8; color_type := ct;
                             interlace_method := PNG_INTERLACE_NONE |};
                  PLTE := []; tRNS := None; unknown_before_IDAT := [];
                  samples := img_data im; unknown_after_IDAT := [] |}).
  pose proof Hv as (Hw0 & Hh0 & Hlen). pose proof Hn as (Hw & Hh).
  assert (Hch : channels ct = pixel_format.bytes (img_format im)) by auto.
  assert (Hr : readable file).
  { unfold readable, file. cbn [IHDR PLTE unknown_before_IDAT
      unknown_after_IDAT samples width height color_type].
    repeat split; try constructor.
    - unfold png_check_IHDR. cbn [width height bit_depth color_type
        interlace_method].
      replace (0 <? img_width im) with true by (symmetry; apply Z.ltb_lt; lia).
      replace (0 <? img_height im) with true
        by (symmetry; apply Z.ltb_lt; lia).
      destruct Hrgb as [-> | ->]; reflexivity.
    - intros Hp. destruct Hrgb as [E|E]; rewrite E in Hp; discriminate Hp.
    - rewrite Hlen. unfold pitch. rewrite Hch. lia. }
  exists (saved im ct w), file. eexists.
  split; [apply (save_compatible e im w ct He Hv Hn Hct Hb Hrgb)|].
  split; [cbn [saved out os_IHDR os_IEND written_file]; rewrite Hout;
          reflexivity|].
  split; [apply (load_rgb_8 e' file w1 He' Hr Hrgb eq_refl)|].
  cbn [img_width img_height img_format img_data IHDR width height
       color_type samples file].
  split; [reflexivity|]. split; [reflexivity|].
  split.
  { apply firstn_all2. rewrite Hch. apply Nat2Z.inj_le.
    rewrite Z2Nat.id by (unfold pitch in Hlen; nia).
    rewrite Hlen. unfold pitch. lia. }
  destruct Hfmt as [F|F]; rewrite F in *; cbn in Hmap; subst ct;
    split; [reflexivity | discriminate | reflexivity | discriminate].
Qed.

Lemma valid_bgr_image : valid_image Sample2.bgr_image.
Proof. unfold valid_image. cbn. lia. Defined.

Lemma non_empty_bgr_image : non_empty Sample2.bgr_image.
Proof. unfold non_empty. cbn. lia. Defined.

Lemma save_load_bgr_witness :
  healthy Sample.env0 /\ valid_image Sample2.bgr_image /\
  non_empty Sample2.bgr_image /\
  exists w' file img,
    save Sample.env0 Sample2.bgr_image initial_world = (Ret tt, w') /\
    written_file (out w') = Some file /\
    load Sample.env0 file initial_world
    = (Ret img, reader_acquired initial_world) /\
    img_width img = 2 /\ img_height img = 1 /\
    img_data img = [10; 20; 30; 40; 50; 60] /\
    img_format img = pixel_format.rgb /\
    img_format img <> pixel_format.bgr.
Proof.
  split; [exact healthy_env0 | split; [exact valid_bgr_image |
    split; [exact non_empty_bgr_image|]]].
  exact (save_load_bgr Sample.env0 Sample.env0 Sample2.bgr_image
           initial_world initial_world healthy_env0 healthy_env0
           valid_bgr_image non_empty_bgr_image (or_introl eq_refl) eq_refl).
Defined.

(** ** Empty images *)

(** X17: an image without pixels cannot be saved: for a width or a height of
    zero [png_set_IHDR] reports an error, and [save] throws
    ["Error occurred in libpng"] with both structs released and nothing
    written. *)
Theorem save_empty_image (e : env) (im : Image) (w : world) :
  create_struct_ok e = true -> create_info_ok e = true ->
  compatible (img_format im) ->
  img_width im = 0 \/ img_height im = 0 ->
  save e im w
  = (Throw (image_save_error "Error occurred in libpng"),
     writer_released w).
Proof.
  intros Hs Hi Hc Hempty.
  destruct (compatible_color_type _ Hc) as (ct & Hct & _).
  assert (Hbody : save_body e im = png_error).
  { unfold save_body. rewrite Hct, bind_ret_l.
    unfold png_set_IHDR, may_fail.
    destruct (png_fault e in_set_IHDR); [reflexivity|].
    rewrite bind_ret_l. cbv zeta.
    replace (png_check_IHDR _) with false; [reflexivity|].
    unfold png_check_IHDR. cbn [width height].
    destruct Hempty as [-> | ->]; [reflexivity|].
    rewrite andb_false_r. reflexivity. }
  rewrite save_frame by assumption. rewrite Hbody. reflexivity.
Qed.

Lemma save_empty_image_witness :
  compatible pixel_format.rgb /\
  save Sample.env0 (Sample.image pixel_format.rgb 0 1 []) initial_world
  = (Throw (image_save_error "Error occurred in libpng"),
     {| events := [Acquire write_struct; Acquire info_struct;
                   Release info_struct; Release write_struct];
        out := empty_ostream |}).
Proof.
  assert (Hc : compatible pixel_format.rgb) by (left; reflexivity).
  split; [exact Hc|].
  exact (save_empty_image Sample.env0 (Sample.image pixel_format.rgb 0 1 [])
           initial_world eq_refl eq_refl Hc (or_introl eq_refl)).
Defined.
